(* ===== verification/_CoqProject ===== *)
-Q . S2P
Prelude.v
PyStr.v
PyVal.v
DateTime.v
Iso.v
World.v
Store.v
Scenario.v
Summarizer.v
Extractor.v
Endpoints.v
Cost.v
Pipeline.v
App.v
Schema.v
Service.v
Tasks.v
Workers.v
Sessions.v
