(* ===== verification/Prelude.v ===== *)
(** * Verification of the email-to-summary pipeline (src/app/main.py)

    ** The program

    [src/app/main.py] is a FastAPI service with two endpoints and three
    external collaborators:

    - when it is imported the module loads the environment, builds the
      application with its CORS middleware, constructs the clients of the
      store and of the chat API, probes the table once and logs the schema
      when the probe fails;
    - [POST /extract] ([extract_from_email]) calls
      [extract_emails_from_inbox], which opens one IMAP session, iterates the
      requested senders, fetches each sender's messages, keeps those whose date
      is within 24 hours of the moment the call started, builds one
      [email_content] dictionary per kept message and calls
      [summarize_single_email] on it; the endpoint then inserts each dictionary
      into the [emails] table, one insert per record, and answers with counts;
    - [GET /emails] ([get_emails]) reads the table ordered by [date]
      descending.

    The collaborators are the IMAP server (through [imap_tools]), the
    chat-completion API (through [groq]) and the table store (through
    [supabase]).  Python exceptions carry all error handling: three [try]
    blocks contain a failure to one message, one summary or one insert, two
    outer ones turn a failure of the whole call into an [HTTPException].

    ** The development, file by file

    - [Prelude] (this file): the result type [outcome]; the state-and-exception
      monad [M] in which every handler is written ([try_except] is Python's
      [try/except Exception], [finally] the exit of a [with] block, [for_fold]
      a [for] loop that updates a local variable) and its notation in
      [py_scope]; four ways of reasoning about a handler: the
      weakest-precondition calculus [wp] with the loop rule [wp_for_fold],
      invariants [preserves P c], [sim R c1 c2] for two runs in step, and
      [advances μ c k] for the growth of a measure; the tactics
      [preserves_auto] and [sim_auto] and the hint databases [wp] and [py]
      that the component files share.
    - [PyStr]: Python string operations used by the source: slices [s[:n]]
      ([str_take]), [", ".join] ([str_join]), decimal rendering, truthiness.
    - [PyVal]: JSON-like Python values ([pyval]), the exceptions the handlers
      distinguish ([exn]: [HTTPException] against every other [Exception]) and
      [str(e)].
    - [DateTime]: [datetime] values as a wall-clock count of microseconds plus
      an optional UTC offset; [now], [timedelta], [replace(tzinfo=utc)],
      [date()], comparison and [isoformat], with the calendar algorithm of
      CPython ([ord2ymd], [ymd2ord]).
    - [Iso]: the text [isoformat] writes, field by field ([iso_print]), and a
      parser that reads it back ([fromisoformat]), written in the monad of
      this file over the remaining input.
    - [World]: the state all handlers thread ([World]: tick counter, trace of
      external calls, log, rows of the table, next identifier), the class
      [Env] that states what the collaborators answer, one primitive action
      per external call of the source, the relation [grows] (a run extended
      the trace by these calls and left the table alone), the classes
      [Stable] and [Growing] of properties of the table with the invariant
      [store_wf], [same_view] (two worlds that agree on everything but the
      password of the logins recorded), the class [Blind] of the relations
      between worlds that no primitive can tell apart, so that one proof of
      [sim] per handler serves every such relation, and a reference mailbox
      with the search an IMAP server runs on it ([imap_search]).
    - [Store]: what the store promises about the column [date], as the
      interface [StoreReadsIso], and a reference store [pg_insert] that keeps
      the promise.
    - [Scenario]: one concrete mailbox, chat API and store, on which the
      theorems are applied to inputs that evaluate.
    - [Summarizer]: [summarize_single_email] (lines 71-101).
    - [Extractor]: [extract_emails_from_inbox] (lines 103-169), with its
      specification [extract_spec] and the IMAP session as an automaton
      ([session_step]).
    - [Endpoints]: [extract_from_email], [get_emails] and the import-time
      probe (lines 45-69 and 171-234), with the specification [stored_rows]
      of the insert loop.
    - [Cost]: the number of external interactions of a run, bounded.
    - [Pipeline]: Extractor, Iso, Store and Endpoints composed: what a
      request leaves in the table in terms of the messages of the mailbox,
      what a listing after a request answers, and what the same request sent
      twice leaves.
    - [App]: the module body [main] (lines 21-64 and the decorators of lines
      171 and 215) over the process environment as a finite map, the
      application object, the validation of a request body against
      [EmailRequest] and the conversion of the outcome of a handler into an
      HTTP response ([respond], [serve]).
    - [Schema]: a type system for JSON values and the types of every body
      the endpoints answer with.
    - [Service]: the process as a transition system, the import followed by
      one whole handler run per request ([running]).
    - [Tasks]: the two handlers cut at their store operations, the insert of
      line 195 and the select of line 220: a [task] is what is left of a
      request, [task_step] runs it up to and with its next store operation,
      [run_task] iterates the steps.
    - [Workers]: several processes of the service on one table.  A [worker]
      has a task, a [Session] (clock, trace and log of its own) and the
      answers of the collaborators to it; a [system] is the workers and the
      shared [Table]; [exec sched] runs the workers' steps in the order of
      the schedule and [history] lists the rows appended, each with the worker
      that appended it.
    - [Sessions]: the sessions with the mailbox over the life of a process.
      [sessions t n] is the language of the commands a process sends, a
      sequence of sessions [n] of which stopped at their login;
      [count_sessions] reads it off a trace; [handle_all rqs] serves the
      requests [rqs] one after the other, as [Service.running] does.

    ** Correspondence with the code

    A Python function [f(args)] that performs I/O is a Rocq function
    [f args : M World exn A]: given the world before the call it returns the
    value or the raised exception, and the world after.  A raised exception
    keeps the effects performed before it, as in Python.  Local variables
    that a loop updates ([email_data], [stored_count]) are the accumulator
    of [for_fold].  Definitions carry the names of the source; the body of a
    loop is a definition of its own ([process_message], [process_sender],
    [store_email]).  The external services are not implemented here: the class
    [Env] gives their answer to each request as a function of the number of
    interactions so far, so every theorem holds for every behaviour of the
    services, failures at any point included.  The log keeps the records at
    level INFO and above, as [basicConfig(level=INFO)] configures.  What a
    library does with the arguments the source hands it is a class with its
    laws ([App.Clients] for the constructors of the clients, [App.Pydantic]
    for the validation of a string, [Store.StoreReadsIso] for the date
    column): the theorems are proved against the class and [Scenario] and
    [App] give instances.

    ** What the theorems show

    - DateTime and Iso: the date [isoformat] prints is a valid calendar date
      and [ymd2ord] maps it back to the day number
      ([date_fields_roundtrip]); the text is the fixed-width one of
      [iso_print] ([isoformat_fixed_width]); reading it back returns the
      value ([fromisoformat_isoformat]); whatever the text, a value that is
      read is a [datetime] of the years 1 to 9999
      ([fromisoformat_valid]).
    - Summarizer: the function never raises; it returns the first choice of
      the completion when there is one and the fixed sentinel otherwise; the
      prompt carries at most 2000 characters of the body and the call does
      not depend on the rest; exactly one request is sent per call.
    - Extractor: every call implements [extract_spec] ([extract_refines]): a
      call that returns asked the mailbox once per sender, returns the records
      of the kept messages in order and closed the session; a call that fails
      raises the [HTTPException] with status 500 and the structured detail.
      Every returned record passed the precise filter; its [text] is the plain
      body unless that is empty; its summary is the summarizer's; one chat
      request is sent per record; the commands sent to the mailbox follow
      the session automaton; a session that was opened is closed on every
      path, but a refused login sends no logout; the filter compares a
      message written with a UTC offset against a cut-off shifted by that
      offset ([filter_shifted_by_offset]).  Against the reference mailbox
      the call returns the records of exactly the fresh messages of the
      requested senders ([extract_complete]).
    - Endpoints: a [POST /extract] that is answered sent every record to the
      store once and in order and the table grew by the accepted ones
      ([extract_from_email_refines]); [emails_stored <= emails_found]; a
      refused insert does not keep a later record out of the table; no
      insert is made when nothing was extracted; the only exception is the
      extractor's; the response, the log, the table and the external calls
      do not depend on the password, the login apart
      ([password_not_observed]); [GET /emails] returns the rows sorted by
      date, newest first, with their count; all handlers keep the
      identifiers of the rows distinct ([handlers_preserve_store_wf]) and
      every row in its place ([table_append_only]); the probe never raises.
      The handlers are proved in step for every relation of the class
      [Blind] at once ([sim_extract_from_email]).
    - Cost: a request ends after a number of interactions bounded by the
      number of senders and the size of the mailbox's answers
      ([extract_from_email_terminates]).
    - Pipeline: every row a request adds is kept under the date of a fetched
      message within the window ([rows_dated_by_message]); with a working
      session and a store that accepts what it can read every fresh message
      gets its row ([fresh_messages_stored]); a listing after a request
      answers with the rows that were there and the rows the request stored
      ([stored_then_listed]); the same request sent again stores again every
      message that is still fresh, under new identifiers
      ([rerun_duplicates]).
    - App and Schema: the import succeeds only with the three variables set
      and otherwise fails before any effect ([main_requires_config]); the
      body a client writes validates to its request
      ([EmailRequest_roundtrip]); every response has one of the shapes of
      its endpoint and status code ([responses_typed]).
    - Service: the invariants of the table hold in every world the process
      reaches ([service_invariant]).
    - Tasks: the steps of a request run one after the other are the handler:
      within [task_budget] steps the task is the response or the exception
      of [extract_from_email] in the world it leaves ([run_task_extract]); a
      step keeps every invariant of the table the handlers keep.
    - Workers: under every schedule the table stays well formed and is the
      initial rows followed by the rows appended, in the order of the steps
      ([workers_keep_table]); a schedule that gives every request the turns
      it needs alone lets every request finish ([enough_turns_finish]); a
      request that is given its steps ends with
      the response, log and calls of the handler run alone, on whatever table,
      and the rows it appended are those of that run up to their identifiers
      ([request_isolated]); a listing answers with the table at the moment of
      its select, which may hold part of the rows of a request under way
      ([listing_snapshot]); two schedules that let every request finish give
      the same responses and the same rows up to order and identifiers, so
      every interleaving is equivalent to serving the requests one after the
      other ([schedules_agree]), and a listing after all the requests shows
      the same dates in the same order whatever the interleaving was
      ([listings_agree]).
    - Sessions: the handlers send nothing to the mailbox but through the
      extractor; after the import and any requests the commands sent are a
      sequence of sessions, and those left without a logout are exactly as
      many as the refused logins ([sessions_accumulate]): the connection of
      a refused login is never closed by the program.  The reader
      [count_sessions] decides the language ([count_sessions_spec]).

    ** Bounds and fuel

    Every loop of the source iterates a finite list (senders, fetched
    messages, extracted records), so the handlers are structurally
    recursive and total, without fuel.  The parser of [Iso] recurses on
    the width of a field.  The one definition with fuel is
    [Tasks.run_task], which iterates [task_step]: a request for [n] senders
    whose mailbox answers with at most [B] messages each needs one step for
    the extraction, one per record and one for the response, at most
    [task_budget n B = 2 + n * B]; [run_task_extract] proves that this fuel
    reaches the end and that more changes nothing.  A schedule of
    [Workers] is a finite list of worker indices; a turn given to an index
    that is not a worker, or to a worker that is done, is a step that
    changes nothing.  Integers are unbounded [Z] as Python's are.  The
    calendar proof checks the 365 and 366 days of a year by evaluation and
    treats the years by arithmetic, so it covers every ordinal.  A
    [datetime] is valid for the years 1 to 9999, and subtracting a day from
    the clock raises [OverflowError] below that range, as in Python; the
    round trip of [Iso] holds on these values with offsets strictly within a
    day, which are all the values the type has.  The bound of [Cost] takes
    the largest answer of the mailbox as a parameter.  The identifier of
    a row is an unbounded [Z]: the column is a 64-bit identity (line 55)
    and the exhaustion of its values is not modelled.  A [str] is a
    [string]: one [ascii] stands for one character, so code points above 255
    are not distinguished.

    ** Not modelled

    The imports (lines 1-15).  The CORS middleware beyond its configuration:
    the headers it adds are the framework's.  The routes the framework adds
    by itself ([/docs], [/openapi.json]), the encoding of JSON as bytes and
    the HTTP protocol.  The reading of the [.env] file from disk: the file
    is the finite map of its variables.  The lazy, per-message network
    traffic of [MailBox.fetch] is modelled as a finite list of messages
    followed by an optional exception, fixed when the iteration starts.  The
    text of [str(e)] for an [HTTPException] depends on the framework's
    version and is a parameter of [Env].  What the store accepts as the text
    of a timestamp beyond the format [isoformat] writes.  Named time zones
    with daylight saving and the parsing of a [Date] header are the mail
    library's: a message arrives with its date already parsed.
    Interleavings finer than the store operations: between two of them a
    worker touches only its own session, so nothing another worker does
    can be observed there.  The collaborators answer each worker
    independently of the others: a clock or a mailbox that one worker's
    calls would change for another is outside [Workers], as are
    transactions, which the source does not use.  A connection is followed
    by the commands sent on it: the socket, and its collection by the
    interpreter when the [MailBox] object is dropped, are not modelled.  A
    completion whose [message.content] is empty, which the API sends only
    for requests that declare tools, is not modelled: the content of a
    choice is a text. *)

From stdpp Require Export base tactics option list numbers strings.
From Stdlib Require Export ZArith Lia.

(** ** Outcomes: a value or a raised exception *)

Inductive outcome (E A : Type) : Type :=
| Ok (a : A)
| Raise (e : E).
Arguments Ok {E A} a.
Arguments Raise {E A} e.

(** Sequencing of outcomes: the first exception wins. *)
Definition obind {E A B} (o : outcome E A) (k : A → outcome E B) : outcome E B :=
  match o with Ok a => k a | Raise e => Raise e end.

#[export] Instance outcome_eq_dec `{EqDecision E, EqDecision A} :
  EqDecision (outcome E A).
Proof. solve_decision. Defined.

(** ** The state-and-exception monad

    [M S E A] is a computation over a state [S] that returns an [A] or raises
    an [E].  The state after a raise is kept: what a Python function did
    before it raised stays done. *)

Definition M (S E A : Type) : Type := S → outcome E A * S.

Definition ret {S E A} (a : A) : M S E A := λ s, (Ok a, s).

Definition bind {S E A B} (c : M S E A) (k : A → M S E B) : M S E B :=
  λ s, match c s with
       | (Ok a, s') => k a s'
       | (Raise e, s') => (Raise e, s')
       end.

Definition raise {S E A} (e : E) : M S E A := λ s, (Raise e, s).

Definition gets {S E A} (f : S → A) : M S E A := λ s, (Ok (f s), s).

Definition modify {S E} (f : S → S) : M S E unit := λ s, (Ok tt, f s).

(** [lift o]: evaluate something that has already succeeded or failed, such
    as the access to an attribute of a parsed message. *)
Definition lift {S E A} (o : outcome E A) : M S E A := λ s, (o, s).

(** [try: c  except Exception as e: h e] *)
Definition try_except {S E A} (c : M S E A) (h : E → M S E A) : M S E A :=
  λ s, match c s with
       | (Ok a, s') => (Ok a, s')
       | (Raise e, s') => h e s'
       end.

(** [try: c  finally: f], and [with ctx: c] when [f] is the [__exit__] of
    [ctx]: [f] runs on both paths, and an exception it raises replaces the
    outcome of [c]. *)
Definition finally {S E A} (c : M S E A) (f : M S E unit) : M S E A :=
  λ s, let '(o, s') := c s in
       match f s' with
       | (Ok _, s'') => (o, s'')
       | (Raise e, s'') => (Raise e, s'')
       end.

Declare Scope py_scope.
Delimit Scope py_scope with py.
Notation "x <- c ;; k" := (bind c (λ x, k))
  (at level 100, c at next level, k at level 200, right associativity) : py_scope.
Notation "c ;; k" := (bind c (λ _, k))
  (at level 100, k at level 200, right associativity) : py_scope.
Notation "x <-? o ;; k" := (obind o (λ x, k))
  (at level 100, o at next level, k at level 200, right associativity) : py_scope.
Local Open Scope py_scope.

(** [for x in xs: acc = body acc x], the value of [acc] after the loop. *)
Fixpoint for_fold {S E A B} (xs : list A) (acc : B) (body : B → A → M S E B)
  : M S E B :=
  match xs with
  | [] => ret acc
  | x :: xs' => acc' <- body acc x ;; for_fold xs' acc' body
  end.

(** ** Weakest preconditions

    [wp c Q R s]: run from [s], [c] ends with a value and a state that satisfy
    [Q], or with an exception and a state that satisfy [R]. *)

Definition wp {S E A} (c : M S E A) (Q : A → S → Prop) (R : E → S → Prop)
  (s : S) : Prop :=
  match c s with
  | (Ok a, s') => Q a s'
  | (Raise e, s') => R e s'
  end.

Create HintDb py discriminated.
Create Rewrite HintDb wp.
Create Rewrite HintDb py.

Section monad_laws.
Context {S E : Type}.
Implicit Types s : S.

Lemma bind_ret_l {A B} (a : A) (k : A → M S E B) s :
  bind (ret a) k s = k a s.
Proof. done. Qed.

Lemma bind_ret_r {A} (c : M S E A) s : bind c ret s = c s.
Proof. unfold bind, ret. by destruct (c s) as [[]]. Qed.

Lemma bind_assoc {A B C} (c : M S E A) (k : A → M S E B)
    (k' : B → M S E C) s :
  bind (bind c k) k' s = bind c (λ a, bind (k a) k') s.
Proof. unfold bind. by destruct (c s) as [[]]. Qed.

Lemma bind_raise {A B} (e : E) (k : A → M S E B) s :
  bind (raise e) k s = (Raise e, s).
Proof. done. Qed.

Lemma try_except_ret {A} (a : A) (h : E → M S E A) s :
  try_except (ret a) h s = (Ok a, s).
Proof. done. Qed.

Lemma try_except_raise {A} (e : E) (h : E → M S E A) s :
  try_except (raise e) h s = h e s.
Proof. done. Qed.

Lemma for_fold_app {A B} (xs ys : list A) (acc : B) (body : B → A → M S E B) s :
  for_fold (xs ++ ys) acc body s
  = bind (for_fold xs acc body) (λ acc', for_fold ys acc' body) s.
Proof.
  revert acc s. induction xs as [|x xs IH]; intros acc s; simpl.
  - done.
  - rewrite bind_assoc. unfold bind at 1 2.
    destruct (body acc x s) as [[acc'|e] s']; [apply IH|done].
Qed.

(** A run is determined by its two possible shapes. *)
Lemma run_cases {A} (c : M S E A) s :
  (∃ a s', c s = (Ok a, s')) ∨ (∃ e s', c s = (Raise e, s')).
Proof. destruct (c s) as [[a|e] s']; eauto. Qed.
End monad_laws.

Section wp_rules.
Context {S E : Type}.
Implicit Types s : S.

Lemma wp_ret {A} (a : A) (Q : A → S → Prop) (R : E → S → Prop) s :
  wp (ret a) Q R s ↔ Q a s.
Proof. done. Qed.

Lemma wp_raise {A} (e : E) (Q : A → S → Prop) (R : E → S → Prop) s :
  wp (raise e) Q R s ↔ R e s.
Proof. done. Qed.

Lemma wp_gets {A} (f : S → A) Q (R : E → S → Prop) s :
  wp (gets f) Q R s ↔ Q (f s) s.
Proof. done. Qed.

Lemma wp_modify (f : S → S) Q (R : E → S → Prop) s :
  wp (modify f) Q R s ↔ Q tt (f s).
Proof. done. Qed.

Lemma wp_lift {A} (o : outcome E A) Q (R : E → S → Prop) s :
  wp (lift o) Q R s ↔ match o with Ok a => Q a s | Raise e => R e s end.
Proof. by destruct o. Qed.

Lemma wp_bind {A B} (c : M S E A) (k : A → M S E B) Q R s :
  wp (bind c k) Q R s ↔ wp c (λ a, wp (k a) Q R) R s.
Proof. unfold wp, bind. by destruct (c s) as [[]]. Qed.

Lemma wp_try_except {A} (c : M S E A) (h : E → M S E A) Q R s :
  wp (try_except c h) Q R s ↔ wp c Q (λ e, wp (h e) Q R) s.
Proof. unfold wp, try_except. by destruct (c s) as [[]]. Qed.

Lemma wp_finally {A} (c : M S E A) (f : M S E unit) Q R s :
  wp (finally c f) Q R s
  ↔ wp c (λ a, wp f (λ _, Q a) R) (λ e, wp f (λ _, R e) R) s.
Proof.
  unfold wp, finally. destruct (c s) as [[a|e] s']; by destruct (f s') as [[]].
Qed.

Lemma wp_mono {A} (c : M S E A) (Q Q' : A → S → Prop) (R R' : E → S → Prop) s :
  wp c Q R s →
  (∀ a s', Q a s' → Q' a s') →
  (∀ e s', R e s' → R' e s') →
  wp c Q' R' s.
Proof. unfold wp. destruct (c s) as [[]]; eauto. Qed.

Lemma wp_conj {A} (c : M S E A) (Q Q' : A → S → Prop) (R R' : E → S → Prop) s :
  wp c Q R s → wp c Q' R' s →
  wp c (λ a s', Q a s' ∧ Q' a s') (λ e s', R e s' ∧ R' e s') s.
Proof. unfold wp. by destruct (c s) as [[]]. Qed.

(** Reading a [wp] back as a statement about the run. *)
Lemma wp_run {A} (c : M S E A) Q R s :
  wp c Q R s ↔
  (∀ a s', c s = (Ok a, s') → Q a s') ∧ (∀ e s', c s = (Raise e, s') → R e s').
Proof.
  unfold wp. destruct (c s) as [[a|e] s']; split.
  - intros HQ. split; intros ? ? [= <- <-]; done.
  - intros [HQ _]. by apply HQ.
  - intros HR. split; intros ? ? [= <- <-]; done.
  - intros [_ HR]. by apply HR.
Qed.

Lemma wp_ok {A} (c : M S E A) Q R s a s' :
  wp c Q R s → c s = (Ok a, s') → Q a s'.
Proof. unfold wp. intros H Hrun. by rewrite Hrun in H. Qed.

Lemma wp_err {A} (c : M S E A) Q R s e s' :
  wp c Q R s → c s = (Raise e, s') → R e s'.
Proof. unfold wp. intros H Hrun. by rewrite Hrun in H. Qed.

(** A computation that cannot raise: its exceptional postcondition is
    [False]. *)
Lemma wp_total {A} (c : M S E A) Q s :
  wp c Q (λ _ _, False) s → ∃ a s', c s = (Ok a, s') ∧ Q a s'.
Proof. unfold wp. destruct (c s) as [[a|e] s']; naive_solver. Qed.

(** The loop rule: [I pre acc s] holds after the elements [pre] have been
    processed with accumulator [acc]. *)
Lemma wp_for_fold {A B} (I : list A → B → S → Prop) (R : E → S → Prop)
    (xs : list A) (acc : B) (body : B → A → M S E B) s :
  I [] acc s →
  (∀ pre x post acc s, xs = pre ++ x :: post → I pre acc s →
     wp (body acc x) (λ acc' s', I (pre ++ [x]) acc' s') R s) →
  wp (for_fold xs acc body) (λ acc' s', I xs acc' s') R s.
Proof.
  intros Hnil Hbody.
  enough (∀ post pre acc s, xs = pre ++ post → I pre acc s →
    wp (for_fold post acc body) (λ acc' s', I xs acc' s') R s) as Hgen
    by (by apply (Hgen xs [])).
  induction post as [|x post IH]; intros pre acc0 s0 -> HI; simpl.
  - by rewrite app_nil_r.
  - apply wp_bind. eapply wp_mono; [by eapply Hbody| |done].
    intros acc' s' HI'. apply (IH (pre ++ [x])); [|done].
    by rewrite <-app_assoc.
Qed.
End wp_rules.

(** ** Invariants

    [preserves P c]: from a state that satisfies [P], [c] ends in a state
    that satisfies [P], whether it returns or raises. *)

Definition preserves {S E A} (P : S → Prop) (c : M S E A) : Prop :=
  ∀ s, P s → wp c (λ _, P) (λ _, P) s.

Section preserves_rules.
Context {S E : Type} (P : S → Prop).

Lemma preserves_ret {A} (a : A) : preserves P (ret a : M S E A).
Proof. by intros s. Qed.

Lemma preserves_raise {A} (e : E) : preserves P (raise e : M S E A).
Proof. by intros s. Qed.

Lemma preserves_lift {A} (o : outcome E A) : preserves P (lift o : M S E A).
Proof. intros s Hs. apply wp_lift. by destruct o. Qed.

Lemma preserves_gets {A} (f : S → A) : preserves P (gets f : M S E A).
Proof. by intros s. Qed.

Lemma preserves_modify (f : S → S) :
  (∀ s, P s → P (f s)) → preserves P (modify f : M S E unit).
Proof. intros Hf s Hs. by apply Hf. Qed.

Lemma preserves_bind {A B} (c : M S E A) (k : A → M S E B) :
  preserves P c → (∀ a, preserves P (k a)) → preserves P (bind c k).
Proof.
  intros Hc Hk s Hs. apply wp_bind. eapply wp_mono; [by apply Hc| |done].
  intros a s' Hs'. by apply Hk.
Qed.

Lemma preserves_try_except {A} (c : M S E A) (h : E → M S E A) :
  preserves P c → (∀ e, preserves P (h e)) → preserves P (try_except c h).
Proof.
  intros Hc Hh s Hs. apply wp_try_except. eapply wp_mono; [by apply Hc|done|].
  intros e s' Hs'. by apply Hh.
Qed.

Lemma preserves_finally {A} (c : M S E A) (f : M S E unit) :
  preserves P c → preserves P f → preserves P (finally c f).
Proof.
  intros Hc Hf s Hs. apply wp_finally.
  eapply wp_mono; [by apply Hc|..]; intros ? s' Hs'; by apply Hf.
Qed.

Lemma preserves_for_fold {A B} (xs : list A) (acc : B) (body : B → A → M S E B) :
  (∀ acc x, preserves P (body acc x)) → preserves P (for_fold xs acc body).
Proof.
  intros Hbody s Hs.
  apply (wp_for_fold (λ _ _, P)); [done|]. intros. by apply Hbody.
Qed.

(** The state a run ends in. *)
Lemma preserves_run {A} (c : M S E A) s : preserves P c → P s → P (c s).2.
Proof. intros Hc Hs. specialize (Hc s Hs). unfold wp in Hc. by destruct (c s) as [[]]. Qed.
End preserves_rules.

#[export] Hint Resolve preserves_ret preserves_raise preserves_lift
  preserves_gets preserves_bind preserves_try_except preserves_finally
  preserves_for_fold : py.

(** [preserves_auto]: decompose a handler into its primitive actions, leaving
    the facts the hints of [py] do not prove. *)
Ltac preserves_auto :=
  repeat first
    [ progress intros
    | solve [eauto 2 with py]
    | apply preserves_bind | apply preserves_try_except
    | apply preserves_finally | apply preserves_for_fold
    | case_match ].

(** ** Relating two runs

    [sim R c1 c2]: started in states related by [R], the programs [c1] and
    [c2] end with the same outcome in states related by [R].  With [c1 = c2]
    it says that [c] does not observe what [R] ignores. *)

Definition sim {S E A} (R : relation S) (c1 c2 : M S E A) : Prop :=
  ∀ s1 s2, R s1 s2 → (c1 s1).1 = (c2 s2).1 ∧ R (c1 s1).2 (c2 s2).2.

Section sim_rules.
Context {S E : Type} (R : relation S).

Lemma sim_ret {A} (a : A) : sim R (ret a : M S E A) (ret a).
Proof. by intros s1 s2. Qed.

Lemma sim_raise {A} (e : E) : sim R (raise e : M S E A) (raise e).
Proof. by intros s1 s2. Qed.

Lemma sim_lift {A} (o : outcome E A) : sim R (lift o : M S E A) (lift o).
Proof. by intros s1 s2. Qed.

Lemma sim_gets {A} (f : S → A) :
  (∀ s1 s2, R s1 s2 → f s1 = f s2) → sim R (gets f : M S E A) (gets f).
Proof. intros Hf s1 s2 HR. simpl. by rewrite (Hf s1 s2). Qed.

Lemma sim_modify (f1 f2 : S → S) :
  (∀ s1 s2, R s1 s2 → R (f1 s1) (f2 s2)) →
  sim R (modify f1 : M S E unit) (modify f2).
Proof. intros Hf s1 s2 HR. split; [done|by apply Hf]. Qed.

Lemma sim_bind {A B} (c1 c2 : M S E A) (k1 k2 : A → M S E B) :
  sim R c1 c2 → (∀ a, sim R (k1 a) (k2 a)) → sim R (bind c1 k1) (bind c2 k2).
Proof.
  intros Hc Hk s1 s2 [Ho HR]%Hc. unfold bind.
  destruct (c1 s1) as [o1 s1'], (c2 s2) as [o2 s2']. simpl in *. subst o2.
  destruct o1; [by apply Hk|done].
Qed.

Lemma sim_try_except {A} (c1 c2 : M S E A) (h1 h2 : E → M S E A) :
  sim R c1 c2 → (∀ e, sim R (h1 e) (h2 e)) →
  sim R (try_except c1 h1) (try_except c2 h2).
Proof.
  intros Hc Hh s1 s2 [Ho HR]%Hc. unfold try_except.
  destruct (c1 s1) as [o1 s1'], (c2 s2) as [o2 s2']. simpl in *. subst o2.
  destruct o1; [done|by apply Hh].
Qed.

Lemma sim_finally {A} (c1 c2 : M S E A) (f1 f2 : M S E unit) :
  sim R c1 c2 → sim R f1 f2 → sim R (finally c1 f1) (finally c2 f2).
Proof.
  intros Hc Hf s1 s2 [Ho HR]%Hc. unfold finally.
  destruct (c1 s1) as [o1 s1'], (c2 s2) as [o2 s2']. simpl in *. subst o2.
  apply Hf in HR as [Ho HR].
  destruct (f1 s1') as [u1 t1], (f2 s2') as [u2 t2]. simpl in *. subst u2.
  by destruct u1.
Qed.

Lemma sim_for_fold {A B} (xs : list A) (acc : B) (body1 body2 : B → A → M S E B) :
  (∀ acc x, sim R (body1 acc x) (body2 acc x)) →
  sim R (for_fold xs acc body1) (for_fold xs acc body2).
Proof.
  intros Hbody. revert acc.
  induction xs as [|x xs IH]; intros acc; [apply sim_ret|].
  cbn [for_fold]. by apply sim_bind.
Qed.
End sim_rules.

#[export] Hint Resolve sim_ret sim_raise sim_lift : py.

(** [sim_auto]: decompose the two handlers in step, leaving the facts the
    hints of [py] do not prove. *)
Ltac sim_auto :=
  repeat first
    [ progress intros
    | solve [eauto 2 with py]
    | apply sim_bind | apply sim_try_except
    | apply sim_finally | apply sim_for_fold
    | case_match ].

#[export] Hint Rewrite @wp_ret @wp_raise @wp_gets @wp_modify @wp_lift
  @wp_bind @wp_try_except @wp_finally : wp.
#[export] Hint Rewrite @bind_ret_l @bind_raise @try_except_ret
  @try_except_raise : py.

(** ** Progress of a measure

    [advances μ c k]: a run of [c] never decreases the measure [μ] of the
    state and increases it by at most [k], whether it returns or raises.
    With [μ] the count of interactions with the outside, [k] bounds what a
    run can cost. *)

Definition advances {S E A} (μ : S → nat) (c : M S E A) (k : nat) : Prop :=
  ∀ s, μ s ≤ μ (c s).2 ≤ μ s + k.

Section advances_rules.
Context {S E : Type} (μ : S → nat).

Lemma advances_mono {A} (c : M S E A) k k' :
  advances μ c k → k ≤ k' → advances μ c k'.
Proof. intros Hc Hk s. specialize (Hc s). lia. Qed.

Lemma advances_ret {A} (a : A) : advances μ (ret a : M S E A) 0.
Proof. intros s. simpl. lia. Qed.

Lemma advances_raise {A} (e : E) : advances μ (raise e : M S E A) 0.
Proof. intros s. simpl. lia. Qed.

Lemma advances_lift {A} (o : outcome E A) : advances μ (lift o : M S E A) 0.
Proof. intros s. simpl. lia. Qed.

Lemma advances_gets {A} (f : S → A) : advances μ (gets f : M S E A) 0.
Proof. intros s. simpl. lia. Qed.

Lemma advances_modify (f : S → S) k :
  (∀ s, μ s ≤ μ (f s) ≤ μ s + k) → advances μ (modify f : M S E unit) k.
Proof. intros Hf s. apply Hf. Qed.

Lemma advances_bind {A B} (c : M S E A) (f : A → M S E B) k1 k2 :
  advances μ c k1 → (∀ a, advances μ (f a) k2) → advances μ (bind c f) (k1 + k2).
Proof.
  intros Hc Hf s. specialize (Hc s). unfold bind.
  destruct (c s) as [[a|e] s']; simpl in *; [specialize (Hf a s')|]; lia.
Qed.

Lemma advances_try_except {A} (c : M S E A) (h : E → M S E A) k1 k2 :
  advances μ c k1 → (∀ e, advances μ (h e) k2) →
  advances μ (try_except c h) (k1 + k2).
Proof.
  intros Hc Hh s. specialize (Hc s). unfold try_except.
  destruct (c s) as [[a|e] s']; simpl in *; [|specialize (Hh e s')]; lia.
Qed.

Lemma advances_finally {A} (c : M S E A) (f : M S E unit) k1 k2 :
  advances μ c k1 → advances μ f k2 → advances μ (finally c f) (k1 + k2).
Proof.
  intros Hc Hf s. specialize (Hc s). unfold finally.
  destruct (c s) as [o s']. specialize (Hf s').
  destruct (f s') as [[[]|e] s'']; destruct o; simpl in *; lia.
Qed.

(** A loop costs at most the cost of its body, once per element. *)
Lemma advances_for_fold {A B} (xs : list A) (acc : B) (body : B → A → M S E B) k :
  (∀ acc x, advances μ (body acc x) k) →
  advances μ (for_fold xs acc body) (length xs * k).
Proof.
  intros Hb. revert acc. induction xs as [|x xs IH]; intros acc;
    [apply advances_ret|].
  cbn [for_fold length]. eapply advances_mono;
    [by apply advances_bind|lia].
Qed.
End advances_rules.

(** ** Tactics *)

(** [wp_simpl]: push [wp] through the monad operations until it reaches a
    primitive action or a loop. *)
Ltac wp_simpl := repeat (autorewrite with wp; simpl).

(** [run_inv H]: [H : c s = (o, s')] where [c] is built from [ret], [bind],
    [raise]; turn it into equations on the components. *)
Ltac run_inv H :=
  unfold ret, raise, gets, modify, lift in H; simpl in H; simplify_eq.

(** ** Generic facts on lists and options shared by the components *)

Lemma Forall_snoc {A} (P : A → Prop) (l : list A) (x : A) :
  Forall P l → P x → Forall P (l ++ [x]).
Proof. intros. apply Forall_app. by repeat constructor. Qed.

Lemma length_snoc {A} (l : list A) (x : A) : length (l ++ [x]) = 1 + length l.
Proof. rewrite length_app. simpl. lia. Qed.

(** What follows a prefix. *)
Lemma prefix_drop {A} (l1 l2 : list A) :
  l1 `prefix_of` l2 → l2 = l1 ++ drop (length l1) l2.
Proof. intros [k ->]. by rewrite drop_app_length. Qed.

(** Two concatenations that agree piece by piece under [f]. *)
Lemma fmap_join_ext {A B C} (f : B → C) (g1 g2 : A → list B) (l : list A) :
  Forall (λ i, f <$> g1 i = f <$> g2 i) l →
  f <$> mjoin (g1 <$> l) = f <$> mjoin (g2 <$> l).
Proof. induction 1 as [|i l Hi _ IH]; [done|]. csimpl. by rewrite !fmap_app, Hi, IH. Qed.

#[export] Hint Resolve Forall_snoc Forall_nil_2 : py.
#[export] Hint Rewrite @length_snoc @length_app @app_nil_r : py.
