(* ===== verification/PyStr.v ===== *)
(** * Python string operations used by [src/app/main.py]

    A [str] is a [string].  This file defines the operations the source
    applies to strings: the slice [s[:n]], [sep.join(xs)], truthiness (the
    empty string is false, so [a or b] is [b] exactly when [a] is empty),
    decimal rendering of integers in f-strings and zero padding, with the
    lemmas on lengths and prefixes the components use. *)

From S2P Require Import Prelude.
From stdpp Require Import pretty.
From Stdlib Require Import Ascii.

(** The line feed [\n] of a string literal. *)
Definition nl : string := String "010"%char "".

(** ** Slices and concatenation *)

(** [s[:n]]: the first [n] characters, the whole string when it is shorter. *)
Fixpoint str_take (n : nat) (s : string) : string :=
  match n, s with
  | 0, _ => ""
  | _, EmptyString => ""
  | S n', String c s' => String c (str_take n' s')
  end.

(** [s[n:]]: what remains after the first [n] characters. *)
Fixpoint str_drop (n : nat) (s : string) : string :=
  match n, s with
  | 0, _ => s
  | _, EmptyString => ""
  | S n', String _ s' => str_drop n' s'
  end.

(** [sep.join(xs)] *)
Fixpoint str_join (sep : string) (xs : list string) : string :=
  match xs with
  | [] => ""
  | [x] => x
  | x :: xs' => x +:+ sep +:+ str_join sep xs'
  end.

(** [bool(s)] for a string. *)
Definition str_truthy (s : string) : bool :=
  match s with EmptyString => false | String _ _ => true end.

(** [str(n)] and [{n}] in an f-string, for an integer. *)
Definition str_of_nat (n : nat) : string := pretty n.

(** [c * n]: the character [c] repeated [n] times. *)
Fixpoint str_repeat (c : ascii) (n : nat) : string :=
  match n with 0 => "" | S n' => String c (str_repeat c n') end.

(** [f"{z:0{w}d}"] for a natural number: decimal digits, padded on the left
    with zeros to at least [w] characters. *)
Definition zero_pad (w : nat) (z : Z) : string :=
  let d := pretty (Z.to_N z) in
  str_repeat "0"%char (w - String.length d) +:+ d.

(** ** Lemmas *)

Section str_lemmas.
Implicit Types s t : string.

Lemma str_app_nil_r s : s +:+ "" = s.
Proof. induction s; simpl; unfold String.append in *; simpl; congruence. Qed.

Lemma str_app_nil_l s : "" +:+ s = s.
Proof. done. Qed.

Lemma str_app_cons c s t : String c s +:+ t = String c (s +:+ t).
Proof. done. Qed.

Lemma str_app_assoc s t u : (s +:+ t) +:+ u = s +:+ (t +:+ u).
Proof.
  induction s as [|c s IH]; [done|].
  unfold String.append in *. simpl. fold String.append in *. by rewrite IH.
Qed.

Lemma str_length_app s t :
  String.length (s +:+ t) = String.length s + String.length t.
Proof.
  induction s as [|c s IH]; [done|].
  unfold String.append. simpl. fold String.append. by rewrite IH.
Qed.

Lemma str_app_inv_head s t u : s +:+ t = s +:+ u → t = u.
Proof.
  induction s as [|c s IH]; [done|].
  unfold String.append. simpl. fold String.append. intros [=]. auto.
Qed.

Lemma str_take_length n s :
  String.length (str_take n s) = n `min` String.length s.
Proof.
  revert s. induction n as [|n IH]; intros [|c s]; simpl; auto.
Qed.

Lemma str_take_le n s : String.length (str_take n s) ≤ n.
Proof. rewrite str_take_length. lia. Qed.

Lemma str_take_all n s : String.length s ≤ n → str_take n s = s.
Proof.
  revert s. induction n as [|n IH]; intros [|c s]; simpl; intros Hle;
    try done; [lia|]. f_equal. apply IH. lia.
Qed.

Lemma str_take_drop n s : str_take n s +:+ str_drop n s = s.
Proof.
  revert s. induction n as [|n IH]; intros [|c s]; try done.
  simpl. unfold String.append. simpl. fold String.append. by rewrite IH.
Qed.

(** The slice ignores what follows its [n] characters. *)
Lemma str_take_app n s t :
  n ≤ String.length s → str_take n (s +:+ t) = str_take n s.
Proof.
  revert s. induction n as [|n IH]; intros [|c s]; simpl; intros Hle;
    try done; [lia|].
  unfold String.append. simpl. fold String.append. f_equal. apply IH. lia.
Qed.

Lemma str_take_idemp n s : str_take n (str_take n s) = str_take n s.
Proof. apply str_take_all, str_take_le. Qed.

Lemma str_repeat_snoc c n : str_repeat c n +:+ String c "" = str_repeat c (S n).
Proof.
  induction n as [|n IH]; [done|].
  cbn [str_repeat]. by rewrite str_app_cons, IH.
Qed.

Lemma str_truthy_spec s : str_truthy s = true ↔ s ≠ "".
Proof. by destruct s. Qed.

Lemma str_of_nat_inj : Inj (=) (=) str_of_nat.
Proof. apply _. Qed.
End str_lemmas.

#[export] Hint Rewrite str_length_app str_take_length : py.
#[export] Hint Resolve str_take_le : py.
