(* ===== verification/PyVal.v ===== *)
(** * Python values and exceptions

    [pyval] is the JSON-like fragment of Python values that the handlers of
    [src/app/main.py] return and put in the [detail] of an [HTTPException]:
    [None], booleans, integers, strings, lists and dictionaries with string
    keys, a dictionary being the list of its items in insertion order.

    [exn] is what a [try] block of the source can catch.  The handlers tell
    exceptions apart in one way only, [isinstance(e, HTTPException)]
    (line 211), and read them in one way only, [str(e)]; so an exception is
    either an [HTTPException] with its status and detail or any other
    [Exception] with the text [str(e)] returns. *)

From S2P Require Import Prelude PyStr.

#[local] Unset Elimination Schemes.
Inductive pyval : Type :=
| PNone
| PBool (b : bool)
| PInt (z : Z)
| PStr (s : string)
| PList (l : list pyval)
| PDict (items : list (string * pyval)).
#[local] Set Elimination Schemes.

(** [d[k]] as [d.get(k)]: the first item with key [k]. *)
Fixpoint assoc_get {A} (k : string) (items : list (string * A)) : option A :=
  match items with
  | [] => None
  | (k', v) :: rest => if decide (k' = k) then Some v else assoc_get k rest
  end.

Definition py_get (k : string) (v : pyval) : option pyval :=
  match v with
  | PDict items => assoc_get k items
  | _ => None
  end.

Definition py_strs (l : list string) : pyval := PList (PStr <$> l).

(** ** Exceptions *)

Inductive exn : Type :=
| Exception (msg : string)
| HTTPException (status_code : Z) (detail : pyval).

(** [isinstance(e, HTTPException)] *)
Definition is_HTTPException (e : exn) : bool :=
  match e with
  | HTTPException _ _ => true
  | Exception _ => false
  end.

(** [str(e)].  The text of an [HTTPException] is chosen by the web
    framework, so it is a parameter [http_str]. *)
Definition exn_str (http_str : Z → pyval → string) (e : exn) : string :=
  match e with
  | Exception msg => msg
  | HTTPException c d => http_str c d
  end.

Section pyval_lemmas.
Lemma assoc_get_app {A} k (l1 l2 : list (string * A)) :
  assoc_get k (l1 ++ l2)
  = match assoc_get k l1 with Some v => Some v | None => assoc_get k l2 end.
Proof.
  induction l1 as [|[k' v] l1 IH]; simpl; [done|]. by case_decide.
Qed.

Lemma assoc_get_None {A} k (l : list (string * A)) :
  assoc_get k l = None ↔ k ∉ l.*1.
Proof.
  induction l as [|[k' v] l IH]; simpl.
  - split; [intros _; apply not_elem_of_nil|done].
  - rewrite not_elem_of_cons, <-IH. case_decide; intuition congruence.
Qed.

End pyval_lemmas.
