(* ===== verification/DateTime.v ===== *)
(** * [datetime] values

    The source computes with [datetime] in five ways: it reads the clock
    ([datetime.now(utc)], lines 112 and 142), subtracts a day
    ([- timedelta(days=1)], line 112), takes the calendar day ([.date()],
    line 123), overwrites the time zone of a message date
    ([.replace(tzinfo=utc)], line 131), compares two aware values
    ([>=], line 135) and prints one ([.isoformat()], lines 140 and 142).

    A [datetime] is modelled by the number of microseconds its calendar
    fields ([year] ... [microsecond]) are after 0001-01-01T00:00:00, the
    _wall clock_ [wall], and its [tzinfo]: [None] for a naive value,
    [Some off] for an aware one whose UTC offset is [off] microseconds.  The
    point in time an aware value denotes is [instant d = wall d - off].
    Calendar fields are recovered from [wall] by [ord2ymd], the algorithm of
    CPython's [datetime] module, for printing.  The last section proves
    that [ord2ymd] inverts [ymd2ord] and returns valid dates. *)

From S2P Require Import Prelude PyStr PyVal.

Local Open Scope Z_scope.

Definition US_PER_SECOND : Z := 1000000.
Definition US_PER_MINUTE : Z := 60 * US_PER_SECOND.
Definition US_PER_HOUR : Z := 60 * US_PER_MINUTE.
Definition US_PER_DAY : Z := 24 * US_PER_HOUR.

(** [date.max.toordinal()]: the number of days from 0001-01-01 to
    9999-12-31, both included. *)
Definition MAXORDINAL : Z := 3652059.

Record datetime : Type := mk_datetime {
  wall : Z;
  tzinfo : option Z;
}.

#[export] Instance datetime_eq_dec : EqDecision datetime.
Proof. solve_decision. Defined.

(** [pytz.UTC]: offset zero. *)
Definition utc : Z := 0.

(** [timedelta(days=n)], in microseconds. *)
Definition timedelta_days (n : Z) : Z := n * US_PER_DAY.

(** The values a [datetime] can hold: years 1 to 9999. *)
Definition in_range (w : Z) : bool :=
  bool_decide (0 ≤ w < MAXORDINAL * US_PER_DAY).

(** [datetime.now(tz)] when the clock reads [t] microseconds after
    0001-01-01T00:00:00 UTC. *)
Definition now (tz : Z) (t : Z) : datetime :=
  {| wall := t + tz; tzinfo := Some tz |}.

(** [d - delta]; Python raises [OverflowError] outside years 1 to 9999. *)
Definition dt_sub (d : datetime) (delta : Z) : outcome exn datetime :=
  if in_range (wall d - delta)
  then Ok {| wall := wall d - delta; tzinfo := tzinfo d |}
  else Raise (Exception "date value out of range").

(** [d.replace(tzinfo=tz)]: the calendar fields are kept, the zone is
    overwritten; nothing is converted. *)
Definition replace_tzinfo (d : datetime) (tz : Z) : datetime :=
  {| wall := wall d; tzinfo := Some tz |}.

(** [d.date()], as the number of whole days since 0001-01-01. *)
Definition dt_date (d : datetime) : Z := wall d / US_PER_DAY.

(** The point in time of an aware value, in microseconds of UTC. *)
Definition instant (d : datetime) : Z := wall d - default 0 (tzinfo d).

(** [a >= b].  Two aware values compare by instant, two naive ones by
    fields, and a mixed comparison raises [TypeError]. *)
Definition dt_ge (a b : datetime) : outcome exn bool :=
  match tzinfo a, tzinfo b with
  | Some oa, Some ob => Ok (bool_decide (wall b - ob ≤ wall a - oa))
  | None, None => Ok (bool_decide (wall b ≤ wall a))
  | _, _ =>
      Raise (Exception "can't compare offset-naive and offset-aware datetimes")
  end.

(** ** The proleptic Gregorian calendar, as in CPython's [datetime.py] *)

Definition is_leap (y : Z) : bool :=
  (y mod 4 =? 0) && (negb (y mod 100 =? 0) || (y mod 400 =? 0)).

(** Days before January 1st of year [y]. *)
Definition days_before_year (y : Z) : Z :=
  let y' := y - 1 in y' * 365 + y' / 4 - y' / 100 + y' / 400.

Definition days_in_month (y m : Z) : Z :=
  if m =? 2 then (if is_leap y then 29 else 28)
  else if (m =? 4) || (m =? 6) || (m =? 9) || (m =? 11) then 30
  else 31.

(** [_DAYS_BEFORE_MONTH[m]], for a common year. *)
Definition DAYS_BEFORE_MONTH (m : Z) : Z :=
  match m with
  | 1 => 0 | 2 => 31 | 3 => 59 | 4 => 90 | 5 => 120 | 6 => 151
  | 7 => 181 | 8 => 212 | 9 => 243 | 10 => 273 | 11 => 304 | 12 => 334
  | _ => 0
  end.

Definition days_before_month (y m : Z) : Z :=
  DAYS_BEFORE_MONTH m + (if (2 <? m) && is_leap y then 1 else 0).

(** [_ymd2ord]: the ordinal of a date, 0001-01-01 being day 1. *)
Definition ymd2ord (y m d : Z) : Z :=
  days_before_year y + days_before_month y m + d.

Definition DI400Y : Z := 146097.
Definition DI100Y : Z := 36524.
Definition DI4Y : Z := 1461.

(** The end of [_ord2ymd]: month and day of day [n] of a year, counted from
    0, by an estimate of the month that is exact or one too large. *)
Definition month_day (leapyear : bool) (n : Z) : Z * Z :=
  let month := (n + 50) / 32 in
  let preceding :=
    DAYS_BEFORE_MONTH month + (if (2 <? month) && leapyear then 1 else 0) in
  if n <? preceding
  then
    let month' := month - 1 in
    let dim :=
      if month' =? 2 then (if leapyear then 29 else 28)
      else days_in_month 1 month' in
    (month', n - (preceding - dim) + 1)
  else (month, n - preceding + 1).

(** [_ord2ymd]: year, month and day of an ordinal. *)
Definition ord2ymd (ordinal : Z) : Z * Z * Z :=
  let n := ordinal - 1 in
  let n400 := n / DI400Y in
  let n := n mod DI400Y in
  let n100 := n / DI100Y in
  let n := n mod DI100Y in
  let n4 := n / DI4Y in
  let n := n mod DI4Y in
  let n1 := n / 365 in
  let n := n mod 365 in
  let year := n400 * 400 + 1 + n100 * 100 + n4 * 4 + n1 in
  if (n1 =? 4) || (n100 =? 4) then (year - 1, 12, 31)
  else
    let leapyear := (n1 =? 3) && (negb (n4 =? 24) || (n100 =? 3)) in
    let '(month, day) := month_day leapyear n in
    (year, month, day).

(** [d.year], [d.month], [d.day] *)
Definition date_fields (d : datetime) : Z * Z * Z := ord2ymd (dt_date d + 1).

(** ** Printing *)

(** [_format_offset]: [+HH:MM], with seconds and microseconds only when they
    are not zero; empty for a naive value. *)
Definition format_offset (tz : option Z) : string :=
  match tz with
  | None => ""
  | Some off =>
      let a := Z.abs off in
      let ss := a mod US_PER_MINUTE in
      (if off <? 0 then "-" else "+")
      +:+ zero_pad 2 (a / US_PER_HOUR) +:+ ":"
      +:+ zero_pad 2 (a mod US_PER_HOUR / US_PER_MINUTE)
      +:+ (if ss =? 0 then ""
           else ":" +:+ zero_pad 2 (ss / US_PER_SECOND)
                +:+ (if ss mod US_PER_SECOND =? 0 then ""
                     else "." +:+ zero_pad 6 (ss mod US_PER_SECOND)))
  end.

(** [d.isoformat(sep)]: [YYYY-MM-DD], [sep], [HH:MM:SS], then [.ffffff] when
    the microsecond is not zero, then the offset. *)
Definition isoformat_sep (sep : string) (d : datetime) : string :=
  let us := wall d mod US_PER_DAY in
  let '(y, m, dd) := date_fields d in
  let f := us mod US_PER_SECOND in
  zero_pad 4 y +:+ "-" +:+ zero_pad 2 m +:+ "-" +:+ zero_pad 2 dd +:+ sep
  +:+ zero_pad 2 (us / US_PER_HOUR) +:+ ":"
  +:+ zero_pad 2 (us / US_PER_MINUTE mod 60) +:+ ":"
  +:+ zero_pad 2 (us / US_PER_SECOND mod 60)
  +:+ (if f =? 0 then "" else "." +:+ zero_pad 6 f)
  +:+ format_offset (tzinfo d).

(** [d.isoformat()] *)
Definition isoformat (d : datetime) : string := isoformat_sep "T" d.

(** [str(d)], which is [d.isoformat(sep=' ')] *)
Definition dt_str (d : datetime) : string := isoformat_sep " " d.

(** [datetime(y, m, d, hh, mm, ss, tzinfo=tz)], for writing examples. *)
Definition mk_dt (y m d hh mm ss : Z) (tz : option Z) : datetime :=
  {| wall := (ymd2ord y m d - 1) * US_PER_DAY
             + hh * US_PER_HOUR + mm * US_PER_MINUTE + ss * US_PER_SECOND;
     tzinfo := tz |}.

(** ** Lemmas *)

Section datetime_lemmas.
Implicit Types a b d : datetime.

Lemma US_PER_DAY_pos : 0 < US_PER_DAY.
Proof. done. Qed.

(** The calendar day is monotone in the wall clock: a coarse filter on
    days never rejects what a fine filter on microseconds accepts. *)
Lemma dt_date_mono a b : wall a ≤ wall b → dt_date a ≤ dt_date b.
Proof. intros. by apply Z.div_le_mono. Qed.

Lemma dt_date_bounds d :
  dt_date d * US_PER_DAY ≤ wall d < (dt_date d + 1) * US_PER_DAY.
Proof.
  unfold dt_date. pose proof (Z.mod_pos_bound (wall d) US_PER_DAY US_PER_DAY_pos).
  pose proof (Z.div_mod (wall d) US_PER_DAY). lia.
Qed.

Lemma instant_replace_tzinfo d : instant (replace_tzinfo d utc) = wall d.
Proof. unfold instant, utc. simpl. lia. Qed.

(** Overwriting the zone moves the instant by the offset the value had. *)
Lemma replace_tzinfo_shift d off :
  tzinfo d = Some off →
  instant (replace_tzinfo d utc) = instant d + off.
Proof. unfold instant, utc. simpl. intros ->. simpl. lia. Qed.

Lemma instant_now t : instant (now utc t) = t.
Proof. unfold instant, now, utc. simpl. lia. Qed.

Lemma dt_ge_aware a b oa ob :
  tzinfo a = Some oa → tzinfo b = Some ob →
  dt_ge a b = Ok (bool_decide (instant b ≤ instant a)).
Proof. unfold dt_ge, instant. by intros -> ->. Qed.

Lemma dt_sub_ok d delta d' :
  dt_sub d delta = Ok d' →
  wall d' = wall d - delta ∧ tzinfo d' = tzinfo d ∧ in_range (wall d') = true.
Proof.
  unfold dt_sub. destruct (in_range _) eqn:Hr; intros [= <-]; by simpl.
Qed.

Lemma dt_sub_in_range d delta :
  in_range (wall d - delta) = true →
  dt_sub d delta = Ok {| wall := wall d - delta; tzinfo := tzinfo d |}.
Proof. unfold dt_sub. by intros ->. Qed.
End datetime_lemmas.

(** ** The calendar

    [ord2ymd] inverts [ymd2ord].  The ordinal splits into cycles of 400, 100,
    4 and 1 years; the day within the year is checked for each of the 365
    or 366 days by evaluation. *)

Section calendar.
Implicit Types (y m d n ordinal : Z) (leap : bool).

Definition year_days leap : Z := if leap then 366 else 365.

(** What [month_day] has to return for day [n] of a year. *)
Definition month_day_ok leap n : bool :=
  let '(m, d) := month_day leap n in
  bool_decide
    (1 ≤ m ≤ 12
     ∧ 1 ≤ d ≤ (if m =? 2 then (if leap then 29 else 28) else days_in_month 1 m)
     ∧ DAYS_BEFORE_MONTH m + (if (2 <? m) && leap then 1 else 0) + d = n + 1).

Lemma month_day_checked leap :
  forallb (month_day_ok leap) (seqZ 0 (year_days leap)) = true.
Proof. destruct leap; vm_compute; reflexivity. Qed.

Lemma month_day_spec leap n :
  0 ≤ n < year_days leap →
  let '(m, d) := month_day leap n in
  1 ≤ m ≤ 12
  ∧ 1 ≤ d ≤ (if m =? 2 then (if leap then 29 else 28) else days_in_month 1 m)
  ∧ DAYS_BEFORE_MONTH m + (if (2 <? m) && leap then 1 else 0) + d = n + 1.
Proof.
  intros Hn. pose proof (month_day_checked leap) as Hall.
  rewrite forallb_forall in Hall. specialize (Hall n).
  unfold month_day_ok in Hall. destruct (month_day leap n) as [m d].
  eapply bool_decide_eq_true_1, Hall, list_elem_of_In, elem_of_seqZ. lia.
Qed.

(** The cycles of an ordinal. *)
Lemma year_split n :
  0 ≤ n →
  let n400 := n / 146097 in
  let r400 := n mod 146097 in
  let n100 := r400 / 36524 in
  let r100 := r400 mod 36524 in
  let n4 := r100 / 1461 in
  let r4 := r100 mod 1461 in
  let n1 := r4 / 365 in
  let r := r4 mod 365 in
  n = 146097 * n400 + 36524 * n100 + 1461 * n4 + 365 * n1 + r
  ∧ 0 ≤ n400 ∧ 0 ≤ n100 ≤ 4 ∧ 0 ≤ n4 ≤ 24 ∧ 0 ≤ n1 ≤ 4 ∧ 0 ≤ r < 365
  ∧ (n100 = 4 → n4 = 0 ∧ n1 = 0 ∧ r = 0)
  ∧ (n1 = 4 → r = 0 ∧ n4 ≤ 23).
Proof. intros Hn. cbv zeta. Z.div_mod_to_equations. lia. Qed.

Lemma days_before_year_split a b c e :
  0 ≤ a → 0 ≤ b ≤ 3 → 0 ≤ c ≤ 24 → 0 ≤ e ≤ 3 →
  days_before_year (400 * a + 100 * b + 4 * c + e + 1)
  = 146097 * a + 36524 * b + 1461 * c + 365 * e.
Proof. intros. unfold days_before_year. Z.div_mod_to_equations. lia. Qed.

Lemma is_leap_split a b c e :
  0 ≤ a → 0 ≤ b ≤ 3 → 0 ≤ c ≤ 24 → 0 ≤ e ≤ 3 →
  is_leap (400 * a + 100 * b + 4 * c + e + 1)
  = (e =? 3) && (negb (c =? 24) || (b =? 3)).
Proof.
  intros. unfold is_leap.
  repeat match goal with |- context [?x =? ?y] => destruct (Z.eqb_spec x y) end;
    simpl; try done; Z.div_mod_to_equations; lia.
Qed.

Lemma days_in_month_leap y m leap :
  is_leap y = leap →
  days_in_month y m
  = if m =? 2 then (if leap then 29 else 28) else days_in_month 1 m.
Proof. intros <-. unfold days_in_month. by destruct (m =? 2). Qed.

(** The last day of a leap year, which the division by 365 or by 36524
    counts as the first day of a fifth year. *)
Lemma ymd2ord_last_day a b c :
  0 ≤ a → 0 ≤ b ≤ 3 → 0 ≤ c ≤ 24 → (c = 24 → b = 3) →
  let y := 400 * a + 100 * b + 4 * c + 3 + 1 in
  ymd2ord y 12 31 = 146097 * a + 36524 * b + 1461 * c + 365 * 3 + 366
  ∧ days_in_month y 12 = 31.
Proof.
  intros Ha Hb Hc Hcb. cbv zeta. unfold ymd2ord, days_before_month.
  rewrite days_before_year_split, is_leap_split by lia. simpl.
  destruct (Z.eqb_spec c 24), (Z.eqb_spec b 3); simpl; split; (done || lia).
Qed.

Lemma ord2ymd_ymd2ord ordinal :
  1 ≤ ordinal →
  let '(y, m, d) := ord2ymd ordinal in
  ymd2ord y m d = ordinal ∧ 1 ≤ m ≤ 12 ∧ 1 ≤ d ≤ days_in_month y m
  ∧ 1 ≤ y ∧ (ordinal ≤ MAXORDINAL → y ≤ 9999).
Proof.
  intros Hord. unfold ord2ymd, DI400Y, DI100Y, DI4Y, MAXORDINAL.
  pose proof (year_split (ordinal - 1)) as Hsplit. cbv zeta in Hsplit.
  set (a := (ordinal - 1) / 146097) in *.
  set (r400 := (ordinal - 1) mod 146097) in *.
  set (b := r400 / 36524) in *. set (r100 := r400 mod 36524) in *.
  set (c := r100 / 1461) in *. set (r4 := r100 mod 1461) in *.
  set (e := r4 / 365) in *. set (r := r4 mod 365) in *.
  destruct Hsplit as (Hsum & Ha & Hb & Hc & He & Hr & Hb4 & He4); [lia|].
  clearbody a r400 b r100 c r4 e r.
  destruct ((e =? 4) || (b =? 4)) eqn:Hedge.
  - assert (∃ b' c', 0 ≤ b' ≤ 3 ∧ 0 ≤ c' ≤ 24 ∧ (c' = 24 → b' = 3)
              ∧ a * 400 + 1 + b * 100 + c * 4 + e - 1
                = 400 * a + 100 * b' + 4 * c' + 3 + 1
              ∧ ordinal = 146097 * a + 36524 * b' + 1461 * c' + 365 * 3 + 366)
      as (b' & c' & Hb' & Hc' & Hleap & -> & Hord').
    { destruct (Z.eqb_spec e 4); [exists b, c|exists 3, 24]; lia. }
    destruct (ymd2ord_last_day a b' c') as [-> ->]; lia.
  - apply orb_false_iff in Hedge as [He'%Z.eqb_neq Hb'%Z.eqb_neq].
    set (leap := (e =? 3) && (negb (c =? 24) || (b =? 3))).
    pose proof (month_day_spec leap r) as Hmd.
    destruct (month_day leap r) as [m d].
    destruct Hmd as (Hm & Hd & Hdays); [unfold year_days; destruct leap; lia|].
    replace (a * 400 + 1 + b * 100 + c * 4 + e)
      with (400 * a + 100 * b + 4 * c + e + 1) by lia.
    assert (is_leap (400 * a + 100 * b + 4 * c + e + 1) = leap) as Hleap
      by (apply is_leap_split; lia).
    unfold ymd2ord, days_before_month.
    rewrite days_before_year_split, (days_in_month_leap _ m leap), Hleap
      by (done || lia).
    lia.
Qed.

(** The ordinal of a date of the years 1 to 9999 is within the range of
    [date]. *)
Lemma ymd2ord_bounds y m d :
  1 ≤ y ≤ 9999 → 1 ≤ m ≤ 12 → 1 ≤ d ≤ days_in_month y m →
  1 ≤ ymd2ord y m d ≤ MAXORDINAL.
Proof.
  intros Hy Hm Hd. unfold ymd2ord, days_before_month, MAXORDINAL.
  assert (0 ≤ days_before_year y
          ∧ days_before_year y + (if is_leap y then 1 else 0) ≤ 3651694)
    as Hyear.
  { destruct (decide (y = 9999)) as [->|]; [done|].
    unfold days_before_year. destruct (is_leap y);
      Z.div_mod_to_equations; lia. }
  unfold days_in_month in Hd.
  assert (m ∈ seqZ 1 12) as Hin by (apply elem_of_seqZ; lia).
  destruct (is_leap y); vm_compute in Hin;
    repeat (apply elem_of_cons in Hin as [->|Hin]; [simpl in *; lia|]);
    by apply elem_of_nil in Hin.
Qed.

(** C28: the year, month and day that [isoformat] prints for a
    [datetime] of the years 1 to 9999 are a date of the calendar (the month
    is between 1 and 12, the day between 1 and the length of that month,
    leap years included, the year has at most four digits), and it is the
    date of the day that [date()] returns: [ymd2ord] maps it back to the
    day number. *)
Theorem date_fields_roundtrip (dt : datetime) :
  in_range (wall dt) = true →
  let '(y, m, d) := date_fields dt in
  ymd2ord y m d = dt_date dt + 1
  ∧ 1 ≤ y ≤ 9999 ∧ 1 ≤ m ≤ 12 ∧ 1 ≤ d ≤ days_in_month y m.
Proof.
  intros Hr%bool_decide_eq_true_1. unfold date_fields.
  pose proof (dt_date_bounds dt) as Hb. pose proof US_PER_DAY_pos.
  assert (0 ≤ dt_date dt < MAXORDINAL) as Hd by nia.
  pose proof (ord2ymd_ymd2ord (dt_date dt + 1)) as Hrt.
  destruct (ord2ymd (dt_date dt + 1)) as [[y m] d].
  destruct Hrt as (? & ? & ? & ? & ?); [lia|]. split_and!; (done || lia).
Qed.
End calendar.

Lemma date_fields_roundtrip_witness :
  let '(y, m, d) := date_fields (mk_dt 2024 2 29 10 5 0 (Some utc)) in
  ymd2ord y m d = dt_date (mk_dt 2024 2 29 10 5 0 (Some utc)) + 1
  ∧ 1 ≤ y ≤ 9999 ∧ 1 ≤ m ≤ 12 ∧ 1 ≤ d ≤ days_in_month y m.
Proof. apply (date_fields_roundtrip (mk_dt 2024 2 29 10 5 0 (Some utc))). reflexivity. Defined.

(** Two renderings, checked by evaluation. *)
Example isoformat_utc :
  isoformat (mk_dt 2024 2 29 10 5 0 (Some utc)) = "2024-02-29T10:05:00+00:00".
Proof. vm_compute. reflexivity. Qed.

Example isoformat_offset :
  isoformat (mk_dt 1999 12 31 23 59 59 (Some (-(5 * US_PER_HOUR + 30 * US_PER_MINUTE))))
  = "1999-12-31T23:59:59-05:30".
Proof. vm_compute. reflexivity. Qed.
