(* ===== verification/Iso.v ===== *)
(** * ISO 8601 text of a [datetime]: printing and reading back

    [src/app/main.py] sends every date to the store as text
    ([msg_date.isoformat()], line 140, and [datetime.now(utc).isoformat()],
    line 142); the column [date timestamp with time zone] of the schema (line
    59) reads that text back into an instant, and [GET /emails] orders by it.
    This file relates the two directions.

    - [digits w z] is the reference printer of a field: [w] decimal digits,
      most significant first.  [zero_pad_digits] shows that the format
      [%0wd] of [DateTime.isoformat_sep] ([zero_pad], which pads the shortest
      decimal rendering) prints the same text when the value fits.
    - [iso_print] is [isoformat] written with [digits];
      [isoformat_sep_print] is the equivalence on the values a [datetime] can
      hold.
    - [Parser] is the state-and-error monad of the prelude over the
      remaining input; [p_datetime] reads the format that [isoformat] writes
      and checks the fields the way [datetime.fromisoformat] does.
    - [p_datetime_isoformat] is the round trip.
    - [reads p Q] states what a parser returns when it returns;
      [fromisoformat_valid] is the soundness of the parser: a text that is
      read is read as a value of the range of [datetime].

    The rewrite database [iso] runs a parser over a printed text, one field
    at a time. *)

From S2P Require Import Prelude PyStr PyVal DateTime.
From stdpp Require Import pretty.
From Stdlib Require Import Ascii.

Local Open Scope Z_scope.
Local Open Scope py_scope.

(** ** Fields of fixed width *)

(** The character of a decimal digit, as [pretty] prints it. *)
Definition digit_char (d : Z) : ascii := pretty_N_char (Z.to_N d).

(** The digit a character stands for. *)
Definition digit_val (c : ascii) : option Z :=
  let n := Z.of_N (N_of_ascii c) - 48 in
  if bool_decide (0 ≤ n ≤ 9) then Some n else None.

(** [w] decimal digits of [z], most significant first: the digits of
    [z mod 10 ^ w]. *)
Fixpoint digits (w : nat) (z : Z) : string :=
  match w with
  | O => ""
  | S w' => String (digit_char (z / 10 ^ Z.of_nat w' mod 10)) (digits w' z)
  end.

(** ** [isoformat], field by field *)

(** [YYYY-MM-DD] *)
Definition print_date (y m d : Z) : string :=
  digits 4 y +:+ "-" +:+ digits 2 m +:+ "-" +:+ digits 2 d.

(** [HH:MM:SS] *)
Definition print_time (hh mi ss : Z) : string :=
  digits 2 hh +:+ ":" +:+ digits 2 mi +:+ ":" +:+ digits 2 ss.

(** [.ffffff], when the microsecond is not zero *)
Definition print_fraction (f : Z) : string :=
  if f =? 0 then "" else "." +:+ digits 6 f.

(** [+HH:MM], with [:SS] and [.ffffff] when the offset has them *)
Definition print_offset (tz : option Z) : string :=
  match tz with
  | None => ""
  | Some off =>
      let a := Z.abs off in
      let ss := a mod US_PER_MINUTE in
      (if off <? 0 then "-" else "+")
      +:+ digits 2 (a / US_PER_HOUR) +:+ ":"
      +:+ digits 2 (a mod US_PER_HOUR / US_PER_MINUTE)
      +:+ (if ss =? 0 then ""
           else ":" +:+ digits 2 (ss / US_PER_SECOND)
                +:+ print_fraction (ss mod US_PER_SECOND))
  end.

(** [d.isoformat(sep)] with every field printed by [digits] *)
Definition iso_print (sep : string) (d : datetime) : string :=
  let us := wall d mod US_PER_DAY in
  let '(y, m, dd) := date_fields d in
  print_date y m dd +:+ sep
  +:+ print_time (us / US_PER_HOUR) (us / US_PER_MINUTE mod 60)
        (us / US_PER_SECOND mod 60)
  +:+ print_fraction (us mod US_PER_SECOND)
  +:+ print_offset (tzinfo d).

(** The values [isoformat] and [fromisoformat] are inverse on: years 1 to
    9999, offsets strictly within a day. *)
Definition offset_ok (tz : option Z) : bool :=
  match tz with
  | None => true
  | Some off => bool_decide (- US_PER_DAY < off < US_PER_DAY)
  end.

Definition dt_valid (d : datetime) : bool :=
  in_range (wall d) && offset_ok (tzinfo d).

(** ** Parsers: programs over the remaining input *)

(** A parser consumes a prefix of the input or fails; the state is what is
    left to read. *)
Abbreviation Parser := (M string unit).

(** The next character. *)
Definition p_char : Parser ascii :=
  λ s, match s with
       | String c s' => (Ok c, s')
       | EmptyString => (Raise tt, s)
       end.

Definition str_head (s : string) : option ascii :=
  match s with String c _ => Some c | EmptyString => None end.

(** The next character, left in the input. *)
Definition p_peek : Parser (option ascii) := gets str_head.

(** The character [c]. *)
Definition p_lit (c : ascii) : Parser unit :=
  c' <- p_char ;; if decide (c' = c) then ret tt else raise tt.

(** The end of the input. *)
Definition p_eof : Parser unit :=
  c <- p_peek ;; match c with None => ret tt | Some _ => raise tt end.

(** One decimal digit. *)
Definition p_digit : Parser Z :=
  c <- p_char ;; match digit_val c with Some d => ret d | None => raise tt end.

(** [w] decimal digits, as a number. *)
Fixpoint p_digits_go (w : nat) (acc : Z) : Parser Z :=
  match w with
  | O => ret acc
  | S w' => d <- p_digit ;; p_digits_go w' (10 * acc + d)
  end.

Definition p_digits (w : nat) : Parser Z := p_digits_go w 0.

(** ** Reading a [datetime] *)

(** [YYYY-MM-DD] *)
Definition p_date : Parser (Z * Z * Z) :=
  y <- p_digits 4 ;; p_lit "-" ;; m <- p_digits 2 ;; p_lit "-" ;;
  d <- p_digits 2 ;; ret (y, m, d).

(** [HH:MM:SS] *)
Definition p_time : Parser (Z * Z * Z) :=
  hh <- p_digits 2 ;; p_lit ":" ;; mi <- p_digits 2 ;; p_lit ":" ;;
  ss <- p_digits 2 ;; ret (hh, mi, ss).

(** [.ffffff] when the next character is a point, zero otherwise *)
Definition p_fraction : Parser Z :=
  c <- p_peek ;;
  if decide (c = Some "."%char) then p_char ;; p_digits 6 else ret 0.

(** The sign of an offset. *)
Definition p_sign : Parser Z :=
  c <- p_char ;;
  if decide (c = "+"%char) then ret 1
  else if decide (c = "-"%char) then ret (-1) else raise tt.

(** The offset, to the end of the input: nothing for a naive value,
    [(+|-)HH:MM[:SS[.ffffff]]] otherwise. *)
Definition p_offset : Parser (option Z) :=
  c <- p_peek ;;
  match c with
  | None => ret None
  | Some _ =>
      sign <- p_sign ;;
      hh <- p_digits 2 ;; p_lit ":" ;; mi <- p_digits 2 ;;
      c <- p_peek ;;
      sf <- (if decide (c = Some ":"%char)
             then p_char ;; ss <- p_digits 2 ;; f <- p_fraction ;;
                  ret (ss * US_PER_SECOND + f)
             else ret 0) ;;
      ret (Some (sign * (hh * US_PER_HOUR + mi * US_PER_MINUTE + sf)))
  end.

(** The checks of the [datetime] constructor on parsed fields. *)
Definition fields_ok (y m d hh mi ss : Z) (tz : option Z) : bool :=
  bool_decide (1 ≤ y ∧ 1 ≤ m ≤ 12 ∧ 1 ≤ d ≤ days_in_month y m
               ∧ hh < 24 ∧ mi < 60 ∧ ss < 60)
  && offset_ok tz.

(** [YYYY-MM-DDTHH:MM:SS[.ffffff][offset]], the whole input *)
Definition p_datetime : Parser datetime :=
  ymd <- p_date ;; p_lit "T" ;;
  hms <- p_time ;;
  let '(y, m, d) := ymd in
  let '(hh, mi, ss) := hms in
  f <- p_fraction ;;
  tz <- p_offset ;;
  p_eof ;;
  if fields_ok y m d hh mi ss tz
  then ret {| wall := (ymd2ord y m d - 1) * US_PER_DAY + hh * US_PER_HOUR
                      + mi * US_PER_MINUTE + ss * US_PER_SECOND + f;
              tzinfo := tz |}
  else raise tt.

(** [datetime.fromisoformat(s)] on the format [isoformat] writes; [None] for
    [ValueError]. *)
Definition fromisoformat (s : string) : option datetime :=
  match p_datetime s with
  | (Ok d, _) => Some d
  | (Raise _, _) => None
  end.

(** ** [zero_pad] prints [digits] *)

Section digits.
Implicit Types (w k : nat) (z d : Z) (s : string).

Lemma digit_val_char d : 0 ≤ d < 10 → digit_val (digit_char d) = Some d.
Proof.
  intros Hd.
  assert (d = 0 ∨ d = 1 ∨ d = 2 ∨ d = 3 ∨ d = 4 ∨ d = 5 ∨ d = 6 ∨ d = 7
          ∨ d = 8 ∨ d = 9) as Hcases by lia.
  by repeat destruct Hcases as [->|Hcases]; try subst d.
Qed.

Lemma digits_length w z : String.length (digits w z) = w.
Proof. induction w; simpl; congruence. Qed.

(** The last digit, split off. *)
Lemma digits_snoc w z :
  digits (S w) z = digits w (z / 10) +:+ String (digit_char (z mod 10)) "".
Proof.
  induction w as [|w IH]; [cbn [digits]; by rewrite Z.pow_0_r, Z.div_1_r|].
  change (digits (S (S w)) z)
    with (String (digit_char (z / 10 ^ Z.of_nat (S w) mod 10)) (digits (S w) z)).
  rewrite IH. cbn [digits]. rewrite str_app_cons. do 2 f_equal.
  rewrite Z.div_div by lia. by rewrite Nat2Z.inj_succ, Z.pow_succ_r by lia.
Qed.

Lemma digits_zero w : digits w 0 = str_repeat "0" w.
Proof.
  induction w as [|w IH]; [done|]. cbn [digits str_repeat].
  by rewrite IH, Z.div_0_l by lia.
Qed.

(** Printing with an accumulator, as [pretty] does, against [digits]. *)
Lemma digits_pretty_go w (x : N) s :
  (x < 10 ^ N.of_nat w)%N →
  ∃ k, (k ≤ w)%nat
    ∧ String.length (pretty_N_go x s) = (k + String.length s)%nat
    ∧ digits w (Z.of_N x) +:+ s = str_repeat "0" (w - k) +:+ pretty_N_go x s.
Proof.
  revert x s. induction w as [|w IH]; intros x s Hx.
  { exists 0%nat. assert (x = 0%N) as -> by (simpl in Hx; lia). done. }
  destruct (decide (x = 0%N)) as [->|Hpos].
  { exists 0%nat. split_and!; [lia|done|].
    change (Z.of_N 0) with 0. by rewrite digits_zero. }
  rewrite digits_snoc, str_app_assoc, pretty_N_go_step by lia.
  destruct (IH (x `div` 10)%N (String (pretty_N_char (x `mod` 10)) s))
    as (k & Hk & Hlen & Heq).
  { apply N.Div0.div_lt_upper_bound.
    by rewrite Nat2N.inj_succ, N.pow_succ_r' in Hx. }
  exists (S k). simpl in Hlen. split_and!; [lia|lia|].
  assert (Z.of_N x / 10 = Z.of_N (x `div` 10)) as -> by by rewrite N2Z.inj_div.
  assert (Z.to_N (Z.of_N x mod 10) = (x `mod` 10)%N) as Hmod
    by (change 10 with (Z.of_N 10); by rewrite <-N2Z.inj_mod, N2Z.id).
  unfold digit_char. by rewrite Hmod, Nat.sub_succ.
Qed.

Lemma zero_pad_digits w z :
  (0 < w)%nat → 0 ≤ z < 10 ^ Z.of_nat w → zero_pad w z = digits w z.
Proof.
  intros Hw Hz. unfold zero_pad, pretty, pretty_N.
  destruct (decide (Z.to_N z = 0%N)) as [Hz0|Hz0].
  - assert (z = 0) as -> by lia. destruct w as [|w]; [lia|].
    simpl. by rewrite Nat.sub_0_r, str_repeat_snoc, digits_zero.
  - destruct (digits_pretty_go w (Z.to_N z) "") as (k & Hk & Hlen & Heq).
    { apply N2Z.inj_lt. rewrite N2Z.inj_pow, Z2N.id, nat_N_Z by lia. lia. }
    rewrite Z2N.id, str_app_nil_r in Heq by lia.
    by rewrite Heq, Hlen, Nat.add_0_r.
Qed.
End digits.

(** ** Running a parser over a printed text *)

Section parsers.
Implicit Types (w : nat) (z acc : Z) (s : string) (c : ascii).

(** A parser that succeeds, followed by the rest of the program. *)
Lemma bind_run {A B} (p : Parser A) (k : A → Parser B) s a s' :
  p s = (Ok a, s') → bind p k s = k a s'.
Proof. unfold bind. by intros ->. Qed.

Lemma p_lit_run c s : p_lit c (String c s) = (Ok tt, s).
Proof. unfold p_lit, bind, p_char. by rewrite decide_True. Qed.

Lemma p_digits_go_run w acc z s :
  0 ≤ z →
  p_digits_go w acc (digits w z +:+ s)
  = (Ok (acc * 10 ^ Z.of_nat w + z mod 10 ^ Z.of_nat w), s).
Proof.
  intros Hz. revert acc. induction w as [|w IH]; intros acc.
  { change (digits 0 z +:+ s) with s. cbn [p_digits_go]. unfold ret.
    change (Z.of_nat 0) with 0. rewrite Z.pow_0_r, Z.mod_1_r. do 2 f_equal. lia. }
  cbn [digits p_digits_go]. rewrite str_app_cons.
  unfold bind at 1, p_digit, bind, p_char.
  pose proof (Z.pow_pos_nonneg 10 (Z.of_nat w)).
  rewrite digit_val_char by (apply Z.mod_pos_bound; lia).
  unfold ret. rewrite IH. do 2 f_equal.
  rewrite Nat2Z.inj_succ, Z.pow_succ_r by lia. set (p := 10 ^ Z.of_nat w) in *.
  rewrite (Z.mul_comm 10 p), Z.rem_mul_r by lia. ring.
Qed.

Lemma p_digits_run w z s :
  0 ≤ z < 10 ^ Z.of_nat w → p_digits w (digits w z +:+ s) = (Ok z, s).
Proof.
  intros Hz. unfold p_digits. rewrite p_digits_go_run by lia.
  by rewrite Z.mod_small.
Qed.
End parsers.

(** [pow10]: the powers of ten of the field widths, computed. *)
Ltac pow10 :=
  repeat match goal with
  | |- context [10 ^ Z.of_nat ?w] =>
      let v := eval vm_compute in (10 ^ Z.of_nat w) in
      change (10 ^ Z.of_nat w) with v
  end.

(** [us_lia]: linear arithmetic with the divisions and remainders by the
    units of time. *)
Ltac us_lia :=
  cbv delta [US_PER_DAY US_PER_HOUR US_PER_MINUTE US_PER_SECOND] in *;
  pow10; Z.div_mod_to_equations; lia.

(** ** [isoformat] is [iso_print] *)

Section printer.
Implicit Types (d : datetime) (tz : option Z) (s : string).

Lemma zero_pad_2 z : 0 ≤ z < 100 → zero_pad 2 z = digits 2 z.
Proof. intros. apply zero_pad_digits; [lia|by pow10]. Qed.

Lemma zero_pad_6 z : 0 ≤ z < 1000000 → zero_pad 6 z = digits 6 z.
Proof. intros. apply zero_pad_digits; [lia|by pow10]. Qed.

Lemma format_offset_print tz :
  offset_ok tz = true → format_offset tz = print_offset tz.
Proof.
  destruct tz as [off|]; [|done]. intros Hoff%bool_decide_eq_true_1.
  unfold format_offset, print_offset, print_fraction. cbv zeta.
  rewrite !zero_pad_2, ?zero_pad_6 by us_lia. done.
Qed.

Lemma days_in_month_le y m : days_in_month y m ≤ 31.
Proof. unfold days_in_month. repeat (case_match; try lia). Qed.

Lemma date_fields_ok d :
  in_range (wall d) = true →
  let '(y, m, dd) := date_fields d in
  ymd2ord y m dd = dt_date d + 1
  ∧ 1 ≤ y ≤ 9999 ∧ 1 ≤ m ≤ 12 ∧ 1 ≤ dd ≤ days_in_month y m ∧ dd ≤ 31.
Proof.
  intros Hr%bool_decide_eq_true_1. unfold date_fields.
  pose proof (dt_date_bounds d). pose proof US_PER_DAY_pos.
  assert (0 ≤ dt_date d < MAXORDINAL) by nia.
  pose proof (ord2ymd_ymd2ord (dt_date d + 1)) as Hrt.
  destruct (ord2ymd (dt_date d + 1)) as [[y m] dd].
  pose proof (days_in_month_le y m).
  destruct Hrt as (? & ? & ? & ? & ?); [lia|]. split_and!; (done || lia).
Qed.

Lemma isoformat_sep_print sep d :
  dt_valid d = true → isoformat_sep sep d = iso_print sep d.
Proof.
  intros [Hr Hoff]%andb_prop. pose proof (date_fields_ok d Hr) as Hf.
  unfold isoformat_sep, iso_print, print_date, print_time, print_fraction.
  destruct (date_fields d) as [[y m] dd]. destruct Hf as (_ & ? & ? & ? & ?).
  cbv zeta. rewrite format_offset_print by done.
  rewrite (zero_pad_digits 4 y) by (pow10; lia).
  rewrite !zero_pad_2, ?zero_pad_6 by us_lia.
  by rewrite !str_app_assoc.
Qed.
End printer.

(** ** The parsers on what the printers write *)

Section parser_steps.
Implicit Types (d : datetime) (tz : option Z) (s : string) (c : ascii).

Lemma p_digits_bind {B} w z s (k : Z → Parser B) :
  0 ≤ z < 10 ^ Z.of_nat w → bind (p_digits w) k (digits w z +:+ s) = k z s.
Proof. intros. by apply bind_run, p_digits_run. Qed.

Lemma p_lit_bind {B} c s (k : unit → Parser B) :
  bind (p_lit c) k (String c s) = k tt s.
Proof. apply bind_run, p_lit_run. Qed.

Lemma p_peek_bind {B} s (k : option ascii → Parser B) :
  bind p_peek k s = k (str_head s) s.
Proof. done. Qed.

Lemma p_char_bind {B} c s (k : ascii → Parser B) :
  bind p_char k (String c s) = k c s.
Proof. done. Qed.
End parser_steps.

Create Rewrite HintDb iso.
#[export] Hint Rewrite str_app_assoc str_app_cons str_app_nil_l str_app_nil_r
  @bind_assoc @bind_ret_l @p_lit_bind @p_peek_bind @p_char_bind : iso.
#[export] Hint Rewrite @p_digits_bind using us_lia : iso.

Section parser_runs.
Implicit Types (d : datetime) (tz : option Z) (s : string) (c : ascii).

Lemma p_date_run {B} y m dd s (k : Z * Z * Z → Parser B) :
  0 ≤ y < 10000 → 0 ≤ m < 100 → 0 ≤ dd < 100 →
  bind p_date k (print_date y m dd +:+ s) = k (y, m, dd) s.
Proof. intros. unfold p_date, print_date. by autorewrite with iso. Qed.

Lemma p_time_run {B} hh mi ss s (k : Z * Z * Z → Parser B) :
  0 ≤ hh < 100 → 0 ≤ mi < 100 → 0 ≤ ss < 100 →
  bind p_time k (print_time hh mi ss +:+ s) = k (hh, mi, ss) s.
Proof. intros. unfold p_time, print_time. by autorewrite with iso. Qed.

Lemma p_fraction_run {B} f s (k : Z → Parser B) :
  0 ≤ f < 1000000 → str_head s ≠ Some "."%char →
  bind p_fraction k (print_fraction f +:+ s) = k f s.
Proof.
  intros Hf Hs. unfold p_fraction, print_fraction.
  destruct (Z.eqb_spec f 0) as [->|?]; autorewrite with iso.
  - by rewrite decide_False.
  - cbn [str_head]. rewrite decide_True by done. by autorewrite with iso.
Qed.
End parser_runs.

(** ** The round trip *)

Section roundtrip.
Implicit Types (d : datetime) (tz : option Z) (s : string) (c : ascii).

Lemma print_offset_head tz : str_head (print_offset tz) ≠ Some "."%char.
Proof. destruct tz as [off|]; [|done]. cbn. by destruct (off <? 0). Qed.

Lemma p_sign_bind {B} off s (k : Z → Parser B) :
  bind p_sign k ((if off <? 0 then "-" else "+") +:+ s)
  = k (if off <? 0 then -1 else 1) s.
Proof. unfold p_sign. by destruct (off <? 0); autorewrite with iso. Qed.

Lemma p_offset_run {B} tz (k : option Z → Parser B) :
  offset_ok tz = true → bind p_offset k (print_offset tz) = k tz "".
Proof.
  destruct tz as [off|]; [|done]. intros Hoff%bool_decide_eq_true_1.
  unfold p_offset, print_offset. cbv zeta.
  rewrite bind_assoc, p_peek_bind.
  replace (str_head _) with (Some (if off <? 0 then "-"%char else "+"%char))
    by by destruct (off <? 0).
  cbv beta iota. rewrite bind_assoc, p_sign_bind. autorewrite with iso.
  destruct (Z.eqb_spec (Z.abs off mod US_PER_MINUTE) 0) as [Hz|Hz];
    autorewrite with iso; cbn [str_head].
  - rewrite decide_False by done. autorewrite with iso. do 2 f_equal.
    destruct (Z.ltb_spec off 0); us_lia.
  - rewrite decide_True by done. autorewrite with iso.
    rewrite <- (str_app_nil_r (print_fraction _)).
    rewrite p_fraction_run by (us_lia || done). autorewrite with iso.
    do 2 f_equal. destruct (Z.ltb_spec off 0); us_lia.
Qed.

(** The fields [isoformat] prints pass the checks of the constructor. *)
Lemma fields_ok_date_fields d y m dd :
  dt_valid d = true → date_fields d = (y, m, dd) →
  let us := wall d mod US_PER_DAY in
  fields_ok y m dd (us / US_PER_HOUR) (us / US_PER_MINUTE mod 60)
    (us / US_PER_SECOND mod 60) (tzinfo d) = true.
Proof.
  intros [Hr Hoff]%andb_prop Hd. pose proof (date_fields_ok d Hr) as Hf.
  rewrite Hd in Hf. unfold fields_ok. rewrite Hoff, andb_true_r.
  apply bool_decide_eq_true_2. split_and!; try lia; us_lia.
Qed.

(** The fields [isoformat] prints determine the value. *)
Lemma wall_of_fields d y m dd :
  dt_valid d = true → date_fields d = (y, m, dd) →
  let us := wall d mod US_PER_DAY in
  (ymd2ord y m dd - 1) * US_PER_DAY + us / US_PER_HOUR * US_PER_HOUR
  + us / US_PER_MINUTE mod 60 * US_PER_MINUTE
  + us / US_PER_SECOND mod 60 * US_PER_SECOND + us mod US_PER_SECOND = wall d.
Proof.
  intros [Hr Hoff]%andb_prop Hd. pose proof (date_fields_ok d Hr) as Hf.
  rewrite Hd in Hf. destruct Hf as [-> _]. unfold dt_date. us_lia.
Qed.

Lemma p_datetime_run d :
  dt_valid d = true → p_datetime (iso_print "T" d) = (Ok d, "").
Proof.
  intros Hv. pose proof (fields_ok_date_fields d) as Hok.
  pose proof (wall_of_fields d) as Hw. pose proof (date_fields_ok d) as Hf.
  apply andb_prop in Hv as Hv'. destruct Hv' as [Hr Hoff].
  unfold p_datetime, iso_print. destruct (date_fields d) as [[y m] dd].
  specialize (Hok y m dd Hv eq_refl). specialize (Hw y m dd Hv eq_refl).
  specialize (Hf Hr). cbv zeta in *.
  rewrite p_date_run by lia. autorewrite with iso.
  rewrite p_time_run by us_lia. cbv beta iota.
  rewrite p_fraction_run by (us_lia || apply print_offset_head).
  rewrite p_offset_run by done. autorewrite with iso. cbn [str_head].
  rewrite Hok, Hw. by destruct d.
Qed.

(** Reading what [isoformat] wrote consumes all of it and returns the
    value. *)
Lemma p_datetime_isoformat d :
  dt_valid d = true → p_datetime (isoformat d) = (Ok d, "").
Proof.
  intros Hv. unfold isoformat. by rewrite isoformat_sep_print, p_datetime_run.
Qed.

(** C23: reading back the text that [isoformat] writes
    for a [datetime] of the years 1 to 9999, naive or with an offset of less
    than a day, returns that [datetime]: the date, the time of day to the
    microsecond and the offset are all recovered, and no input is left
    over. *)
Theorem fromisoformat_isoformat d :
  dt_valid d = true → fromisoformat (isoformat d) = Some d.
Proof. intros Hv. unfold fromisoformat. by rewrite p_datetime_isoformat. Qed.

(** On the same values the two renderings the
    program uses, [isoformat()] and [str()], are the fixed-width text of
    [iso_print]: four digits of year, two of month, day, hour, minute and
    second, six of microsecond when it is not zero, and the offset; they
    differ in the separator only.  The padding of [zero_pad] never has to
    widen a field. *)
Theorem isoformat_fixed_width d :
  dt_valid d = true →
  isoformat d = iso_print "T" d ∧ dt_str d = iso_print " " d.
Proof. intros Hv. split; by apply isoformat_sep_print. Qed.
End roundtrip.

(** ** What a parser returns, when it returns *)

Definition reads {A} (p : Parser A) (Q : A → Prop) : Prop :=
  ∀ s, wp p (λ a _, Q a) (λ _ _, True) s.

Section reads.
Implicit Types (w : nat) (z : Z).

Lemma reads_ret {A} (a : A) (Q : A → Prop) : Q a → reads (ret a) Q.
Proof. by intros ? s. Qed.

Lemma reads_raise {A} (Q : A → Prop) : reads (raise tt) Q.
Proof. by intros s. Qed.

Lemma reads_any {A} (p : Parser A) : reads p (λ _, True).
Proof. intros s. unfold wp. by destruct (p s) as [[]]. Qed.

Lemma reads_bind {A B} (p : Parser A) (k : A → Parser B) Q Q' :
  reads p Q → (∀ a, Q a → reads (k a) Q') → reads (bind p k) Q'.
Proof.
  intros Hp Hk s. apply wp_bind. eapply wp_mono; [apply Hp| |done].
  intros a s' Ha. by apply Hk.
Qed.

Lemma reads_mono {A} (p : Parser A) (Q Q' : A → Prop) :
  reads p Q → (∀ a, Q a → Q' a) → reads p Q'.
Proof. intros Hp HQ s. eapply wp_mono; [apply Hp| |done]. naive_solver. Qed.

Lemma reads_p_digit : reads p_digit (λ z, 0 ≤ z ≤ 9).
Proof.
  apply (reads_bind _ _ _ _ (reads_any _)). intros c _. unfold digit_val.
  case_bool_decide; [by apply reads_ret | apply reads_raise].
Qed.

Lemma reads_p_digits_go w acc :
  0 ≤ acc →
  reads (p_digits_go w acc)
    (λ z, acc * 10 ^ Z.of_nat w ≤ z < (acc + 1) * 10 ^ Z.of_nat w).
Proof.
  revert acc. induction w as [|w IH]; intros acc Hacc; simpl p_digits_go.
  - apply reads_ret. simpl. lia.
  - eapply reads_bind; [apply reads_p_digit|]. intros d Hd. simpl in Hd.
    eapply reads_mono; [apply (IH (10 * acc + d)); lia|]. intros z Hz.
    cbv beta in *. rewrite Nat2Z.inj_succ, Z.pow_succ_r by lia.
    pose proof (Z.pow_pos_nonneg 10 (Z.of_nat w)). nia.
Qed.

Lemma reads_p_digits w : reads (p_digits w) (λ z, 0 ≤ z < 10 ^ Z.of_nat w).
Proof.
  eapply reads_mono; [by apply (reads_p_digits_go w 0)|]. simpl. lia.
Qed.

End reads.

Create HintDb reads discriminated.
#[export] Hint Resolve reads_p_digits | 1 : reads.
#[export] Hint Resolve reads_any | 9 : reads.

(** One step through a parser: the rule of its head, the known
    postcondition of the first parser of a sequence. *)
Ltac reads_step :=
  lazymatch goal with
  | |- reads (ret _) _ => apply reads_ret
  | |- reads (raise _) _ => apply reads_raise
  | |- reads (bind _ _) _ =>
      eapply reads_bind; [solve [eauto with reads]|cbv beta; intros ? ?]
  | |- reads (if _ then _ else _) _ => case_match
  | |- reads (match _ with _ => _ end) _ => case_match
  | |- reads _ _ =>
      eapply reads_mono; [solve [eauto with reads]|cbv beta; intros ? ?]
  end.

Section soundness.

Lemma reads_p_date :
  reads p_date (λ ymd, 0 ≤ ymd.1.1 ≤ 9999 ∧ 0 ≤ ymd.1.2 ∧ 0 ≤ ymd.2).
Proof. unfold p_date. repeat reads_step. simpl in *. lia. Qed.

Lemma reads_p_time :
  reads p_time (λ hms, 0 ≤ hms.1.1 ∧ 0 ≤ hms.1.2 ∧ 0 ≤ hms.2).
Proof. unfold p_time. repeat reads_step. simpl in *. lia. Qed.

Lemma reads_p_fraction : reads p_fraction (λ f, 0 ≤ f < US_PER_SECOND).
Proof.
  unfold p_fraction, US_PER_SECOND. repeat reads_step; simpl in *; lia.
Qed.

#[local] Hint Resolve reads_p_date reads_p_time reads_p_fraction | 1 : reads.

Lemma fields_valid y m d hh mi ss f tz :
  0 ≤ y ≤ 9999 → 0 ≤ hh → 0 ≤ mi → 0 ≤ ss → 0 ≤ f < US_PER_SECOND →
  fields_ok y m d hh mi ss tz = true →
  dt_valid {| wall := (ymd2ord y m d - 1) * US_PER_DAY + hh * US_PER_HOUR
                      + mi * US_PER_MINUTE + ss * US_PER_SECOND + f;
              tzinfo := tz |} = true.
Proof.
  intros Hy Hhh Hmi Hss Hf [Hok Htz]%andb_prop. apply bool_decide_eq_true_1 in Hok.
  unfold dt_valid, in_range. simpl. rewrite Htz, andb_true_r.
  apply bool_decide_eq_true_2.
  pose proof (ymd2ord_bounds y m d). 
  unfold US_PER_DAY, US_PER_HOUR, US_PER_MINUTE, US_PER_SECOND in *. lia.
Qed.

Lemma reads_p_datetime : reads p_datetime (λ d, dt_valid d = true).
Proof.
  unfold p_datetime. repeat reads_step. 
  apply fields_valid; simpl in *; lia || done.
Qed.

(** The parser is sound: whatever the text, a value that is read is a
    [datetime] of the years 1 to 9999 with an offset of less than a day. *)
Theorem fromisoformat_valid s d : fromisoformat s = Some d → dt_valid d = true.
Proof.
  unfold fromisoformat. intros Hd. pose proof (reads_p_datetime s) as Hwp.
  unfold wp in Hwp. destruct (p_datetime s) as [[]]; by simplify_eq.
Qed.

(** So a value that was read prints as a text that reads as the same value:
    [isoformat] gives the canonical text of what the store holds. *)
Corollary fromisoformat_canonical s d :
  fromisoformat s = Some d → fromisoformat (isoformat d) = Some d.
Proof.
  intros Hv%fromisoformat_valid. unfold fromisoformat.
  by rewrite p_datetime_isoformat.
Qed.
End soundness.

(** A text with a fraction of zero is read, and is not the canonical one. *)
Example fromisoformat_not_canonical :
  let s := "2024-02-29T10:05:00.000000+00:00" in
  fromisoformat s = Some (mk_dt 2024 2 29 10 5 0 (Some utc))
  ∧ isoformat (mk_dt 2024 2 29 10 5 0 (Some utc)) ≠ s.
Proof. by vm_compute. Qed.

Lemma fromisoformat_isoformat_witness :
  fromisoformat (isoformat (mk_dt 2024 2 29 10 5 0 (Some utc)))
  = Some (mk_dt 2024 2 29 10 5 0 (Some utc)).
Proof. apply fromisoformat_isoformat. reflexivity. Defined.

Lemma isoformat_fixed_width_witness :
  isoformat (mk_dt 1999 12 31 23 59 59 None)
  = iso_print "T" (mk_dt 1999 12 31 23 59 59 None)
  ∧ dt_str (mk_dt 1999 12 31 23 59 59 None)
    = iso_print " " (mk_dt 1999 12 31 23 59 59 None).
Proof. apply isoformat_fixed_width. reflexivity. Defined.

(** Texts that are not dates are refused: the 30th of February, a month 13,
    a missing separator, trailing input. *)
Example fromisoformat_rejects :
  fromisoformat "2024-02-30T10:00:00+00:00" = None
  ∧ fromisoformat "2024-13-01T10:00:00+00:00" = None
  ∧ fromisoformat "2024-02-29 10:00:00+00:00" = None
  ∧ fromisoformat "2024-02-29T10:00:00+00:00Z" = None.
Proof. vm_compute. done. Qed.

(** A text without offset is read as a naive value. *)
Example fromisoformat_naive :
  fromisoformat "2024-03-09T11:30:00.000250"
  = Some {| wall := wall (mk_dt 2024 3 9 11 30 0 None) + 250; tzinfo := None |}.
Proof. vm_compute. reflexivity. Qed.
