(* ===== verification/World.v ===== *)
(** * The world the handlers run in

    The data that crosses the boundary between [src/app/main.py] and its
    collaborators (messages of [imap_tools], chat requests of [groq], rows of
    the [emails] table, log records), the state [World] that every handler
    threads, the class [Env] that fixes what the collaborators answer, and one
    primitive action per external call of the source.

    A primitive asks [Env] for the answer at the current tick, appends the
    request to the trace and advances the tick.  [Env] is a parameter of every
    definition and theorem of the component files: nothing is assumed about
    what the services answer.

    The file ends with the vocabulary the component files state their
    theorems in: the projections of a trace ([chat_requests],
    [insert_requests], [imap_calls]); [grows w evs w'], a run that made the
    calls [evs] and left the table alone; the properties of the table
    ([Stable], and [Growing] for those that survive an insert) and the
    invariant [store_wf]; [same_view], worlds that agree on everything but
    the password of the logins recorded, an equivalence that the
    projections and updates of a world respect ([Proper] instances, so that
    a view rewrites under them); the class [Blind] of the relations
    between worlds that no primitive can tell apart, with the rules that
    relate two runs of a primitive. *)

From S2P Require Import Prelude PyStr PyVal DateTime.
From stdpp Require Import sorting.
From Stdlib Require QArith_base.

Local Open Scope py_scope.

(** ** Logging (lines 17-19) *)

Inductive level : Type := DEBUG | INFO | WARNING | ERROR.

#[export] Instance level_eq_dec : EqDecision level.
Proof. solve_decision. Defined.

(** The numeric values of [logging]'s levels. *)
Definition level_no (l : level) : Z :=
  match l with DEBUG => 10 | INFO => 20 | WARNING => 30 | ERROR => 40 end.

(** [logging.basicConfig(level=logging.INFO)] *)
Definition basicConfig_level : level := INFO.

Definition enabled (l : level) : bool :=
  bool_decide (level_no basicConfig_level ≤ level_no l)%Z.

(** ** Messages of the mailbox ([imap_tools.MailMessage])

    Every attribute is parsed from the raw message when it is read, so reading
    it can raise: an attribute is the outcome of reading it. *)

Record MailMessage : Type := {
  msg_subject : outcome exn string;
  msg_from_ : outcome exn string;
  msg_to : outcome exn (list string);
  msg_date : outcome exn datetime;
  msg_text : outcome exn string;
  msg_html : outcome exn string;
}.

(** [AND(from_=sender, date_gte=day)] *)
Record criteria : Type := AND {
  from_ : string;
  date_gte : Z;
}.

#[export] Instance criteria_eq_dec : EqDecision criteria.
Proof. solve_decision. Defined.

(** What iterating [mailbox.fetch(criteria)] yields: the messages, then the
    exception that ended the iteration if one did. *)
Definition fetch_result : Type := list MailMessage * option exn.

(** ** The record built for each kept message (lines 136-146)

    The dictionary [email_content]; [summary] is absent until line 146
    assigns it. *)

Record email_content : Type := {
  subject : string;
  from_address : string;
  to_address : string;
  date : string;
  text : string;
  extracted_at : string;
  summary : option string;
}.

#[export] Instance email_content_eq_dec : EqDecision email_content.
Proof. solve_decision. Defined.

(** [email_content["summary"] = s] *)
Definition set_summary (ec : email_content) (s : string) : email_content :=
  {| subject := subject ec; from_address := from_address ec;
     to_address := to_address ec; date := date ec; text := text ec;
     extracted_at := extracted_at ec; summary := Some s |}.

(** The dictionary as a Python value, keys in insertion order. *)
Definition email_content_items (ec : email_content) : list (string * pyval) :=
  [("subject", PStr (subject ec)); ("from_address", PStr (from_address ec));
   ("to_address", PStr (to_address ec)); ("date", PStr (date ec));
   ("text", PStr (text ec)); ("extracted_at", PStr (extracted_at ec))]
  ++ match summary ec with
     | Some s => [("summary", PStr s)]
     | None => []
     end.

(** ** Chat completions ([groq]) *)

Record chat_message : Type := {
  role : string;
  content : string;
}.

Record chat_request : Type := {
  messages : list chat_message;
  model : string;
  temperature : QArith_base.Q;
  max_tokens : Z;
}.

(** [chat_completion.choices], each choice by its [message.content].  The
    content is taken to be text: the request of lines 82-96 declares no
    tool, which is when the API leaves the content of a choice empty. *)
Definition chat_completion : Type := list string.

(** ** Rows of the table [emails] (schema of lines 54-63)

    [row_date] is the value the store keeps in the column
    [date timestamp with time zone], in microseconds. *)

Record Row : Type := {
  row_id : Z;
  row_date : Z;
  row_data : email_content;
}.

Definition row_items (r : Row) : list (string * pyval) :=
  ("id", PInt (row_id r)) :: email_content_items (row_data r).

(** ** The trace of external calls *)

Inductive event : Type :=
| EvConnect (host : string)
| EvLogin (username password initial_folder : string)
| EvFetch (c : criteria)
| EvLogout
| EvChat (req : chat_request)
| EvInsert (table : string) (data : email_content)
| EvSelect (table columns : string) (order : option string) (limit : option Z).

Record World : Type := {
  w_tick : nat;
  w_trace : list event;
  w_log : list (level * string);
  w_rows : list Row;
  w_next_id : Z;
}.

(** ** What the collaborators answer

    Each answer depends on the tick (how many interactions came before) and
    on the request. *)

Class Env : Type := {
  (** the clock, in microseconds after 0001-01-01T00:00:00 UTC *)
  env_now : nat → Z;
  (** [MailBox(host)]: [Some e] when the connection fails *)
  env_connect : nat → string → option exn;
  (** [.login(username, password, initial_folder)] *)
  env_login : nat → string → string → string → option exn;
  (** iterating [mailbox.fetch(criteria)] *)
  env_fetch : nat → criteria → fetch_result;
  (** [mailbox.logout()], called by [__exit__] *)
  env_logout : nat → option exn;
  (** [groq_client.chat.completions.create(...)] *)
  env_chat : nat → chat_request → outcome exn chat_completion;
  (** [.insert(data).execute()]: the timestamp stored in column [date], or
      the error *)
  env_insert : nat → string → email_content → outcome exn Z;
  (** [.select(...).execute()]: [Some e] when the query fails *)
  env_select : nat → string → option exn;
  (** [str(e)] for an [HTTPException] *)
  env_http_str : Z → pyval → string;
}.

(** ** State updates *)

Definition w_record (ev : event) (w : World) : World :=
  {| w_tick := S (w_tick w); w_trace := w_trace w ++ [ev];
     w_log := w_log w; w_rows := w_rows w; w_next_id := w_next_id w |}.

Definition w_tick_only (w : World) : World :=
  {| w_tick := S (w_tick w); w_trace := w_trace w;
     w_log := w_log w; w_rows := w_rows w; w_next_id := w_next_id w |}.

Definition w_add_log (l : level) (msg : string) (w : World) : World :=
  {| w_tick := w_tick w; w_trace := w_trace w;
     w_log := w_log w ++ [(l, msg)]; w_rows := w_rows w;
     w_next_id := w_next_id w |}.

Definition w_add_row (t : Z) (data : email_content) (w : World) : World :=
  {| w_tick := w_tick w; w_trace := w_trace w; w_log := w_log w;
     w_rows := w_rows w ++ [{| row_id := w_next_id w; row_date := t;
                               row_data := data |}];
     w_next_id := (w_next_id w + 1)%Z |}.

(** [option exn] as the outcome of a call made for its effect. *)
Definition check (o : option exn) : outcome exn unit :=
  match o with None => Ok tt | Some e => Raise e end.

(** Rows in the order [order('date.desc')] asks for: newest first. *)
Definition newer_or_equal (r1 r2 : Row) : Prop := (row_date r2 ≤ row_date r1)%Z.

#[export] Instance newer_or_equal_dec : RelDecision newer_or_equal.
Proof. intros r1 r2. unfold newer_or_equal. apply _. Defined.

Abbreviation Py := (M World exn).

Section primitives.
Context `{Env}.

(** One external call: ask the environment, record the request. *)
Definition call {A} (ev : event) (answer : nat → outcome exn A) : Py A :=
  λ w, (answer (w_tick w), w_record ev w).

(** [logger.<level>(msg)] *)
Definition logger (l : level) (msg : string) : Py unit :=
  modify (λ w, if enabled l then w_add_log l msg w else w).

(** [datetime.now(utc)] *)
Definition datetime_now_utc : Py datetime :=
  λ w, (Ok (now utc (env_now (w_tick w))), w_tick_only w).

(** [str(e)] *)
Definition str_exn (e : exn) : string := exn_str env_http_str e.

(** [MailBox(host).login(username, password, initial_folder=folder)] *)
Definition MailBox_login (host username password folder : string) : Py unit :=
  call (EvConnect host) (λ n, check (env_connect n host)) ;;
  call (EvLogin username password folder)
       (λ n, check (env_login n username password folder)).

(** [MailBox.__exit__]: [self.logout()] *)
Definition MailBox_exit : Py unit :=
  call EvLogout (λ n, check (env_logout n)).

(** [mailbox.fetch(criteria=c)], as the messages its iteration yields and
    the exception that ends it. *)
Definition mailbox_fetch (c : criteria) : Py fetch_result :=
  call (EvFetch c) (λ n, Ok (env_fetch n c)).

(** [groq_client.chat.completions.create] with the keyword arguments [req] *)
Definition chat_completions_create (req : chat_request) : Py chat_completion :=
  call (EvChat req) (λ n, env_chat n req).

(** [supabase.table(table).insert(data).execute()] *)
Definition table_insert (table : string) (data : email_content) : Py unit :=
  t <- call (EvInsert table data) (λ n, env_insert n table data) ;;
  modify (w_add_row t data).

(** [supabase.table(table).select("*").order(order).execute().data] *)
Definition table_select_order (table order : string) : Py (list Row) :=
  call (EvSelect table "*" (Some order) None) (λ n, check (env_select n table)) ;;
  gets (λ w, merge_sort newer_or_equal (w_rows w)).

(** [supabase.table(table).select("*").limit(1).execute()] *)
Definition table_select_limit (table : string) (n : Z) : Py unit :=
  call (EvSelect table "*" None (Some n)) (λ k, check (env_select k table)).
End primitives.

(** ** Rules for the primitives *)

Section primitive_rules.
Context `{Env}.
Implicit Types (w : World) (Q : unit → World → Prop) (R : exn → World → Prop).

Lemma wp_call {A} ev (answer : nat → outcome exn A) (Q : A → World → Prop) R w :
  wp (call ev answer) Q R w
  ↔ match answer (w_tick w) with
    | Ok a => Q a (w_record ev w)
    | Raise e => R e (w_record ev w)
    end.
Proof. unfold wp, call. by destruct (answer _). Qed.

Lemma wp_logger l msg Q R w :
  wp (logger l msg) Q R w ↔ Q tt (if enabled l then w_add_log l msg w else w).
Proof. done. Qed.

Lemma wp_datetime_now_utc (Q : datetime → World → Prop) R w :
  wp datetime_now_utc Q R w ↔ Q (now utc (env_now (w_tick w))) (w_tick_only w).
Proof. done. Qed.

Lemma check_ok_iff o : check o = Ok tt ↔ o = None.
Proof. destruct o; naive_solver. Qed.
End primitive_rules.

#[export] Hint Rewrite @wp_call @wp_logger @wp_datetime_now_utc : wp.

(** ** Projections of the trace *)

Definition is_chat (ev : event) : bool :=
  match ev with EvChat _ => true | _ => false end.

Definition is_insert (ev : event) : bool :=
  match ev with EvInsert _ _ => true | _ => false end.

Definition is_imap (ev : event) : bool :=
  match ev with
  | EvConnect _ | EvLogin _ _ _ | EvFetch _ | EvLogout => true
  | _ => false
  end.

(** The requests sent to the chat API, in order. *)
Definition chat_requests (t : list event) : list chat_request :=
  omap (λ ev, match ev with EvChat r => Some r | _ => None end) t.

(** The records sent to the store, in order. *)
Definition insert_requests (t : list event) : list email_content :=
  omap (λ ev, match ev with EvInsert _ d => Some d | _ => None end) t.

(** The calls made to the mailbox, in order. *)
Definition imap_calls (t : list event) : list event :=
  filter (λ ev, is_imap ev = true) t.

(** [grows w evs w']: from [w] to [w'] the external calls [evs] were made,
    in this order, and the table was left as it was. *)
Definition grows (w : World) (evs : list event) (w' : World) : Prop :=
  w_trace w' = w_trace w ++ evs
  ∧ w_rows w' = w_rows w ∧ w_next_id w' = w_next_id w.

Section world_lemmas.
Implicit Types w : World.

Lemma grows_refl w : grows w [] w.
Proof. unfold grows. by rewrite app_nil_r. Qed.

Lemma grows_trans w1 w2 w3 evs1 evs2 :
  grows w1 evs1 w2 → grows w2 evs2 w3 → grows w1 (evs1 ++ evs2) w3.
Proof.
  unfold grows. intros (->&->&->) (->&->&->). by rewrite app_assoc.
Qed.

Lemma grows_record ev w : grows w [ev] (w_record ev w).
Proof. done. Qed.

Lemma grows_tick_only w evs w' : grows (w_tick_only w) evs w' ↔ grows w evs w'.
Proof. done. Qed.

Lemma grows_add_log_l l msg w evs w' :
  grows (w_add_log l msg w) evs w' ↔ grows w evs w'.
Proof. done. Qed.

Lemma grows_add_log_r l msg w evs w' :
  grows w evs (w_add_log l msg w') ↔ grows w evs w'.
Proof. done. Qed.

Lemma grows_logged_l l msg w evs w' :
  grows (if enabled l then w_add_log l msg w else w) evs w' ↔ grows w evs w'.
Proof. by destruct (enabled l). Qed.

Lemma grows_logged_r l msg w evs w' :
  grows w evs (if enabled l then w_add_log l msg w' else w') ↔ grows w evs w'.
Proof. by destruct (enabled l). Qed.

Lemma grows_snoc ev w evs w' :
  grows w evs w' → grows w (evs ++ [ev]) (w_record ev w').
Proof. intros. eapply grows_trans; [done|apply grows_record]. Qed.

Lemma grows_cons ev w evs w' :
  grows (w_record ev w) evs w' ↔ grows w (ev :: evs) w'.
Proof. unfold grows. simpl. by rewrite <-app_assoc. Qed.

Lemma chat_requests_app t1 t2 :
  chat_requests (t1 ++ t2) = chat_requests t1 ++ chat_requests t2.
Proof. apply omap_app. Qed.

Lemma insert_requests_app t1 t2 :
  insert_requests (t1 ++ t2) = insert_requests t1 ++ insert_requests t2.
Proof. apply omap_app. Qed.

Lemma insert_requests_inserts table rs :
  insert_requests (EvInsert table <$> rs) = rs.
Proof. induction rs as [|r rs IH]; [done|]. csimpl. by f_equal. Qed.

Lemma imap_calls_cons ev t :
  imap_calls (ev :: t) = if is_imap ev then ev :: imap_calls t else imap_calls t.
Proof.
  unfold imap_calls. destruct (is_imap ev) eqn:He.
  - by rewrite filter_cons_True.
  - rewrite filter_cons_False; [done|]. by rewrite He.
Qed.

Lemma imap_calls_app t1 t2 : imap_calls (t1 ++ t2) = imap_calls t1 ++ imap_calls t2.
Proof. apply filter_app. Qed.
End world_lemmas.

(** ** Invariants of the table

    [Stable P]: [P] speaks about the table only, so a step that leaves the
    rows and the next identifier alone preserves it. *)
Class Stable (P : World → Prop) : Prop :=
  stable w w' : w_rows w' = w_rows w → w_next_id w' = w_next_id w → P w → P w'.

(** The identifiers of the rows are distinct and below the next one. *)
Definition store_wf (w : World) : Prop :=
  Forall (λ r, (row_id r < w_next_id w)%Z) (w_rows w)
  ∧ NoDup (row_id <$> w_rows w).

#[export] Instance store_wf_stable : Stable store_wf.
Proof. intros w w'. unfold store_wf. by intros -> ->. Qed.

(** [Growing P]: [P] speaks about the table only and survives the
    insertion of a row under the next identifier. *)
Class Growing (P : World → Prop) : Prop := {
  growing_stable :: Stable P;
  growing_add_row t data w : P w → P (w_add_row t data w);
}.

(** The rows [rows] are still there, in their place. *)
Definition keeps_rows (rows : list Row) (w : World) : Prop :=
  rows `prefix_of` w_rows w.

#[export] Instance keeps_rows_growing rows : Growing (keeps_rows rows).
Proof.
  split; [intros w w'; unfold keeps_rows; by intros -> _|].
  intros t data w Hw. unfold keeps_rows. simpl. by apply prefix_app_r.
Qed.

Section stable_rules.
Context `{Env} (P : World → Prop) `{!Stable P}.

Lemma preserves_call {A} ev (answer : nat → outcome exn A) :
  preserves P (call ev answer).
Proof. intros w Hw. apply wp_call. destruct (answer _); by apply (stable w). Qed.

Lemma preserves_logger l msg : preserves P (logger l msg).
Proof. intros w Hw. apply wp_logger. destruct (enabled l); by apply (stable w). Qed.

Lemma preserves_datetime_now_utc : preserves P datetime_now_utc.
Proof. intros w Hw. unfold wp, datetime_now_utc. by apply (stable w). Qed.

Lemma preserves_MailBox_login host u p f : preserves P (MailBox_login host u p f).
Proof. apply preserves_bind; intros; apply preserves_call. Qed.

Lemma preserves_MailBox_exit : preserves P MailBox_exit.
Proof. apply preserves_call. Qed.

Lemma preserves_mailbox_fetch c : preserves P (mailbox_fetch c).
Proof. apply preserves_call. Qed.

Lemma preserves_chat_completions_create req :
  preserves P (chat_completions_create req).
Proof. apply preserves_call. Qed.

Lemma preserves_table_select_order table order :
  preserves P (table_select_order table order).
Proof. apply preserves_bind; intros; [apply preserves_call|apply preserves_gets]. Qed.

Lemma preserves_table_select_limit table n :
  preserves P (table_select_limit table n).
Proof. apply preserves_call. Qed.
End stable_rules.

#[export] Hint Resolve store_wf_stable preserves_call preserves_logger preserves_datetime_now_utc
  preserves_MailBox_login preserves_MailBox_exit preserves_mailbox_fetch
  preserves_chat_completions_create preserves_table_select_order
  preserves_table_select_limit : py.

(** ** A reference mailbox

    A mailbox as the list of its messages, each with the address of its
    sender and the time it was filed under, and the search an IMAP server
    runs on it. *)
Definition mailbox : Type := list (string * Z * MailMessage).

(** [SEARCH FROM sender SINCE day]: by the day a message was filed under,
    not the time. *)
Definition imap_search (box : mailbox) (c : criteria) : list MailMessage :=
  omap (λ '(sender, arrived, m),
          if bool_decide (sender = from_ c)
             && bool_decide (date_gte c ≤ arrived / US_PER_DAY)%Z
          then Some m else None) box.

(** The messages of [box] from [sender], of any day. *)
Definition from_sender (sender : string) (box : mailbox) : list MailMessage :=
  omap (λ '(s, _, m), if bool_decide (s = sender) then Some m else None) box.

(** A message is not filed under a time before the calendar fields of its
    [Date] header. *)
Definition filed_after_sent (e : string * Z * MailMessage) : Prop :=
  ∀ d, msg_date e.2 = Ok d → (wall d ≤ e.1.2)%Z.

(** The [Date] header of a message is a date of the years 1 to 9999, as
    every [datetime] of Python is. *)
Definition dated_in_range (e : string * Z * MailMessage) : Prop :=
  ∀ d, msg_date e.2 = Ok d → in_range (wall d) = true.

Lemma imap_search_cons s arrived m (box : mailbox) c :
  imap_search ((s, arrived, m) :: box) c
  = (if bool_decide (s = from_ c)
        && bool_decide (date_gte c ≤ arrived / US_PER_DAY)%Z
     then [m] else []) ++ imap_search box c.
Proof. unfold imap_search. csimpl. by destruct (_ && _). Qed.

Lemma from_sender_cons s arrived m (box : mailbox) sender :
  from_sender sender ((s, arrived, m) :: box)
  = (if bool_decide (s = sender) then [m] else []) ++ from_sender sender box.
Proof. unfold from_sender. csimpl. by destruct (bool_decide _). Qed.

Lemma imap_search_subseteq (box : mailbox) c : imap_search box c ⊆ box.*2.
Proof.
  intros m. unfold imap_search. rewrite list_elem_of_omap, list_elem_of_fmap.
  intros ([[s a] m'] & Hin & Hm). exists (s, a, m'). by case_match; simplify_eq.
Qed.

Lemma from_sender_subseteq sender (box : mailbox) : from_sender sender box ⊆ box.*2.
Proof.
  intros m. unfold from_sender. rewrite list_elem_of_omap, list_elem_of_fmap.
  intros ([[s a] m'] & Hin & Hm). exists (s, a, m'). by case_match; simplify_eq.
Qed.

(** ** What a handler can observe

    [same_view w1 w2]: the worlds agree on everything but the password of
    the logins recorded in the trace.  Runs of a handler from two such
    worlds agree, and end in two such worlds. *)

(** The event with the password of a login blanked. *)
Definition mask_password (ev : event) : event :=
  match ev with
  | EvLogin username _ folder => EvLogin username "" folder
  | _ => ev
  end.

Definition same_view (w1 w2 : World) : Prop :=
  w_tick w1 = w_tick w2 ∧ w_log w1 = w_log w2
  ∧ w_rows w1 = w_rows w2 ∧ w_next_id w1 = w_next_id w2
  ∧ mask_password <$> w_trace w1 = mask_password <$> w_trace w2.

#[export] Instance same_view_equiv : Equivalence same_view.
Proof.
  unfold same_view. split.
  - by intros w.
  - by intros w1 w2 (-> & -> & -> & -> & ->).
  - by intros w1 w2 w3 (-> & -> & -> & -> & ->).
Qed.

(** What the view shows is a function of the view: the clock, the log and
    the table are read off it, and a log record or a row added to two
    worlds with the same view leaves them with the same view. *)
#[export] Instance w_tick_proper : Proper (same_view ==> (=)) w_tick.
Proof. by intros w1 w2 (? & _). Qed.

#[export] Instance w_log_proper : Proper (same_view ==> (=)) w_log.
Proof. by intros w1 w2 (_ & ? & _). Qed.

#[export] Instance w_rows_proper : Proper (same_view ==> (=)) w_rows.
Proof. by intros w1 w2 (_ & _ & ? & _). Qed.

#[export] Instance w_next_id_proper : Proper (same_view ==> (=)) w_next_id.
Proof. by intros w1 w2 (_ & _ & _ & ? & _). Qed.

#[export] Instance w_add_log_proper l msg :
  Proper (same_view ==> same_view) (w_add_log l msg).
Proof.
  intros w1 w2 (Ht & Hl & Hr & Hn & Htr). unfold same_view. simpl.
  by rewrite Ht, Hl, Hr, Hn, Htr.
Qed.

#[export] Instance w_add_row_proper t data :
  Proper (same_view ==> same_view) (w_add_row t data).
Proof.
  intros w1 w2 (Ht & Hl & Hr & Hn & Htr). unfold same_view. simpl.
  by rewrite Ht, Hl, Hr, Hn, Htr.
Qed.

Section sim_primitives.
Context `{Env}.

(** Two calls that are answered alike and differ at most in a password. *)
Lemma sim_call {A} ev1 ev2 (answer1 answer2 : nat → outcome exn A) :
  (∀ n, answer1 n = answer2 n) → mask_password ev1 = mask_password ev2 →
  sim same_view (call ev1 answer1) (call ev2 answer2).
Proof.
  intros Ha Hev w1 w2 (Ht & Hl & Hr & Hn & Htr). unfold call, same_view. simpl.
  rewrite Ha, Ht, Hl, Hr, Hn, !fmap_app, Htr. simpl. by rewrite Hev.
Qed.

Lemma sim_logger l msg : sim same_view (logger l msg) (logger l msg).
Proof.
  apply sim_modify. intros w1 w2 Hw. destruct (enabled l); [|done].
  by rewrite Hw.
Qed.

Lemma sim_datetime_now_utc : sim same_view datetime_now_utc datetime_now_utc.
Proof.
  intros w1 w2 (Ht & Hl & Hr & Hn & Htr). unfold datetime_now_utc, same_view.
  simpl. by rewrite Ht, Hl, Hr, Hn, Htr.
Qed.

(** The password is an argument of the login and of nothing else. *)
Lemma sim_MailBox_login host username password1 password2 folder :
  (∀ n, env_login n username password1 folder
        = env_login n username password2 folder) →
  sim same_view (MailBox_login host username password1 folder)
    (MailBox_login host username password2 folder).
Proof.
  intros Hl. apply sim_bind; [by apply sim_call|]. intros _.
  apply sim_call; [|done]. intros n. by rewrite Hl.
Qed.

Lemma sim_table_select_order table order :
  sim same_view (table_select_order table order) (table_select_order table order).
Proof.
  apply sim_bind; [by apply sim_call|]. intros _. apply sim_gets.
  intros w1 w2 Hw. by rewrite Hw.
Qed.
End sim_primitives.

(** [Blind R]: no primitive tells two worlds related by [R] apart, and each
    leaves them related.  A handler built from the primitives then does not
    observe what [R] ignores: the rules of [Prelude.sim] carry the four
    facts through its structure. *)
Class Blind `{Env} (R : relation World) : Prop := {
  blind_call {A} ev (answer : nat → outcome exn A) :
    sim R (call ev answer) (call ev answer);
  blind_logger l msg : sim R (logger l msg) (logger l msg);
  blind_datetime_now_utc : sim R datetime_now_utc datetime_now_utc;
  blind_add_row t data :
    sim R (modify (w_add_row t data) : Py unit) (modify (w_add_row t data));
}.

#[export] Instance same_view_blind `{Env} : Blind same_view.
Proof.
  split; intros.
  - by apply sim_call.
  - apply sim_logger.
  - apply sim_datetime_now_utc.
  - apply sim_modify. intros w1 w2 Hw. by rewrite Hw.
Qed.

Section blind_rules.
Context `{Env} (R : relation World) `{!Blind R}.

Lemma sim_MailBox_exit : sim R MailBox_exit MailBox_exit.
Proof. apply blind_call. Qed.

Lemma sim_mailbox_fetch c : sim R (mailbox_fetch c) (mailbox_fetch c).
Proof. apply blind_call. Qed.

Lemma sim_chat_completions_create req :
  sim R (chat_completions_create req) (chat_completions_create req).
Proof. apply blind_call. Qed.

Lemma sim_table_select_limit table n :
  sim R (table_select_limit table n) (table_select_limit table n).
Proof. apply blind_call. Qed.

Lemma sim_table_insert table data :
  sim R (table_insert table data) (table_insert table data).
Proof. apply sim_bind; [apply blind_call|]. intros t. apply blind_add_row. Qed.
End blind_rules.

#[export] Hint Resolve sim_table_select_order : py.
#[export] Hint Extern 1 (sim _ (call _ _) (call _ _)) => apply blind_call : py.
#[export] Hint Extern 1 (sim _ (logger _ _) _) => apply blind_logger : py.
#[export] Hint Extern 1 (sim _ datetime_now_utc _) =>
  apply blind_datetime_now_utc : py.
#[export] Hint Extern 1 (sim _ MailBox_exit _) => apply sim_MailBox_exit : py.
#[export] Hint Extern 1 (sim _ (mailbox_fetch _) _) => apply sim_mailbox_fetch : py.
#[export] Hint Extern 1 (sim _ (chat_completions_create _) _) =>
  apply sim_chat_completions_create : py.
#[export] Hint Extern 1 (sim _ (table_select_limit _ _) _) =>
  apply sim_table_select_limit : py.
#[export] Hint Extern 1 (sim _ (table_insert _ _) _) => apply sim_table_insert : py.

(** [grows_done]: a [grows] goal between worlds that are written out. *)
Ltac grows_done :=
  unfold grows; simpl; rewrite <- ?app_assoc, ?app_nil_r; done.

#[export] Hint Resolve grows_refl grows_record : py.
#[export] Hint Rewrite grows_tick_only grows_add_log_l grows_add_log_r
  grows_logged_l grows_logged_r grows_cons : py.
#[export] Hint Rewrite chat_requests_app insert_requests_app imap_calls_app : py.
