(* ===== verification/Store.v ===== *)
(** * What the store promises about the column [date]

    The schema the probe logs declares [date timestamp with time zone]
    (line 59 of [src/app/main.py]); the handlers send the column as the text
    [isoformat] wrote (line 140) and [GET /emails] asks for the rows ordered
    by it (line 220).  What the store does with the text is the store's
    business; the handlers rely on one promise only, stated here as the class
    [StoreReadsIso]: a row that was accepted is kept under the instant its
    text denotes.

    - [read_timestamptz] reads a text the way the column does: ISO 8601, a
      text without offset taken in the time zone of the session, UTC.
    - [pg_insert] is a store that accepts exactly the records whose date it
      can read; [PgStore] says that the environment's store is this one.
    - [StoreReadsIso] is the interface the theorems of [Pipeline] are proved
      against; [pg_store_reads_iso] discharges it for [pg_insert].
    - [DatesInRange] says that the messages of the mailbox carry dates a
      [datetime] can hold. *)

From S2P Require Import Prelude PyStr PyVal DateTime.
From S2P Require Import Iso World.

Local Open Scope Z_scope.

(** Reading the text of a [timestamp with time zone]. *)
Definition read_timestamptz (s : string) : option Z :=
  instant <$> fromisoformat s.

(** [insert(data)] on a table with the schema of lines 54-63, with nothing
    else in the way: the row is stored when the date can be read. *)
Definition pg_insert (data : email_content) : outcome exn Z :=
  match read_timestamptz (date data) with
  | Some t => Ok t
  | None =>
      Raise (Exception ("invalid input syntax for type timestamp with time zone: "
                        +:+ date data))
  end.

(** The promise: an accepted row is kept under the instant of its [date]. *)
Class StoreReadsIso `{Env} : Prop :=
  insert_reads_date n table data t :
    env_insert n table data = Ok t → read_timestamptz (date data) = Some t.

(** The store of the environment is [pg_insert], at every interaction. *)
Class PgStore `{Env} : Prop :=
  insert_is_pg n table data : env_insert n table data = pg_insert data.

(** Every message the mailbox returns carries a date of the years 1 to
    9999, as every [datetime] of Python does. *)
Class DatesInRange `{Env} : Prop :=
  fetched_in_range n c m d :
    m ∈ (env_fetch n c).1 → msg_date m = Ok d → in_range (wall d) = true.

Section store.
Context `{Env}.
Implicit Types (d : datetime) (data : email_content) (t : Z).

Lemma read_timestamptz_isoformat d :
  dt_valid d = true → read_timestamptz (isoformat d) = Some (instant d).
Proof.
  intros Hv. unfold read_timestamptz, fromisoformat.
  by rewrite p_datetime_isoformat.
Qed.

(** A date taken as UTC is read back as its calendar fields. *)
Lemma read_timestamptz_utc d :
  in_range (wall d) = true →
  read_timestamptz (isoformat (replace_tzinfo d utc)) = Some (wall d).
Proof.
  intros Hr. rewrite read_timestamptz_isoformat, instant_replace_tzinfo; [done|].
  unfold dt_valid. simpl. by rewrite Hr.
Qed.

Lemma pg_insert_isoformat data d :
  date data = isoformat d → dt_valid d = true → pg_insert data = Ok (instant d).
Proof.
  intros Hd Hv. unfold pg_insert. by rewrite Hd, read_timestamptz_isoformat.
Qed.

#[export] Instance pg_store_reads_iso `{!PgStore} : StoreReadsIso.
Proof.
  intros n table data t. rewrite insert_is_pg. unfold pg_insert.
  destruct (read_timestamptz _); naive_solver.
Qed.

(** A server that searches a mailbox of dated messages returns dated
    messages. *)
Lemma box_dates_in_range (box : mailbox) :
  Forall dated_in_range box →
  (∀ n c, (env_fetch n c).1 ⊆ box.*2) → DatesInRange.
Proof.
  rewrite Forall_forall. intros Hbox Hfetch n c m d Hm.
  apply Hfetch, list_elem_of_fmap in Hm as (e & -> & He). by apply Hbox.
Qed.

(** What an accepted row is kept under, when its date was printed by
    [isoformat]. *)
Lemma stored_instant `{!StoreReadsIso} n table data d t :
  env_insert n table data = Ok t → date data = isoformat d →
  dt_valid d = true → t = instant d.
Proof.
  intros Hins%insert_reads_date Hd Hv.
  rewrite Hd, read_timestamptz_isoformat in Hins by done. congruence.
Qed.
End store.
