(* ===== verification/Scenario.v ===== *)
(** * A concrete environment

    One mailbox, one chat API and one store, fixed, so that the theorems of
    the component files can be applied to inputs that evaluate.  It is an
    instance of [World.Env]; nothing in the theorems depends on it.

    The clock reads 2024-03-10T12:00:00 UTC at tick 0 and advances one second
    per tick.  The mailbox holds six messages from four senders: fresh ones,
    one that is 27 hours old but of the cut-off's calendar day, one with an
    empty plain body, one whose body cannot be decoded, and two whose [Date]
    header carries an offset other than UTC.  The mailbox answers a search
    as an IMAP server does, by sender and by day of arrival.  The store
    reads the column [date] as [Store.pg_insert] does and refuses the
    records with subject [Newsletter]; [pg_env] is the same environment with
    a store that refuses nothing it can read. *)

From S2P Require Import Prelude PyStr PyVal DateTime.
From S2P Require Import Iso World Store.
From stdpp Require Import pretty.
From Stdlib Require Import Ascii.

Local Open Scope Z_scope.

(** A message all of whose attributes can be read. *)
Definition plain_message (subj frm : string) (to : list string)
    (d : datetime) (txt htm : string) : MailMessage :=
  {| msg_subject := Ok subj; msg_from_ := Ok frm; msg_to := Ok to;
     msg_date := Ok d; msg_text := Ok txt; msg_html := Ok htm |}.

Definition hours (n : Z) : Z := n * US_PER_HOUR.

Definition m_fresh : MailMessage :=
  plain_message "Lunch" "Alice <alice@example.com>" ["me@example.com"]
    (mk_dt 2024 3 10 10 0 0 (Some utc)) "hello" "<p>hello</p>".

Definition m_stale : MailMessage :=
  plain_message "Old news" "Alice <alice@example.com>" ["me@example.com"]
    (mk_dt 2024 3 9 9 0 0 (Some utc)) "yesterday morning" "".

Definition m_html_only : MailMessage :=
  plain_message "Newsletter" "bob@example.com"
    ["me@example.com"; "you@example.com"]
    (mk_dt 2024 3 10 8 0 0 (Some utc)) "" "<b>hi</b>".

Definition m_broken : MailMessage :=
  {| msg_subject := Ok "Broken"; msg_from_ := Ok "bob@example.com";
     msg_to := Ok ["me@example.com"];
     msg_date := Ok (mk_dt 2024 3 10 9 0 0 (Some utc));
     msg_text := Raise (Exception "unknown encoding: x-unknown");
     msg_html := Ok "" |}.

(** Sent at 09:00 UTC on March 9th (27 hours before the clock), written with
    offset +05:00 as 14:00. *)
Definition m_east : MailMessage :=
  plain_message "From the east" "carol@example.com" ["me@example.com"]
    (mk_dt 2024 3 9 14 0 0 (Some (hours 5))) "east" "".

(** Sent at 14:00 UTC on March 9th (22 hours before the clock), written with
    offset -08:00 as 06:00. *)
Definition m_west : MailMessage :=
  plain_message "From the west" "dave@example.com" ["me@example.com"]
    (mk_dt 2024 3 9 6 0 0 (Some (hours (-8)))) "west" "".

(** The mailbox: each message with its sender's address and its arrival
    time at the server. *)
Definition inbox : mailbox :=
  [ ("alice@example.com", wall (mk_dt 2024 3 10 10 0 0 None), m_fresh);
    ("alice@example.com", wall (mk_dt 2024 3 9 9 0 0 None), m_stale);
    ("bob@example.com", wall (mk_dt 2024 3 10 8 0 0 None), m_html_only);
    ("bob@example.com", wall (mk_dt 2024 3 10 9 0 0 None), m_broken);
    ("carol@example.com", wall (mk_dt 2024 3 9 9 0 0 None), m_east);
    ("dave@example.com", wall (mk_dt 2024 3 9 14 0 0 None), m_west) ].

Definition clock0 : Z := wall (mk_dt 2024 3 10 12 0 0 None).

Definition demo_env : Env := {|
  env_now n := clock0 + Z.of_nat n * US_PER_SECOND;
  env_connect _ _ := None;
  env_login _ _ password _ :=
    if decide (password = "app-password") then None
    else Some (Exception "[AUTHENTICATIONFAILED] Invalid credentials (Failure)");
  env_fetch _ c := (imap_search inbox c, None);
  env_logout _ := None;
  env_chat n req :=
    if decide (n = 9)%nat then Raise (Exception "Rate limit reached")
    else Ok ["Summary " +:+ pretty n];
  env_insert n _ data :=
    if decide (subject data = "Newsletter")
    then Raise (Exception "new row violates row-level security policy")
    else pg_insert data;
  env_select _ _ := None;
  env_http_str c _ := pretty c;
|}.

#[local] Existing Instance demo_env.

(** An environment whose chat API always answers with no choice. *)
Definition silent_env : Env := {|
  env_now := env_now; env_connect := env_connect; env_login := env_login;
  env_fetch := env_fetch; env_logout := env_logout;
  env_chat _ _ := Ok [];
  env_insert := env_insert; env_select := env_select;
  env_http_str := env_http_str;
|}.

(** The mailbox without the messages whose [Date] header carries an offset,
    and an environment that serves it. *)
Definition inbox_utc : mailbox := take 4 inbox.

Definition utc_env : Env := {|
  env_now := env_now; env_connect := env_connect; env_login := env_login;
  env_fetch _ c := (imap_search inbox_utc c, None);
  env_logout := env_logout; env_chat := env_chat;
  env_insert := env_insert; env_select := env_select;
  env_http_str := env_http_str;
|}.

(** The environment of [utc_env] with a store that accepts every record
    whose date it can read. *)
Definition pg_env : Env := {|
  env_now := env_now; env_connect := env_connect; env_login := env_login;
  env_fetch _ c := (imap_search inbox_utc c, None);
  env_logout := env_logout; env_chat := env_chat;
  env_insert _ _ data := pg_insert data; env_select := env_select;
  env_http_str := env_http_str;
|}.

(** An environment whose store cannot be reached. *)
Definition offline_env : Env := {|
  env_now := env_now; env_connect := env_connect; env_login := env_login;
  env_fetch := env_fetch; env_logout := env_logout; env_chat := env_chat;
  env_insert _ _ _ := Raise (Exception "Connection refused");
  env_select _ _ := Some (Exception "Connection refused");
  env_http_str := env_http_str;
|}.

(** The world before anything happened. *)
Definition world0 : World :=
  {| w_tick := 0; w_trace := []; w_log := []; w_rows := []; w_next_id := 1 |}.

(** The same world after [n] interactions whose effects are not of
    interest. *)
Definition world_at (n : nat) : World :=
  {| w_tick := n; w_trace := []; w_log := []; w_rows := []; w_next_id := 1 |}.

(** A record as line 136 builds it, for exercising the summarizer alone. *)
Definition ec_lunch : email_content :=
  {| subject := "Lunch"; from_address := "Alice <alice@example.com>";
     to_address := "me@example.com"; date := "2024-03-10T10:00:00+00:00";
     text := "hello"; extracted_at := "2024-03-10T12:00:04+00:00";
     summary := None |}.

(** The same record with a body of 2000 characters followed by [tail]. *)
Definition ec_long (tail : string) : email_content :=
  {| subject := "Lunch"; from_address := "Alice <alice@example.com>";
     to_address := "me@example.com"; date := "2024-03-10T10:00:00+00:00";
     text := str_repeat "a" 2000 +:+ tail;
     extracted_at := "2024-03-10T12:00:04+00:00"; summary := None |}.

(** ** The environments keep the promises of [Store] *)

Lemma demo_store_reads_iso : @StoreReadsIso demo_env.
Proof.
  intros n table data t. simpl. case_decide; [done|]. unfold pg_insert.
  destruct (read_timestamptz _); naive_solver.
Qed.

Lemma pg_env_store : @PgStore pg_env.
Proof. by intros n table data. Qed.

Lemma inbox_dated : Forall dated_in_range inbox.
Proof. repeat constructor; by intros d [= <-]. Qed.

Lemma demo_dates_in_range : @DatesInRange demo_env.
Proof.
  apply (box_dates_in_range inbox inbox_dated). intros n c.
  apply imap_search_subseteq.
Qed.

Lemma pg_env_dates_in_range : @DatesInRange pg_env.
Proof.
  apply (box_dates_in_range inbox inbox_dated). intros n c.
  change (imap_search inbox_utc c ⊆ inbox.*2).
  etrans; [apply imap_search_subseteq|]. intros m. rewrite !list_elem_of_fmap.
  intros (e & -> & He). exists e. split; [done|]. by eapply subseteq_take.
Qed.
