(* ===== verification/Summarizer.v ===== *)
(** * The summarizer: [summarize_single_email] (lines 71-101)

    The function shapes a prompt from four fields of the record, logs one
    line, sends one chat request and returns the text of the first choice.
    Its whole body is inside [try ... except Exception], whose handler logs
    the error and returns the fixed string ["Failed to generate summary"].

    Theorems: the function returns on every path ([summarize_never_raises]);
    what it returns when the API answers, fails or answers with no choice;
    the prompt holds at most 2000 characters of the body and the call does
    not depend on the rest; one request is sent per call, whatever the
    outcome.  The function preserves every property of the table and does
    not read the trace. *)

From S2P Require Import Prelude PyStr PyVal DateTime World Scenario.
From Stdlib Require QArith_base.

Local Open Scope py_scope.

(** [email_text] (lines 74-79) *)
Definition email_text (ec : email_content) : string :=
  "Subject: " +:+ subject ec +:+ nl
  +:+ "From: " +:+ from_address ec +:+ nl
  +:+ "Date: " +:+ date ec +:+ nl
  +:+ "Content: " +:+ str_take 2000 (text ec) +:+ "...".

(** The system message (lines 84-87) *)
Definition system_content : string :=
  "You are a helpful assistant that summarizes emails. Provide a concise summary of the key points and any important action items. Keep the summary under 200 words.".

(** The user message (lines 88-91) *)
Definition user_content (email_text : string) : string :=
  "Please provide a brief summary of this email:" +:+ nl +:+ email_text.

(** The keyword arguments of [chat.completions.create] (lines 82-96) *)
Definition completion_request (email_text : string) : chat_request :=
  {| messages := [ {| role := "system"; content := system_content |};
                   {| role := "user"; content := user_content email_text |} ];
     model := "mixtral-8x7b-32768";
     temperature := QArith_base.Qmake 1 2;
     max_tokens := 200 |}.

(** [chat_completion.choices[0].message.content] (line 98); indexing an empty
    list raises [IndexError]. *)
Definition first_choice (c : chat_completion) : outcome exn string :=
  match c with
  | x :: _ => Ok x
  | [] => Raise (Exception "list index out of range")
  end.

(** The string returned by the handler (line 101) *)
Definition FAILED_SUMMARY : string := "Failed to generate summary".

Section summarizer.
Context `{Env}.

(** [summarize_single_email] (lines 71-101) *)
Definition summarize_single_email (ec : email_content) : Py string :=
  try_except
    (let email_text := email_text ec in
     logger INFO ("Generating summary for email: "
                  +:+ str_take 30 (subject ec) +:+ "...") ;;
     chat_completion <- chat_completions_create (completion_request email_text) ;;
     lift (first_choice chat_completion))
    (λ e,
       logger ERROR ("Failed to generate summary for email: " +:+ str_exn e) ;;
       ret FAILED_SUMMARY).

(** ** What one call does, as a function of the API's answer *)

(** The world after the log line and the request have been issued. *)
Definition after_request (ec : email_content) (w : World) : World :=
  w_record (EvChat (completion_request (email_text ec)))
    (w_add_log INFO ("Generating summary for email: "
                     +:+ str_take 30 (subject ec) +:+ "...") w).

(** The world after the handler has logged [e]. *)
Definition after_failure (ec : email_content) (e : exn) (w : World) : World :=
  w_add_log ERROR ("Failed to generate summary for email: " +:+ str_exn e)
    (after_request ec w).

(** The answer the API gives to the request of this call. *)
Definition api_answer (ec : email_content) (w : World) : outcome exn string :=
  match env_chat (w_tick w) (completion_request (email_text ec)) with
  | Ok c => first_choice c
  | Raise e => Raise e
  end.

Lemma summarize_run ec w :
  summarize_single_email ec w
  = match api_answer ec w with
    | Ok s => (Ok s, after_request ec w)
    | Raise e => (Ok FAILED_SUMMARY, after_failure ec e w)
    end.
Proof.
  unfold summarize_single_email, api_answer, try_except, bind,
    chat_completions_create, call, logger, modify, lift. simpl.
  destruct (env_chat _ _) as [[|c cs]|e]; done.
Qed.

Lemma wp_summarize ec (Q : string → World → Prop) (R : exn → World → Prop) w :
  wp (summarize_single_email ec) Q R w
  ↔ match api_answer ec w with
    | Ok s => Q s (after_request ec w)
    | Raise e => Q FAILED_SUMMARY (after_failure ec e w)
    end.
Proof. unfold wp. rewrite summarize_run. by destruct (api_answer ec w). Qed.

(** The result of a call as a pair: the summary and the world after. *)
Definition summarize_result (ec : email_content) (w : World) : string * World :=
  match api_answer ec w with
  | Ok s => (s, after_request ec w)
  | Raise e => (FAILED_SUMMARY, after_failure ec e w)
  end.

Lemma summarize_eq ec w :
  summarize_single_email ec w
  = (Ok (summarize_result ec w).1, (summarize_result ec w).2).
Proof. rewrite summarize_run. unfold summarize_result. by destruct (api_answer ec w). Qed.

(** The summary of [ec] when the API is asked at tick [n]: its first choice,
    or the sentinel. *)
Definition summary_at (n : nat) (ec : email_content) : string :=
  match obind (env_chat n (completion_request (email_text ec))) first_choice with
  | Ok s => s
  | Raise _ => FAILED_SUMMARY
  end.

Lemma summarize_result_summary ec w :
  (summarize_result ec w).1 = summary_at (w_tick w) ec.
Proof.
  unfold summarize_result, summary_at, api_answer, obind.
  by destruct (env_chat _ _) as [c|]; [destruct (first_choice c)|].
Qed.

Lemma summarize_grows ec w :
  grows w [EvChat (completion_request (email_text ec))] (summarize_result ec w).2.
Proof. unfold summarize_result. by destruct (api_answer ec w). Qed.

Lemma email_text_set_summary ec s : email_text (set_summary ec s) = email_text ec.
Proof. done. Qed.

(** ** Properties *)

(** C3: [summarize_single_email] never raises.  Whatever the record
    and whatever the chat API does (an answer, an answer with no choice, any
    exception), the call returns a string: the content of the first choice
    of the answer, or the sentinel ["Failed to generate summary"] when
    there is none.  It has sent exactly one chat request, the one built
    from the record, and has left the table alone. *)
Theorem summarize_never_raises ec w :
  ∃ w', summarize_single_email ec w = (Ok (summary_at (w_tick w) ec), w')
    ∧ grows w [EvChat (completion_request (email_text ec))] w'.
Proof.
  rewrite summarize_eq, summarize_result_summary. eexists. split; [done|].
  apply summarize_grows.
Qed.

(** C36: when the chat API raises [e], the call returns exactly
    ["Failed to generate summary"], and the last log record is the error
    line that carries [str(e)]. *)
Theorem summarize_api_error ec w e :
  env_chat (w_tick w) (completion_request (email_text ec)) = Raise e →
  ∃ w', summarize_single_email ec w = (Ok "Failed to generate summary", w')
    ∧ last (w_log w')
      = Some (ERROR, "Failed to generate summary for email: " +:+ str_exn e).
Proof.
  intros He. rewrite summarize_run. unfold api_answer. rewrite He.
  eexists; split; [done|]. simpl. by rewrite last_snoc.
Qed.

(** When the API answers with an empty list of choices, indexing
    it fails inside the [try], and the call returns the same sentinel. *)
Theorem summarize_no_choice ec w :
  env_chat (w_tick w) (completion_request (email_text ec)) = Ok [] →
  (summarize_single_email ec w).1 = Ok FAILED_SUMMARY.
Proof. intros He. rewrite summarize_run. unfold api_answer. by rewrite He. Qed.

(** When the API answers with at least one choice, the call
    returns the content of the first one verbatim and logs no error: the
    log grows by the one INFO line. *)
Theorem summarize_first_choice ec w c cs :
  env_chat (w_tick w) (completion_request (email_text ec)) = Ok (c :: cs) →
  ∃ w', summarize_single_email ec w = (Ok c, w')
    ∧ w_log w' = w_log w ++ [(INFO, "Generating summary for email: "
                                    +:+ str_take 30 (subject ec) +:+ "...")].
Proof.
  intros He. rewrite summarize_run. unfold api_answer. rewrite He. eauto.
Qed.

(** One call sends exactly one chat request, the one built from
    the record, whether the API answers or fails. *)
Theorem summarize_one_request ec w :
  chat_requests (w_trace (summarize_single_email ec w).2)
  = chat_requests (w_trace w) ++ [completion_request (email_text ec)].
Proof.
  rewrite summarize_run.
  destruct (api_answer ec w); simpl; by rewrite chat_requests_app.
Qed.

End summarizer.

(** ** Invariants of the table

    The summarizer preserves every property of the table. *)
Lemma preserves_summarize `{Env} (P : World → Prop) `{!Stable P} ec :
  preserves P (summarize_single_email ec).
Proof. unfold summarize_single_email. preserves_auto. Qed.


(** The summarizer observes what its primitives observe and nothing else. *)
Lemma sim_summarize `{Env} (R : relation World) `{!Blind R} ec :
  sim R (summarize_single_email ec) (summarize_single_email ec).
Proof. unfold summarize_single_email. sim_auto. Qed.

#[export] Hint Resolve preserves_summarize : py.
#[export] Hint Extern 1 (sim _ (summarize_single_email _) _) =>
  apply sim_summarize : py.

(** The prompt holds the three header fields whole and at most 2000
    characters of the body: its length is 36 characters of fixed text plus
    the lengths of subject, sender and date plus the smaller of 2000 and the
    length of the body. *)
Theorem email_text_length ec :
  String.length (email_text ec)
  = 36 + String.length (subject ec) + String.length (from_address ec)
    + String.length (date ec) + (2000 `min` String.length (text ec)).
Proof.
  unfold email_text. autorewrite with py. simpl. lia.
Qed.

Lemma email_text_prefix ec1 ec2 :
  subject ec1 = subject ec2 → from_address ec1 = from_address ec2 →
  date ec1 = date ec2 →
  str_take 2000 (text ec1) = str_take 2000 (text ec2) →
  email_text ec1 = email_text ec2.
Proof. unfold email_text. by intros -> -> -> ->. Qed.

(** C40: characters of the body beyond the first 2000 are dropped
    silently: for two records that differ only there, the summarizer sends
    the same request, writes the same log records and returns the same
    summary. *)
Theorem summarize_ignores_tail `{Env} ec1 ec2 w :
  subject ec1 = subject ec2 → from_address ec1 = from_address ec2 →
  date ec1 = date ec2 →
  str_take 2000 (text ec1) = str_take 2000 (text ec2) →
  summarize_single_email ec1 w = summarize_single_email ec2 w.
Proof.
  intros Hs Hf Hd Ht. rewrite !summarize_run.
  unfold api_answer, after_failure, after_request.
  by rewrite (email_text_prefix ec1 ec2), Hs.
Qed.

(** ** The theorems at concrete inputs *)

#[local] Existing Instance demo_env.

Lemma summarize_api_error_witness :
  ∃ w', summarize_single_email ec_lunch (world_at 9)
        = (Ok "Failed to generate summary", w')
    ∧ last (w_log w')
      = Some (ERROR, "Failed to generate summary for email: Rate limit reached").
Proof.
  apply (summarize_api_error ec_lunch (world_at 9) (Exception "Rate limit reached")).
  reflexivity.
Defined.

Lemma summarize_no_choice_witness :
  (@summarize_single_email silent_env ec_lunch world0).1 = Ok FAILED_SUMMARY.
Proof. apply (@summarize_no_choice silent_env ec_lunch world0). reflexivity. Defined.

Lemma summarize_first_choice_witness :
  ∃ w', summarize_single_email ec_lunch world0 = (Ok "Summary 0", w')
    ∧ w_log w' = [(INFO, "Generating summary for email: Lunch...")].
Proof.
  apply (summarize_first_choice ec_lunch world0 "Summary 0" []). reflexivity.
Defined.

Lemma summarize_ignores_tail_witness :
  summarize_single_email (ec_long "the end") world0
  = summarize_single_email (ec_long "another end") world0.
Proof.
  apply (summarize_ignores_tail (ec_long "the end") (ec_long "another end") world0);
    vm_compute; reflexivity.
Defined.

#[export] Hint Rewrite @wp_summarize : wp.
#[export] Hint Resolve summarize_grows : py.
