(* ===== verification/Extractor.v ===== *)
(** * The mailbox extractor: [extract_emails_from_inbox] (lines 103-169)

    The function computes the cut-off [date_since] once, opens one IMAP
    session, and for each sender fetches the messages the server returns for
    [AND(from_=sender, date_gte=date_since.date())].  Each message is handled
    inside its own [try]: its date gets [tzinfo=utc], it is kept when that is
    not before the cut-off, and a kept message becomes an [email_content]
    with its summary.  The [with] block closes the session; any exception
    that reaches the outer [try] becomes an [HTTPException] with status 500.

    The file has three layers: the handlers as the source writes them
    ([process_message], [process_sender], [extract_emails_from_inbox]); a
    pure description of what one message contributes ([shape_message],
    [built], [kept]), of what one sender contributes ([batch]) and of a
    whole call ([extraction], [session_events], [extract_spec]); and the
    theorems that connect them, [extract_refines] first. *)

From S2P Require Import Prelude PyStr PyVal DateTime World Scenario Summarizer.

Local Open Scope py_scope.

(** ** The handlers *)

Section extractor.
Context `{Env}.

(** The dictionary literal of lines 136-143, [summary] not yet set. *)
Definition new_email_content (subj frm : string) (to : list string)
    (msg_date : datetime) (body : string) (now : datetime) : email_content :=
  {| subject := subj;
     from_address := frm;
     to_address := str_join ", " to;
     date := isoformat msg_date;
     text := body;
     extracted_at := isoformat now;
     summary := None |}.

(** The body of the loop over messages (lines 129-154): [email_data] before
    the message, [email_data] after it. *)
Definition process_message (date_since : datetime)
    (email_data : list email_content) (msg : MailMessage)
  : Py (list email_content) :=
  try_except
    (d <- lift (msg_date msg) ;;
     let msg_date := replace_tzinfo d utc in
     logger DEBUG ("Message date: " +:+ dt_str msg_date
                   +:+ ", Comparing with: " +:+ dt_str date_since) ;;
     fresh <- lift (dt_ge msg_date date_since) ;;
     if fresh : bool then
       subj <- lift (msg_subject msg) ;;
       frm <- lift (msg_from_ msg) ;;
       to <- lift (msg_to msg) ;;
       txt <- lift (msg_text msg) ;;
       body <- (if str_truthy txt then ret txt else lift (msg_html msg)) ;;
       now <- datetime_now_utc ;;
       let email_content := new_email_content subj frm to msg_date body now in
       s <- summarize_single_email email_content ;;
       let email_content := set_summary email_content s in
       logger INFO ("Processed email: " +:+ str_take 30 subj +:+ "...") ;;
       ret (email_data ++ [email_content])
     else
       logger DEBUG ("Skipping email from " +:+ dt_str msg_date
                     +:+ " as it's older than " +:+ dt_str date_since) ;;
       ret email_data)
    (λ e,
       logger ERROR ("Error processing individual email: " +:+ str_exn e) ;;
       ret email_data).

(** The search criteria of lines 121-124. *)
Definition sender_criteria (date_since : datetime) (sender : string) : criteria :=
  {| from_ := sender; date_gte := dt_date date_since |}.

(** The body of the loop over senders (lines 118-154).  Iterating the
    generator handles each message it yields, then propagates the exception
    that ended it, if any. *)
Definition process_sender (date_since : datetime)
    (email_data : list email_content) (sender : string)
  : Py (list email_content) :=
  logger INFO ("Fetching emails from sender: " +:+ sender) ;;
  messages <- mailbox_fetch (sender_criteria date_since sender) ;;
  email_data <- for_fold messages.1 email_data (process_message date_since) ;;
  match messages.2 with
  | None => ret email_data
  | Some e => raise e
  end.

(** The [detail] of the exception raised at lines 162-169. *)
Definition fetch_failure_detail (error_msg email_address : string) : pyval :=
  PDict [("message", PStr "Failed to fetch emails");
         ("error", PStr error_msg);
         ("email", PStr email_address)].

(** [extract_emails_from_inbox] (lines 103-169) *)
Definition extract_emails_from_inbox (email_address password : string)
    (sender_addresses : list string) : Py (list email_content) :=
  let email_data := [] in
  try_except
    (logger INFO ("Attempting to connect to Gmail IMAP for: " +:+ email_address) ;;
     now <- datetime_now_utc ;;
     date_since <- lift (dt_sub now (timedelta_days 1)) ;;
     MailBox_login "imap.gmail.com" email_address password "INBOX" ;;
     email_data <-
       finally
         (logger INFO "Successfully connected to Gmail" ;;
          for_fold sender_addresses email_data (process_sender date_since))
         MailBox_exit ;;
     logger INFO ("Successfully extracted "
                  +:+ str_of_nat (length email_data) +:+ " emails") ;;
     ret email_data)
    (λ e,
       let error_msg := str_exn e in
       logger ERROR ("Failed to fetch emails: " +:+ error_msg) ;;
       raise (HTTPException 500 (fetch_failure_detail error_msg email_address))).
End extractor.

(** ** What one message contributes *)

(** The fields of a kept message that do not depend on the environment. *)
Record shaped : Type := {
  s_subject : string;
  s_from : string;
  s_to : list string;
  s_date : datetime;
  s_body : string;
}.

(** The pure part of the [try] body: [Raise e] when reading the message
    fails, [Ok None] when it is older than the cut-off, [Ok (Some s)] when
    it is kept. *)
Definition shape_message (date_since : datetime) (msg : MailMessage)
  : outcome exn (option shaped) :=
  d <-? msg_date msg ;;
  let msg_date := replace_tzinfo d utc in
  fresh <-? dt_ge msg_date date_since ;;
  if fresh : bool then
    subj <-? msg_subject msg ;;
    frm <-? msg_from_ msg ;;
    to <-? msg_to msg ;;
    txt <-? msg_text msg ;;
    body <-? (if str_truthy txt then Ok txt else msg_html msg) ;;
    Ok (Some {| s_subject := subj; s_from := frm; s_to := to;
                s_date := msg_date; s_body := body |})
  else Ok None.

(** The kept messages of a list, in order. *)
Definition kept (date_since : datetime) (msgs : list MailMessage) : list shaped :=
  omap (λ m, match shape_message date_since m with
             | Ok (Some s) => Some s
             | _ => None
             end) msgs.

(** The record of a kept message, before its summary. *)
Definition record_of (s : shaped) (now : datetime) : email_content :=
  {| subject := s_subject s; from_address := s_from s;
     to_address := str_join ", " (s_to s); date := isoformat (s_date s);
     text := s_body s; extracted_at := isoformat now; summary := None |}.

(** [r] is a record of the kept message [s]: its fields are those of [s],
    it was stamped with a reading of the clock, and its summary is what the
    summarizer made of the API's answer at the next interaction. *)
Definition built `{Env} (s : shaped) (r : email_content) : Prop :=
  ∃ n, let ec := record_of s (now utc (env_now n)) in
       r = set_summary ec (summary_at (S n) ec).

(** The chat request that was sent for record [r]. *)
Definition chat_event (r : email_content) : event :=
  EvChat (completion_request (email_text r)).

(** Events the body of the [with] block can produce. *)
Definition body_event (ev : event) : bool :=
  match ev with
  | EvFetch _ | EvChat _ => true
  | _ => false
  end.

(** What one sender contributed: the messages its fetch yielded, the
    exception that ended the fetch if any, the records built. *)
Record batch : Type := {
  b_sender : string;
  b_messages : list MailMessage;
  b_error : option exn;
  b_records : list email_content;
}.

Definition batch_events (date_since : datetime) (b : batch) : list event :=
  EvFetch (sender_criteria date_since (b_sender b)) :: (chat_event <$> b_records b).

(** ** The message loop *)

Section message_loop.
Context `{Env}.
Implicit Types (w : World) (m : MailMessage) (acc rs : list email_content).

(** One iteration, as a function of what the message is. *)
Lemma process_message_run ds acc m w :
  process_message ds acc m w
  = match shape_message ds m with
    | Raise e =>
        (Ok acc, w_add_log ERROR
                   ("Error processing individual email: " +:+ str_exn e) w)
    | Ok None => (Ok acc, w)
    | Ok (Some s) =>
        let ec := record_of s (now utc (env_now (w_tick w))) in
        let sr := summarize_result ec (w_tick_only w) in
        (Ok (acc ++ [set_summary ec sr.1]),
         w_add_log INFO ("Processed email: " +:+ str_take 30 (s_subject s)
                         +:+ "...") sr.2)
    end.
Proof.
  unfold process_message, shape_message, try_except, bind, obind, lift.
  destruct (msg_date m) as [d|]; [|done]. simpl.
  destruct (dt_ge _ _) as [[]|]; [|done..].
  destruct (msg_subject m), (msg_from_ m), (msg_to m), (msg_text m) as [txt|];
    try done.
  unfold bind. destruct (str_truthy txt); [|destruct (msg_html m); [|done]];
    simpl; by rewrite summarize_eq.
Qed.

(** An iteration never raises, and extends [email_data] by at most one
    record, which is a record of the message. *)
Lemma process_message_spec ds acc m w :
  ∃ rs w', process_message ds acc m w = (Ok (acc ++ rs), w')
    ∧ Forall2 built (kept ds [m]) rs
    ∧ grows w (chat_event <$> rs) w'.
Proof.
  rewrite process_message_run. unfold kept. simpl.
  destruct (shape_message ds m) as [[s|]|e]; simpl.
  - eexists [_], _. split_and!; [done| |].
    { repeat constructor. exists (w_tick w). by rewrite summarize_result_summary. }
    apply grows_add_log_r, (proj1 (grows_tick_only _ _ _)).
    exact (summarize_grows (record_of s _) (w_tick_only w)).
  - exists [], w. rewrite app_nil_r. by split_and!; [|constructor|apply grows_refl].
  - exists [], (w_add_log ERROR ("Error processing individual email: " +:+ str_exn e) w).
    rewrite app_nil_r. split_and!; [done|constructor|]. autorewrite with py.
    apply grows_refl.
Qed.

Lemma kept_cons ds m msgs : kept ds (m :: msgs) = kept ds [m] ++ kept ds msgs.
Proof. unfold kept. simpl. by destruct (shape_message ds m) as [[]|]. Qed.

Lemma kept_app ds msgs1 msgs2 : kept ds (msgs1 ++ msgs2) = kept ds msgs1 ++ kept ds msgs2.
Proof. apply omap_app. Qed.

(** The loop over the messages of one fetch never raises; the records it
    appends are records of the kept messages, in order, and it sends one chat
    request per record and nothing else. *)
Lemma process_messages_spec ds msgs acc w :
  ∃ rs w', for_fold msgs acc (process_message ds) w = (Ok (acc ++ rs), w')
    ∧ Forall2 built (kept ds msgs) rs
    ∧ grows w (chat_event <$> rs) w'.
Proof.
  revert acc w. induction msgs as [|m msgs IH]; intros acc w.
  - exists [], w. rewrite app_nil_r. split_and!; [done|constructor|apply grows_refl].
  - destruct (process_message_spec ds acc m w) as (rs1 & w1 & Hrun & Hb1 & Hg1).
    destruct (IH (acc ++ rs1) w1) as (rs2 & w2 & Hrun2 & Hb2 & Hg2).
    exists (rs1 ++ rs2), w2. cbn [for_fold]. unfold bind.
    rewrite Hrun, Hrun2, kept_cons.
    split_and!; [by rewrite app_assoc|by apply Forall2_app|].
    rewrite fmap_app. by eapply grows_trans.
Qed.
End message_loop.

(** ** The sender loop *)

Section sender_loop.
Context `{Env}.
Implicit Types (w : World) (b : batch) (acc rs : list email_content).

(** A batch is what the environment answered and what the message loop
    built from it. *)
Definition batch_ok (ds : datetime) (b : batch) : Prop :=
  Forall2 built (kept ds (b_messages b)) (b_records b)
  ∧ ∃ n, env_fetch n (sender_criteria ds (b_sender b)) = (b_messages b, b_error b).

(** The outcome of the iteration that produced batch [b]. *)
Definition batch_outcome (acc : list email_content) (b : batch)
  : outcome exn (list email_content) :=
  match b_error b with
  | None => Ok (acc ++ b_records b)
  | Some e => Raise e
  end.

Lemma process_sender_spec ds acc sender w :
  ∃ b w', b_sender b = sender ∧ batch_ok ds b
    ∧ grows w (batch_events ds b) w'
    ∧ process_sender ds acc sender w = (batch_outcome acc b, w').
Proof.
  unfold process_sender, mailbox_fetch, call, logger, modify, bind. simpl.
  set (w1 := w_record _ _).
  destruct (env_fetch (w_tick w) (sender_criteria ds sender)) as [msgs err] eqn:Hf.
  destruct (process_messages_spec ds msgs acc w1) as (rs & w2 & Hrun & Hb & Hg).
  exists {| b_sender := sender; b_messages := msgs; b_error := err; b_records := rs |}, w2.
  simpl. rewrite Hrun. split_and!; [done|split; eauto| |by destruct err].
  subst w1. by autorewrite with py in Hg.
Qed.

(** The loop over senders: the batches of the senders handled so far, one
    per sender and in order, each built from what its fetch yielded; the loop
    stops at the first fetch that ends with an exception. *)
Lemma process_senders_spec ds senders acc w :
  ∃ bs w', Forall (batch_ok ds) bs
    ∧ grows w (mjoin (batch_events ds <$> bs)) w'
    ∧ ((for_fold senders acc (process_sender ds) w
        = (Ok (acc ++ mjoin (b_records <$> bs)), w')
        ∧ b_sender <$> bs = senders ∧ Forall (λ b, b_error b = None) bs)
       ∨ ∃ e b, for_fold senders acc (process_sender ds) w = (Raise e, w')
           ∧ last bs = Some b ∧ b_error b = Some e).
Proof.
  revert acc w. induction senders as [|sender senders IH]; intros acc w.
  - exists [], w. split_and!; [done|apply grows_refl|left]. by rewrite app_nil_r.
  - destruct (process_sender_spec ds acc sender w) as (b & w1 & <- & Hok & Hg & Hrun).
    cbn [for_fold]. unfold bind. rewrite Hrun. unfold batch_outcome.
    destruct (b_error b) as [e|] eqn:Herr.
    { exists [b], w1. simpl. rewrite app_nil_r. split_and!; eauto 7. }
    destruct (IH (acc ++ b_records b) w1) as (bs & w2 & Hoks & Hg2 & Hcases).
    exists (b :: bs), w2. split_and!; [by constructor|by eapply grows_trans|].
    destruct Hcases as [(-> & <- & Hnone)|(e & b' & -> & Hlast & He)].
    + left. simpl. rewrite app_assoc. split_and!; [done..|by constructor].
    + right. exists e, b'. split_and!; [done| |done].
      destruct bs; [done|by rewrite last_cons, Hlast].
Qed.
End sender_loop.

(** ** The whole call *)

Section extract.
Context `{Env}.
Implicit Types (w : World) (rs : list email_content).

(** The world when the clock has been read (line 112). *)
Definition w_started (email_address : string) (w : World) : World :=
  w_tick_only
    (w_add_log INFO ("Attempting to connect to Gmail IMAP for: " +:+ email_address) w).

Definition w_connected (email_address : string) (w : World) : World :=
  w_record (EvConnect "imap.gmail.com") (w_started email_address w).

(** The world when the [with] block is entered and its first line has
    logged (line 116). *)
Definition w_logged_in (email_address password : string) (w : World) : World :=
  w_add_log INFO "Successfully connected to Gmail"
    (w_record (EvLogin email_address password "INBOX")
       (w_connected email_address w)).

(** The outer handler (lines 159-169) applied to [e] in world [w]. *)
Definition fetch_failed {A} (email_address : string) (e : exn) (w : World)
  : outcome exn A * World :=
  (Raise (HTTPException 500 (fetch_failure_detail (str_exn e) email_address)),
   w_add_log ERROR ("Failed to fetch emails: " +:+ str_exn e) w).

(** The cut-off of a call started in [w]. *)
Definition cutoff_of (w : World) : outcome exn datetime :=
  dt_sub (now utc (env_now (w_tick w))) (timedelta_days 1).

(** The call, path by path. *)
Lemma extract_run a p senders w :
  extract_emails_from_inbox a p senders w
  = match cutoff_of w with
    | Raise e => fetch_failed a e (w_started a w)
    | Ok ds =>
      match env_connect (w_tick (w_started a w)) "imap.gmail.com" with
      | Some e => fetch_failed a e (w_connected a w)
      | None =>
        match env_login (w_tick (w_connected a w)) a p "INBOX" with
        | Some e => fetch_failed a e (w_record (EvLogin a p "INBOX") (w_connected a w))
        | None =>
          let '(o, w') := for_fold senders [] (process_sender ds) (w_logged_in a p w) in
          match env_logout (w_tick w'), o with
          | Some e, _ | None, Raise e => fetch_failed a e (w_record EvLogout w')
          | None, Ok rs =>
              (Ok rs, w_add_log INFO ("Successfully extracted "
                                      +:+ str_of_nat (length rs) +:+ " emails")
                        (w_record EvLogout w'))
          end
        end
      end
    end.
Proof.
  unfold extract_emails_from_inbox, cutoff_of, try_except, bind, finally,
    MailBox_login, MailBox_exit, call, lift, bind. simpl.
  destruct (dt_sub _ _) as [ds|]; [|done]. simpl.
  destruct (env_connect _ _); [done|]. simpl.
  destruct (env_login _ _ _ _); [done|]. simpl.
  fold (w_started a w). fold (w_connected a w). fold (w_logged_in a p w).
  destruct (for_fold _ _ _ _) as [[rs|e] w']; by destruct (env_logout _).
Qed.
End extract.

(** ** Invariants of the table

    The extraction preserves every property of the table, on every path. *)
Section extract_invariants.
Context `{Env} (P : World → Prop) `{!Stable P}.

Lemma preserves_process_message date_since email_data msg :
  preserves P (process_message date_since email_data msg).
Proof. unfold process_message. preserves_auto. Qed.

Lemma preserves_process_sender date_since email_data sender :
  preserves P (process_sender date_since email_data sender).
Proof.
  pose proof preserves_process_message. unfold process_sender. preserves_auto.
Qed.

Lemma preserves_extract_emails a p senders :
  preserves P (extract_emails_from_inbox a p senders).
Proof.
  pose proof preserves_process_sender.
  unfold extract_emails_from_inbox. preserves_auto.
Qed.
End extract_invariants.

#[export] Hint Resolve preserves_extract_emails : py.

(** ** The password

    Two calls that differ in the password only, to a mailbox that answers
    both logins alike, run in step. *)
Section extract_password.
Context `{Env} (R : relation World) `{!Blind R}.

Lemma sim_process_message date_since email_data msg :
  sim R (process_message date_since email_data msg)
    (process_message date_since email_data msg).
Proof. unfold process_message. sim_auto. Qed.

Lemma sim_process_sender date_since email_data sender :
  sim R (process_sender date_since email_data sender)
    (process_sender date_since email_data sender).
Proof. pose proof sim_process_message. unfold process_sender. sim_auto. Qed.

(** Two calls that differ in the password: they are related when their
    logins are. *)
Lemma sim_extract_emails a p1 p2 senders :
  sim R (MailBox_login "imap.gmail.com" a p1 "INBOX")
    (MailBox_login "imap.gmail.com" a p2 "INBOX") →
  sim R (extract_emails_from_inbox a p1 senders)
    (extract_emails_from_inbox a p2 senders).
Proof.
  intros Hl. pose proof sim_process_sender.
  unfold extract_emails_from_inbox. sim_auto.
Qed.
End extract_password.

(** ** Reading the pure description *)

Section shape_lemmas.
Context `{Env}.
Implicit Types (m : MailMessage) (s : shaped) (r : email_content).

(** A message is kept exactly when all the attributes that are read can be
    read and its date, taken as UTC, is not before the cut-off. *)
Lemma shape_message_Some ds m s :
  shape_message ds m = Ok (Some s) ↔
  ∃ d txt,
    msg_date m = Ok d ∧ s_date s = replace_tzinfo d utc
    ∧ dt_ge (replace_tzinfo d utc) ds = Ok true
    ∧ msg_subject m = Ok (s_subject s) ∧ msg_from_ m = Ok (s_from s)
    ∧ msg_to m = Ok (s_to s) ∧ msg_text m = Ok txt
    ∧ (if str_truthy txt then s_body s = txt else msg_html m = Ok (s_body s)).
Proof.
  unfold shape_message, obind. split.
  - destruct (msg_date m) as [d|]; [|done].
    destruct (dt_ge _ _) as [[]|] eqn:Hge; [|done..].
    destruct (msg_subject m), (msg_from_ m), (msg_to m), (msg_text m) as [txt|];
      try done.
    destruct (str_truthy txt) eqn:Ht; [|destruct (msg_html m) eqn:Hh; [|done]];
      intros [= <-]; exists d, txt; rewrite Ht; by split_and!.
  - intros (d & txt & -> & Hd & -> & -> & -> & -> & -> & Hbody).
    destruct s as [? ? ? sd ?]; simpl in *. subst sd.
    destruct (str_truthy txt); [by subst|by rewrite Hbody].
Qed.

Lemma elem_of_kept ds msgs s :
  s ∈ kept ds msgs ↔ ∃ m, m ∈ msgs ∧ shape_message ds m = Ok (Some s).
Proof.
  unfold kept. rewrite list_elem_of_omap. split; intros (m & Hm & Hs); exists m.
  - destruct (shape_message ds m) as [[]|]; naive_solver.
  - by rewrite Hs.
Qed.

Lemma built_fields s r :
  built s r →
  subject r = s_subject s ∧ from_address r = s_from s
  ∧ to_address r = str_join ", " (s_to s) ∧ date r = isoformat (s_date s)
  ∧ text r = s_body s ∧ is_Some (summary r)
  ∧ ∃ t, extracted_at r = isoformat (now utc t).
Proof. intros (n & ->). simpl. split_and!; eauto. Qed.

(** The cut-off is aware, in UTC, one day before the clock. *)
Lemma cutoff_of_Ok w ds :
  cutoff_of w = Ok ds →
  tzinfo ds = Some utc ∧ instant ds = (env_now (w_tick w) - US_PER_DAY)%Z.
Proof.
  intros (Hw & Htz & _)%dt_sub_ok. unfold instant. rewrite Htz, Hw.
  unfold now, utc, timedelta_days. simpl. split; [done|lia].
Qed.
End shape_lemmas.

(** ** Projections of the events of a session *)

Section event_lemmas.
Implicit Types (b : batch) (bs : list batch) (rs : list email_content).

Definition request_of (r : email_content) : chat_request :=
  completion_request (email_text r).

Lemma chat_requests_chat_events rs :
  chat_requests (chat_event <$> rs) = request_of <$> rs.
Proof. induction rs as [|r rs IH]; [done|]. simpl. by f_equal. Qed.

Lemma imap_calls_chat_events rs : imap_calls (chat_event <$> rs) = [].
Proof. by induction rs. Qed.

Lemma insert_requests_chat_events rs : insert_requests (chat_event <$> rs) = [].
Proof. by induction rs. Qed.

Lemma chat_requests_batches ds bs :
  chat_requests (mjoin (batch_events ds <$> bs))
  = request_of <$> mjoin (b_records <$> bs).
Proof.
  induction bs as [|b bs IH]; [done|]. csimpl.
  by rewrite chat_requests_app, fmap_app, IH, chat_requests_chat_events.
Qed.

Lemma imap_calls_batches ds bs :
  imap_calls (mjoin (batch_events ds <$> bs))
  = (λ b, EvFetch (sender_criteria ds (b_sender b))) <$> bs.
Proof.
  induction bs as [|b bs IH]; [done|]. csimpl.
  by rewrite imap_calls_cons, imap_calls_app, IH, imap_calls_chat_events.
Qed.

Lemma insert_requests_batches ds bs :
  insert_requests (mjoin (batch_events ds <$> bs)) = [].
Proof.
  induction bs as [|b bs IH]; [done|]. csimpl.
  by rewrite insert_requests_app, IH, insert_requests_chat_events.
Qed.
End event_lemmas.

(** ** The specification of a successful call, and the refinement *)

Section extract_theorems.
Context `{Env}.
Implicit Types (w : World) (rs : list email_content) (bs : list batch).

(** [rs] is what extracting from [senders] with cut-off [ds] returns when the
    mailbox answered with the batches [bs]: one batch per sender in the
    order of the request, no fetch ended with an exception, and the records
    are those of the batches, concatenated. *)
Definition extraction (ds : datetime) (senders : list string) bs rs : Prop :=
  b_sender <$> bs = senders
  ∧ Forall (batch_ok ds) bs
  ∧ Forall (λ b, b_error b = None) bs
  ∧ rs = mjoin (b_records <$> bs).

(** The external calls of a session that ran to its end. *)
Definition session_events (a p : string) (ds : datetime) bs : list event :=
  [EvConnect "imap.gmail.com"; EvLogin a p "INBOX"]
  ++ mjoin (batch_events ds <$> bs) ++ [EvLogout].

(** A call that returns: the mailbox was asked once per sender, in order; the
    records returned are those of the kept messages of each answer, in
    order; the session ran to its end. *)
Lemma extract_returns a p senders w rs w' :
  extract_emails_from_inbox a p senders w = (Ok rs, w') →
  ∃ ds bs, cutoff_of w = Ok ds ∧ extraction ds senders bs rs
    ∧ grows w (session_events a p ds bs) w'.
Proof.
  rewrite extract_run. unfold fetch_failed.
  destruct (cutoff_of w) as [ds|]; [|done].
  destruct (env_connect _ _); [done|]. destruct (env_login _ _ _ _); [done|].
  destruct (process_senders_spec ds senders [] (w_logged_in a p w))
    as (bs & w1 & Hok & Hg & [(Hrun & Hs & Hnone)|(e & b & Hrun & _)]);
    rewrite Hrun; [|by destruct (env_logout _)].
  destruct (env_logout _); [done|]. intros [= <- <-].
  exists ds, bs. split_and!; [done..|].
  unfold session_events. rewrite app_assoc.
  apply grows_add_log_r, (grows_snoc EvLogout).
  unfold w_logged_in, w_connected, w_started in Hg.
  by autorewrite with py in Hg.
Qed.

(** A message the mailbox returned during a call started in [w] for
    [senders]. *)
Definition fetched (w : World) (senders : list string) (m : MailMessage) : Prop :=
  ∃ ds n sender, cutoff_of w = Ok ds ∧ sender ∈ senders
    ∧ m ∈ (env_fetch n (sender_criteria ds sender)).1.

Lemma batch_ok_provenance ds b r :
  batch_ok ds b → r ∈ b_records b →
  ∃ n m s, m ∈ (env_fetch n (sender_criteria ds (b_sender b))).1
    ∧ shape_message ds m = Ok (Some s) ∧ built s r.
Proof.
  intros [Hb [n Hn]] Hr.
  destruct (proj1 (list_elem_of_lookup _ _) Hr) as [i Hi].
  destruct (Forall2_lookup_r _ _ _ _ _ Hb Hi) as (s & Hs & Hbuilt).
  apply list_elem_of_lookup_2, elem_of_kept in Hs as (m & Hm & Hshape).
  exists n, m, s. by rewrite Hn.
Qed.

(** Every record of a successful call is a record of a kept message that
    the mailbox returned for one of the requested senders. *)
Lemma extract_provenance a p senders w rs w' r :
  extract_emails_from_inbox a p senders w = (Ok rs, w') → r ∈ rs →
  ∃ ds m s, cutoff_of w = Ok ds ∧ fetched w senders m
    ∧ shape_message ds m = Ok (Some s) ∧ built s r.
Proof.
  intros (ds & bs & Hds & (Hs & Hok & _ & ->) & _)%extract_returns Hr.
  apply list_elem_of_join in Hr as (recs & Hr & (b & -> & Hb)%list_elem_of_fmap).
  rewrite Forall_forall in Hok.
  destruct (batch_ok_provenance ds b r (Hok b Hb) Hr) as (n & m & s & Hm & Hshape & Hbuilt).
  exists ds, m, s. split_and!; [done| |done..].
  exists ds, n, (b_sender b). split_and!; [done| |done].
  rewrite <-Hs. by apply list_elem_of_fmap_2.
Qed.

(** [r] carries the date of the fetched message [m], taken as UTC, and that
    date is within the day before the clock reading of the call. *)
Definition dated_by (w : World) (senders : list string) (r : email_content)
    (m : MailMessage) (d : datetime) : Prop :=
  fetched w senders m ∧ msg_date m = Ok d
  ∧ date r = isoformat (replace_tzinfo d utc)
  ∧ (env_now (w_tick w) - US_PER_DAY ≤ wall d)%Z.

Lemma extract_dated a p senders w rs w' r :
  extract_emails_from_inbox a p senders w = (Ok rs, w') → r ∈ rs →
  ∃ m d, dated_by w senders r m d.
Proof.
  intros Hrun Hr.
  destruct (extract_provenance _ _ _ _ _ _ r Hrun Hr)
    as (ds & m & s & Hds & Hf & Hshape & Hbuilt).
  apply shape_message_Some in Hshape as (d & txt & Hm & Hd & Hge & _).
  apply built_fields in Hbuilt as (_ & _ & _ & Hdate & _).
  apply cutoff_of_Ok in Hds as [Htz Hinst].
  exists m, d. split_and!; [done..|by rewrite Hdate, Hd|].
  rewrite (dt_ge_aware _ _ utc utc) in Hge by done.
  injection Hge as Hge%bool_decide_eq_true.
  by rewrite instant_replace_tzinfo, Hinst in Hge.
Qed.

(** C4: every record a call returns passed the precise filter: its
    [date] is the rendering of a message date [d] taken as UTC, and [d]'s
    calendar fields are not before the clock reading of line 112 minus 24
    hours, to the microsecond.  A message the coarser server-side search
    returned but that is older is not in the result. *)
Theorem extract_all_fresh a p senders w rs w' :
  extract_emails_from_inbox a p senders w = (Ok rs, w') →
  Forall (λ r, ∃ d, date r = isoformat (replace_tzinfo d utc)
               ∧ (env_now (w_tick w) - US_PER_DAY ≤ wall d)%Z) rs.
Proof.
  intros Hrun. apply Forall_forall. intros r Hr.
  destruct (extract_dated _ _ _ _ _ _ r Hrun Hr) as (m & d & _ & _ & Hd & Hw).
  by exists d.
Qed.

(** C35: the [text] of every returned record is the plain-text body of
    the message it was built from when that body is not empty, and the HTML
    body otherwise. *)
Theorem extract_text_fallback a p senders w rs w' :
  extract_emails_from_inbox a p senders w = (Ok rs, w') →
  Forall (λ r, ∃ m txt, fetched w senders m ∧ msg_text m = Ok txt
               ∧ if str_truthy txt then text r = txt
                 else msg_html m = Ok (text r)) rs.
Proof.
  intros Hrun. apply Forall_forall. intros r Hr.
  destruct (extract_provenance _ _ _ _ _ _ r Hrun Hr)
    as (ds & m & s & _ & Hf & Hshape & Hbuilt).
  apply shape_message_Some in Hshape as (d & txt & _ & _ & _ & _ & _ & _ & Ht & Hbody).
  apply built_fields in Hbuilt as (_ & _ & _ & _ & -> & _).
  by exists m, txt.
Qed.

(** C27: every record a call returns carries a summary, and it is
    the one the summarizer makes of the API's answer to the request built
    from that record: the first choice, or the sentinel when the API failed
    or answered with no choice.  A failed summary does not remove the record
    from the result. *)
Theorem extract_summaries a p senders w rs w' :
  extract_emails_from_inbox a p senders w = (Ok rs, w') →
  Forall (λ r, ∃ n, summary r = Some (summary_at n r)) rs.
Proof.
  intros Hrun. apply Forall_forall. intros r Hr.
  destruct (extract_provenance _ _ _ _ _ _ r Hrun Hr)
    as (ds & m & s & _ & _ & _ & (n & ->)).
  by exists (S n).
Qed.

(** What happened on each path of a call: the external calls made, in
    order, with the table left alone. *)
Lemma extract_paths a p senders w :
  let w' := (extract_emails_from_inbox a p senders w).2 in
  match cutoff_of w with
  | Raise _ => grows w [] w'
  | Ok ds =>
    match env_connect (w_tick (w_started a w)) "imap.gmail.com" with
    | Some _ => grows w [EvConnect "imap.gmail.com"] w'
    | None =>
      match env_login (w_tick (w_connected a w)) a p "INBOX" with
      | Some _ =>
          grows w [EvConnect "imap.gmail.com"; EvLogin a p "INBOX"] w'
      | None => ∃ bs, Forall (batch_ok ds) bs
                 ∧ grows w (session_events a p ds bs) w'
      end
    end
  end.
Proof.
  rewrite extract_run. unfold fetch_failed.
  destruct (cutoff_of w) as [ds|]; [|grows_done].
  destruct (env_connect _ _); [grows_done|].
  destruct (env_login _ _ _ _); [grows_done|].
  destruct (process_senders_spec ds senders [] (w_logged_in a p w))
    as (bs & w1 & Hok & Hg & Hcases).
  assert (grows w (session_events a p ds bs) (w_record EvLogout w1)) as Hg'.
  { unfold session_events. rewrite app_assoc. apply (grows_snoc EvLogout).
    unfold w_logged_in, w_connected, w_started in Hg.
    by autorewrite with py in Hg. }
  exists bs. split; [done|].
  destruct Hcases as [(-> & _)|(e & b & -> & _)]; by destruct (env_logout _).
Qed.

Lemma chat_requests_session a p ds bs :
  chat_requests (session_events a p ds bs) = request_of <$> mjoin (b_records <$> bs).
Proof.
  unfold session_events. simpl.
  by rewrite chat_requests_app, chat_requests_batches, app_nil_r.
Qed.

Lemma imap_calls_session a p ds bs :
  imap_calls (session_events a p ds bs)
  = [EvConnect "imap.gmail.com"; EvLogin a p "INBOX"]
    ++ ((λ b, EvFetch (sender_criteria ds (b_sender b))) <$> bs) ++ [EvLogout].
Proof.
  unfold session_events. simpl.
  by rewrite !imap_calls_cons, imap_calls_app, imap_calls_batches.
Qed.

Lemma insert_requests_session a p ds bs :
  insert_requests (session_events a p ds bs) = [].
Proof.
  unfold session_events. simpl.
  by rewrite insert_requests_app, insert_requests_batches.
Qed.

(** The external calls of any call: none of them is an insert. *)
Lemma extract_grows a p senders w :
  ∃ evs, grows w evs (extract_emails_from_inbox a p senders w).2
    ∧ insert_requests evs = [].
Proof.
  pose proof (extract_paths a p senders w) as Hp. simpl in Hp.
  destruct (cutoff_of w); [|by eauto].
  destruct (env_connect _ _); [by eauto|].
  destruct (env_login _ _ _ _); [by eauto|].
  destruct Hp as (bs & _ & Hg). eauto using insert_requests_session.
Qed.

(** Whatever goes wrong in a call (the clock arithmetic, the connection, the
    login, a fetch, the logout), the exception that leaves it is the
    [HTTPException] of line 162, and the last log record is the error line
    with the same text. *)
Lemma extract_raise_shape a p senders w e w' :
  extract_emails_from_inbox a p senders w = (Raise e, w') →
  ∃ msg, e = HTTPException 500 (fetch_failure_detail msg a)
    ∧ last (w_log w') = Some (ERROR, "Failed to fetch emails: " +:+ msg).
Proof.
  assert (∀ e0 w0, @fetch_failed _ (list email_content) a e0 w0 = (Raise e, w') →
    ∃ msg, e = HTTPException 500 (fetch_failure_detail msg a)
      ∧ last (w_log w') = Some (ERROR, "Failed to fetch emails: " +:+ msg)) as Hf.
  { intros e0 w0 [= <- <-]. eexists. split; [done|]. simpl. by rewrite last_snoc. }
  rewrite extract_run. destruct (cutoff_of w); [|by eauto].
  destruct (env_connect _ _); [by eauto|].
  destruct (env_login _ _ _ _); [by eauto|].
  destruct (for_fold _ _ _ _) as [[rs|e0] w1]; destruct (env_logout _); by eauto.
Qed.

(** C30: when the connection is made and the login is refused with
    [e], the call raises the [HTTPException] that carries [str(e)], and the
    only external calls are the connection and the login: no fetch, no chat
    request and no logout. *)
Theorem extract_login_failure a p senders w ds e :
  cutoff_of w = Ok ds →
  env_connect (S (w_tick w)) "imap.gmail.com" = None →
  env_login (S (S (w_tick w))) a p "INBOX" = Some e →
  ∃ w', extract_emails_from_inbox a p senders w
        = (Raise (HTTPException 500 (fetch_failure_detail (str_exn e) a)), w')
    ∧ grows w [EvConnect "imap.gmail.com"; EvLogin a p "INBOX"] w'.
Proof.
  intros Hds Hc Hl. rewrite extract_run, Hds. simpl. rewrite Hc, Hl.
  eexists. split; [done|grows_done].
Qed.

(** C6: when the connection is made and the login accepted, every
    path of the call, returning or raising, ends the session: the calls to
    the mailbox are the connection, the login, some fetches and one logout,
    which is the last. *)
Theorem extract_session_closed a p senders w ds :
  cutoff_of w = Ok ds →
  env_connect (S (w_tick w)) "imap.gmail.com" = None →
  env_login (S (S (w_tick w))) a p "INBOX" = None →
  ∃ evs cs, grows w evs (extract_emails_from_inbox a p senders w).2
    ∧ imap_calls evs
      = [EvConnect "imap.gmail.com"; EvLogin a p "INBOX"]
        ++ (EvFetch <$> cs) ++ [EvLogout].
Proof.
  intros Hds Hc Hl. pose proof (extract_paths a p senders w) as Hp.
  simpl in Hp. rewrite Hds, Hc, Hl in Hp. destruct Hp as (bs & _ & Hg).
  exists (session_events a p ds bs), (sender_criteria ds ∘ b_sender <$> bs).
  split; [done|]. by rewrite imap_calls_session, <-list_fmap_compose.
Qed.

(** C34: a call that returns has sent exactly one chat request per
    returned record, in the order of the records, each built from its
    record. *)
Theorem extract_one_chat_per_record a p senders w rs w' :
  extract_emails_from_inbox a p senders w = (Ok rs, w') →
  chat_requests (w_trace w') = chat_requests (w_trace w) ++ (request_of <$> rs).
Proof.
  intros (ds & bs & _ & (_ & _ & _ & ->) & (-> & _))%extract_returns.
  by rewrite chat_requests_app, chat_requests_session.
Qed.

(** Extraction never touches the table, on any path. *)
Lemma extract_keeps_rows a p senders w :
  let w' := (extract_emails_from_inbox a p senders w).2 in
  w_rows w' = w_rows w ∧ w_next_id w' = w_next_id w
  ∧ insert_requests (w_trace w') = insert_requests (w_trace w).
Proof.
  destruct (extract_grows a p senders w) as (evs & (Ht & Hr & Hn) & Hi).
  simpl. by rewrite Ht, insert_requests_app, Hi, app_nil_r.
Qed.

(** The external calls of a call, complete or cut short: it stopped at the
    clock arithmetic, at the connection or at the login, or it opened the
    session and closed it. *)
Inductive call_events (a p : string) (w : World) : list event → Prop :=
  | stopped_at_clock e :
      cutoff_of w = Raise e → call_events a p w []
  | stopped_at_connect :
      call_events a p w [EvConnect "imap.gmail.com"]
  | stopped_at_login :
      call_events a p w [EvConnect "imap.gmail.com"; EvLogin a p "INBOX"]
  | session_ran ds bs :
      cutoff_of w = Ok ds → Forall (batch_ok ds) bs →
      call_events a p w (session_events a p ds bs).

(** What [extract_emails_from_inbox] promises its caller. *)
Inductive extract_spec (a p : string) (senders : list string) (w : World)
  : outcome exn (list email_content) → World → Prop :=
  | extract_spec_returns ds bs rs w' :
      cutoff_of w = Ok ds → extraction ds senders bs rs →
      grows w (session_events a p ds bs) w' →
      extract_spec a p senders w (Ok rs) w'
  | extract_spec_raises evs msg w' :
      call_events a p w evs → grows w evs w' →
      last (w_log w') = Some (ERROR, "Failed to fetch emails: " +:+ msg) →
      extract_spec a p senders w
        (Raise (HTTPException 500 (fetch_failure_detail msg a))) w'.

Lemma extract_call_events a p senders w :
  ∃ evs, call_events a p w evs
    ∧ grows w evs (extract_emails_from_inbox a p senders w).2.
Proof.
  pose proof (extract_paths a p senders w) as Hp. simpl in Hp.
  destruct (cutoff_of w) eqn:Hds; [|by eauto using call_events].
  destruct (env_connect _ _); [by eauto using call_events|].
  destruct (env_login _ _ _ _); [by eauto using call_events|].
  destruct Hp as (bs & Hok & Hg). eauto using call_events.
Qed.

(** C1: every call of [extract_emails_from_inbox] implements
    [extract_spec].  A call that returns has a cut-off one day before the
    clock reading of line 112, asked the mailbox once per sender in order,
    returns exactly the records of the kept messages of each answer in
    order, and made the calls connect, login, one fetch per sender each
    followed by one chat request per record, and logout.  A call that does
    not return raises the [HTTPException] with status 500 and the structured
    detail, after logging the same text, and made a prefix of those calls
    that ends the session if it opened it.  On both paths the table is
    untouched. *)
Theorem extract_refines a p senders w :
  extract_spec a p senders w
    (extract_emails_from_inbox a p senders w).1
    (extract_emails_from_inbox a p senders w).2.
Proof.
  destruct (extract_call_events a p senders w) as (evs & Hevs & Hg).
  destruct (extract_emails_from_inbox a p senders w) as [[rs|e] w'] eqn:Hrun.
  - destruct (extract_returns _ _ _ _ _ _ Hrun) as (ds & bs & ? & ? & ?).
    by eapply extract_spec_returns.
  - destruct (extract_raise_shape _ _ _ _ _ _ Hrun) as (msg & -> & Hlog).
    by eapply extract_spec_raises.
Qed.
End extract_theorems.

(** ** Completeness against a reference mailbox

    The theorems above hold for every server.  For a server that answers a
    fetch with [imap_search] on a mailbox whose messages are not filed before
    they were sent, and with a working session, the call returns, and what it
    returns are the records of all the fresh messages of the requested
    senders: the search by day loses nothing the filter would keep. *)

Section reference_mailbox.
Context `{Env} (box : mailbox).
Implicit Types (ds : datetime) (bs : list batch).

(** The fresh messages of [box] from [senders], sender by sender. *)
Definition fresh_messages ds (senders : list string) : list shaped :=
  mjoin ((λ s, kept ds (from_sender s box)) <$> senders).

Lemma stale_not_kept ds m arrived :
  tzinfo ds = Some utc → (∀ d, msg_date m = Ok d → (wall d ≤ arrived)%Z) →
  (arrived / US_PER_DAY < dt_date ds)%Z → kept ds [m] = [].
Proof.
  intros Htz Hfiled Hday. unfold kept, shape_message, obind. simpl.
  destruct (msg_date m) as [d|] eqn:Hd; [|done].
  rewrite (dt_ge_aware _ ds utc utc), instant_replace_tzinfo by done.
  assert (instant ds = wall ds) as ->
    by (unfold instant; rewrite Htz; unfold utc; simpl; lia).
  specialize (Hfiled d eq_refl).
  case_bool_decide as Hge; [|done].
  apply (Z.div_le_mono _ _ US_PER_DAY US_PER_DAY_pos) in Hge.
  apply (Z.div_le_mono _ _ US_PER_DAY US_PER_DAY_pos) in Hfiled.
  unfold dt_date in Hday. lia.
Qed.

(** The search by day keeps every message the filter keeps. *)
Lemma kept_imap_search ds sender :
  tzinfo ds = Some utc → Forall filed_after_sent box →
  kept ds (imap_search box (sender_criteria ds sender))
  = kept ds (from_sender sender box).
Proof.
  intros Htz. induction 1 as [|[[s arrived] m] box' Hfiled _ IH]; [done|].
  rewrite imap_search_cons, from_sender_cons, !kept_app, IH. f_equal. simpl.
  case_bool_decide; [|done]. case_bool_decide; [done|]. simpl.
  symmetry. apply (stale_not_kept ds m arrived); [done..|lia].
Qed.

Lemma batches_built ds bs :
  tzinfo ds = Some utc → Forall filed_after_sent box →
  (∀ n c, env_fetch n c = (imap_search box c, None)) →
  Forall (batch_ok ds) bs →
  Forall2 built (fresh_messages ds (b_sender <$> bs)) (mjoin (b_records <$> bs)).
Proof.
  intros Htz Hbox Hfetch. unfold fresh_messages.
  induction 1 as [|b bs [Hb [n Hn]] _ IH]; csimpl; [constructor|].
  apply Forall2_app; [|done].
  rewrite Hfetch in Hn. injection Hn as Hmsgs _.
  by rewrite <-(kept_imap_search ds) , Hmsgs.
Qed.

(** With a working session and fetches that end normally the call returns,
    whatever the messages are. *)
Lemma extract_total a p senders w ds :
  cutoff_of w = Ok ds →
  (∀ n c, (env_fetch n c).2 = None) →
  (∀ n, env_connect n "imap.gmail.com" = None) →
  (∀ n, env_login n a p "INBOX" = None) →
  (∀ n, env_logout n = None) →
  ∃ bs w', extract_emails_from_inbox a p senders w
           = (Ok (mjoin (b_records <$> bs)), w')
    ∧ b_sender <$> bs = senders ∧ Forall (batch_ok ds) bs.
Proof.
  intros Hds Hfetch Hc Hl Hout. rewrite extract_run, Hds, Hc, Hl.
  destruct (process_senders_spec ds senders [] (w_logged_in a p w))
    as (bs & w1 & Hok & _ & [(-> & <- & _)|(e & b & _ & Hlast & He)]).
  - rewrite Hout. by eexists _, _.
  - apply last_Some_elem_of in Hlast. rewrite Forall_forall in Hok.
    destruct (Hok b Hlast) as [_ [n Hn]].
    specialize (Hfetch n (sender_criteria ds (b_sender b))).
    rewrite Hn in Hfetch. simpl in Hfetch. congruence.
Qed.

(** C5: on a mailbox that is searched by sender and day and
    whose messages are not filed before they were sent, when the connection,
    the login and the logout succeed, the call returns, and the records it
    returns are the records of exactly the fresh messages of the requested
    senders, sender by sender in the order of the mailbox: the coarse search
    by day loses no message that the precise filter keeps. *)
Theorem extract_complete a p senders w ds :
  cutoff_of w = Ok ds →
  Forall filed_after_sent box →
  (∀ n c, env_fetch n c = (imap_search box c, None)) →
  (∀ n, env_connect n "imap.gmail.com" = None) →
  (∀ n, env_login n a p "INBOX" = None) →
  (∀ n, env_logout n = None) →
  ∃ rs w', extract_emails_from_inbox a p senders w = (Ok rs, w')
    ∧ Forall2 built (fresh_messages ds senders) rs.
Proof.
  intros Hds Hbox Hfetch Hc Hl Hout.
  destruct (extract_total a p senders w ds) as (bs & w' & -> & <- & Hok);
    [done|intros n c; by rewrite Hfetch|done..|].
  eexists _, _. split; [done|].
  apply batches_built; [by apply cutoff_of_Ok in Hds as [? _]|done..].
Qed.
End reference_mailbox.

(** ** The session as an automaton

    The commands an IMAP server accepts depend on the state of the
    connection: a login on a fresh connection, searches and fetches once a
    mailbox is selected, nothing after the logout. *)

Inductive session_state : Type :=
  | NotConnected | NotAuthenticated | Selected | LoggedOut.

#[export] Instance session_state_eq_dec : EqDecision session_state.
Proof. solve_decision. Defined.

Inductive session_step : session_state → event → session_state → Prop :=
  | step_connect host :
      session_step NotConnected (EvConnect host) NotAuthenticated
  | step_login username password folder :
      session_step NotAuthenticated (EvLogin username password folder) Selected
  | step_fetch c :
      session_step Selected (EvFetch c) Selected
  | step_logout :
      session_step Selected EvLogout LoggedOut.

Inductive session_path : session_state → list event → session_state → Prop :=
  | path_done st : session_path st [] st
  | path_step st1 ev st2 evs st3 :
      session_step st1 ev st2 → session_path st2 evs st3 →
      session_path st1 (ev :: evs) st3.

(** The automaton as a function. *)
Definition session_next (st : session_state) (ev : event) : option session_state :=
  match st, ev with
  | NotConnected, EvConnect _ => Some NotAuthenticated
  | NotAuthenticated, EvLogin _ _ _ => Some Selected
  | Selected, EvFetch _ => Some Selected
  | Selected, EvLogout => Some LoggedOut
  | _, _ => None
  end.

Fixpoint session_run (st : session_state) (evs : list event) : option session_state :=
  match evs with
  | [] => Some st
  | ev :: evs' => session_next st ev ≫= λ st', session_run st' evs'
  end.

Section session_protocol.
Context `{Env}.
Implicit Types (st : session_state) (evs : list event).

Lemma session_step_next st ev st' :
  session_step st ev st' ↔ session_next st ev = Some st'.
Proof.
  split; [by intros []|].
  destruct st, ev; intros [= <-]; constructor.
Qed.

Lemma session_path_run st evs st' :
  session_path st evs st' ↔ session_run st evs = Some st'.
Proof.
  split.
  - induction 1 as [|st1 ev st2 evs st3 Hstep _ IH]; [done|].
    apply session_step_next in Hstep. simpl. by rewrite Hstep.
  - revert st. induction evs as [|ev evs IH]; intros st; simpl.
    + intros [= ->]. constructor.
    + destruct (session_next st ev) as [st2|] eqn:Hstep; [|done]. simpl.
      intros Hrun. apply session_step_next in Hstep. eauto using session_path.
Qed.

Lemma session_path_app st1 evs1 st2 evs2 st3 :
  session_path st1 evs1 st2 → session_path st2 evs2 st3 →
  session_path st1 (evs1 ++ evs2) st3.
Proof. induction 1; simpl; eauto using session_path. Qed.

Lemma session_path_fetches (cs : list criteria) :
  session_path Selected (EvFetch <$> cs) Selected.
Proof. induction cs; csimpl; eauto using session_path, session_step. Qed.

(** The commands of a session that ran to its end. *)
Lemma session_path_session a p ds bs :
  session_path NotConnected (imap_calls (session_events a p ds bs)) LoggedOut.
Proof.
  rewrite imap_calls_session. repeat (eapply path_step; [constructor|]).
  rewrite (list_fmap_compose (λ b, sender_criteria ds (b_sender b)) EvFetch).
  eapply session_path_app; [apply session_path_fetches|].
  eauto using session_path, session_step.
Qed.

(** The commands any call sends to the mailbox, in order, are
    a path of the session automaton that starts without a connection: the
    connection comes first and once, the login follows it, a fetch is sent
    only after the login, and nothing is sent after the logout. *)
Theorem extract_follows_protocol a p senders w :
  ∃ evs st, grows w evs (extract_emails_from_inbox a p senders w).2
    ∧ session_path NotConnected (imap_calls evs) st.
Proof.
  destruct (extract_call_events a p senders w) as (evs & Hevs & Hg).
  exists evs. destruct Hevs; eauto using session_path_session;
    eexists; (split; [done|]); apply session_path_run; reflexivity.
Qed.
End session_protocol.

(** ** The filter and time zones *)

(** C29: the filter reads the calendar fields of the [Date] header as if
    they were UTC.  For a message whose date [d] carries the offset [off],
    being kept means [instant d >= cut-off - off] and being skipped as too
    old means [instant d < cut-off - off]: the 24-hour window is shifted by
    the sender's offset, so it is the window the specification describes
    only for [off = 0]. *)
Theorem filter_shifted_by_offset ds m d off :
  tzinfo ds = Some utc → msg_date m = Ok d → tzinfo d = Some off →
  match shape_message ds m with
  | Ok (Some _) => (instant ds - off ≤ instant d)%Z
  | Ok None => (instant d < instant ds - off)%Z
  | Raise _ => True
  end.
Proof.
  intros Hds Hd Hoff. unfold shape_message, obind. rewrite Hd.
  rewrite (dt_ge_aware _ ds utc utc), instant_replace_tzinfo by done.
  assert (wall d = instant d + off)%Z as -> by (unfold instant; rewrite Hoff; simpl; lia).
  case_bool_decide; [|lia].
  destruct (msg_subject m), (msg_from_ m), (msg_to m), (msg_text m) as [txt|];
    try done.
  destruct (str_truthy txt); [simpl; lia|]. destruct (msg_html m); simpl; [lia|done].
Qed.

(** ** The theorems at concrete inputs *)

#[local] Existing Instance demo_env.

(** The cut-off of the scenario: 2024-03-09T12:00:00 UTC. *)
Definition demo_cutoff : datetime := mk_dt 2024 3 9 12 0 0 (Some utc).

Definition demo_senders : list string :=
  ["alice@example.com"; "bob@example.com"; "carol@example.com"; "dave@example.com"].

Definition demo_run : outcome exn (list email_content) * World :=
  extract_emails_from_inbox "me@example.com" "app-password" demo_senders world0.

(** The records of a run that returned; none for a run that raised. *)
Definition records_of {W} (run : outcome exn (list email_content) * W)
  : list email_content :=
  match run.1 with Ok rs => rs | Raise _ => [] end.

Lemma demo_run_returns : demo_run = (Ok (records_of demo_run), demo_run.2).
Proof. vm_compute. reflexivity. Qed.

Lemma extract_all_fresh_witness :
  Forall (λ r, ∃ d, date r = isoformat (replace_tzinfo d utc)
               ∧ (env_now 0 - US_PER_DAY ≤ wall d)%Z) (records_of demo_run).
Proof.
  apply (extract_all_fresh "me@example.com" "app-password" demo_senders world0
           (records_of demo_run) demo_run.2).
  vm_compute. reflexivity.
Defined.

Lemma extract_summaries_witness :
  Forall (λ r, ∃ n, summary r = Some (summary_at n r)) (records_of demo_run).
Proof.
  apply (extract_summaries "me@example.com" "app-password" demo_senders world0
           (records_of demo_run) demo_run.2).
  vm_compute. reflexivity.
Defined.

Lemma inbox_utc_filed : Forall filed_after_sent inbox_utc.
Proof. repeat constructor; by intros d [= <-]. Qed.

Lemma extract_complete_witness :
  ∃ rs w', @extract_emails_from_inbox utc_env "me@example.com" "app-password"
             demo_senders world0 = (Ok rs, w')
    ∧ Forall2 (@built utc_env) (fresh_messages inbox_utc demo_cutoff demo_senders) rs.
Proof.
  apply (@extract_complete utc_env inbox_utc "me@example.com" "app-password"
           demo_senders world0 demo_cutoff);
    first [reflexivity | exact inbox_utc_filed].
Defined.

Lemma extract_text_fallback_witness :
  Forall (λ r, ∃ m txt, fetched world0 demo_senders m ∧ msg_text m = Ok txt
               ∧ if str_truthy txt then text r = txt
                 else msg_html m = Ok (text r)) (records_of demo_run).
Proof.
  apply (extract_text_fallback "me@example.com" "app-password" demo_senders world0
           (records_of demo_run) demo_run.2).
  vm_compute. reflexivity.
Defined.

Definition denied_run : outcome exn (list email_content) * World :=
  extract_emails_from_inbox "me@example.com" "guess" demo_senders world0.

Definition denied_exn : exn :=
  HTTPException 500
    (fetch_failure_detail "[AUTHENTICATIONFAILED] Invalid credentials (Failure)"
       "me@example.com").

Lemma extract_login_failure_witness :
  ∃ w', denied_run = (Raise denied_exn, w')
    ∧ grows world0 [EvConnect "imap.gmail.com";
                    EvLogin "me@example.com" "guess" "INBOX"] w'.
Proof.
  apply (extract_login_failure "me@example.com" "guess" demo_senders world0
           (mk_dt 2024 3 9 12 0 0 (Some utc))
           (Exception "[AUTHENTICATIONFAILED] Invalid credentials (Failure)"));
    vm_compute; reflexivity.
Defined.

Lemma extract_session_closed_witness :
  ∃ evs cs, grows world0 evs demo_run.2
    ∧ imap_calls evs
      = [EvConnect "imap.gmail.com"; EvLogin "me@example.com" "app-password" "INBOX"]
        ++ (EvFetch <$> cs) ++ [EvLogout].
Proof.
  apply (extract_session_closed "me@example.com" "app-password" demo_senders world0
           (mk_dt 2024 3 9 12 0 0 (Some utc))); vm_compute; reflexivity.
Defined.

Lemma extract_one_chat_per_record_witness :
  chat_requests (w_trace demo_run.2)
  = chat_requests (w_trace world0) ++ (request_of <$> records_of demo_run).
Proof.
  apply (extract_one_chat_per_record "me@example.com" "app-password" demo_senders
           world0 (records_of demo_run) demo_run.2).
  vm_compute. reflexivity.
Defined.

(** The message from the east was sent three hours before the cut-off and is
    kept. *)
Lemma filter_shifted_by_offset_witness :
  match shape_message demo_cutoff m_east with
  | Ok (Some _) =>
      (instant demo_cutoff - hours 5
       ≤ instant (mk_dt 2024 3 9 14 0 0 (Some (hours 5))))%Z
  | Ok None =>
      (instant (mk_dt 2024 3 9 14 0 0 (Some (hours 5)))
       < instant demo_cutoff - hours 5)%Z
  | Raise _ => True
  end.
Proof.
  apply (filter_shifted_by_offset demo_cutoff m_east
           (mk_dt 2024 3 9 14 0 0 (Some (hours 5))) (hours 5)); reflexivity.
Defined.

(** The two messages with an offset, under the code's filter: the one sent
    27 hours before the clock is returned, the one sent 22 hours before it
    is not. *)
Example offset_messages_misfiled :
  ((λ r, subject r)
     <$> records_of (extract_emails_from_inbox "me@example.com" "app-password"
                       ["carol@example.com"; "dave@example.com"] world0))
  = ["From the east"]
  ∧ (clock0 - instant (mk_dt 2024 3 9 14 0 0 (Some (hours 5))) = hours 27)%Z
  ∧ (clock0 - instant (mk_dt 2024 3 9 6 0 0 (Some (hours (-8)))) = hours 22)%Z.
Proof. vm_compute. done. Qed.
