(* ===== verification/Endpoints.v ===== *)
(** * The endpoints and the import-time probe (lines 45-69 and 171-234)

    [extract_from_email] is [POST /extract]: it runs the extractor, answers
    at once when nothing was extracted, and otherwise inserts the records one
    by one, each insert inside its own [try].  [get_emails] is [GET /emails]:
    it reads the table ordered by date, newest first.  [startup_probe] is the
    module-level [try] of lines 46-64.

    A response is the dictionary the handler returns, as a [pyval].

    The insert loop has a pure specification, [stored_rows]: the rows that
    the records produce when the store answers insert number [n] of the
    loop at tick [n].  The theorems relate the loop to it and derive the
    counts of the response; they show that the password of a request is not
    observable in the response, the log, the table or the external calls
    other than the login, that the handlers keep the identifiers of the rows
    distinct, and that the table is append-only. *)

From S2P Require Import Prelude PyStr PyVal DateTime World Scenario.
From S2P Require Import Summarizer Extractor.
From stdpp Require Import sorting.

Local Open Scope py_scope.

(** [EmailRequest] (lines 66-69) *)
Record EmailRequest : Type := {
  email_address : string;
  password : string;
  sender_addresses : list string;
}.

(** The table the three handlers use. *)
Definition EMAILS : string := "emails".

(** The response of lines 185-188. *)
Definition no_emails_response (senders : list string) : pyval :=
  PDict [("message", PStr "No emails found in the last 24 hours from specified senders");
         ("senders_processed", py_strs senders)].

(** The response of lines 202-207. *)
Definition stored_response (found stored : nat) (senders : list string) : pyval :=
  PDict [("message", PStr "Emails extracted and stored successfully");
         ("emails_found", PInt (Z.of_nat found));
         ("emails_stored", PInt (Z.of_nat stored));
         ("senders_processed", py_strs senders)].

(** The responses of [get_emails] (lines 225 and 227-230). *)
Definition empty_database_response : pyval :=
  PDict [("message", PStr "No emails found in database")].

Definition emails_response (emails : list Row) : pyval :=
  PDict [("emails", PList (PDict ∘ row_items <$> emails));
         ("total_count", PInt (Z.of_nat (length emails)))].

(** The schema logged by the probe (lines 53-64), line by line. *)
Definition SCHEMA : string :=
  nl +:+ "    create table if not exists emails (" +:+ nl
  +:+ "        id bigint generated by default as identity primary key," +:+ nl
  +:+ "        subject text," +:+ nl
  +:+ "        from_address text," +:+ nl
  +:+ "        to_address text," +:+ nl
  +:+ "        date timestamp with time zone," +:+ nl
  +:+ "        text text," +:+ nl
  +:+ "        summary text," +:+ nl
  +:+ "        extracted_at timestamp with time zone default timezone('utc'::text, now())" +:+ nl
  +:+ "    );" +:+ nl
  +:+ "    ".

Section endpoints.
Context `{Env}.

(** The probe at import time (lines 46-64). *)
Definition startup_probe : Py unit :=
  try_except
    (logger INFO "Checking/Creating emails table in Supabase" ;;
     table_select_limit EMAILS 1)
    (λ e,
       logger WARNING ("Emails table might not exist: " +:+ str_exn e) ;;
       logger INFO "Please create the following table in Supabase:" ;;
       logger INFO SCHEMA).

(** The body of the insert loop (lines 193-200): [stored_count] before the
    record, [stored_count] after it. *)
Definition store_email (stored_count : nat) (email_data : email_content) : Py nat :=
  try_except
    (table_insert EMAILS email_data ;;
     let stored_count := stored_count + 1 in
     logger INFO ("Stored email: " +:+ str_take 30 (subject email_data) +:+ "...") ;;
     ret stored_count)
    (λ e,
       logger ERROR ("Failed to store email: " +:+ str_exn e) ;;
       ret stored_count).

(** The handler of lines 209-213. *)
Definition reraise_as_http {A} (where_ : string) (e : exn) : Py A :=
  logger ERROR ("Error in " +:+ where_ +:+ ": " +:+ str_exn e) ;;
  if is_HTTPException e then raise e
  else raise (HTTPException 500 (PStr (str_exn e))).

(** [extract_from_email] (lines 171-213) *)
Definition extract_from_email (request : EmailRequest) : Py pyval :=
  try_except
    (logger INFO ("Starting email extraction for: " +:+ email_address request) ;;
     extracted_emails <-
       extract_emails_from_inbox (email_address request) (password request)
         (sender_addresses request) ;;
     match extracted_emails with
     | [] =>
         logger WARNING "No emails found in the last 24 hours from specified senders" ;;
         ret (no_emails_response (sender_addresses request))
     | _ :: _ =>
         logger INFO "Storing emails in Supabase" ;;
         let stored_count := 0 in
         stored_count <- for_fold extracted_emails stored_count store_email ;;
         ret (stored_response (length extracted_emails) stored_count
                (sender_addresses request))
     end)
    (reraise_as_http "extract_from_email").

(** [get_emails] (lines 215-234) *)
Definition get_emails : Py pyval :=
  try_except
    (logger INFO "Retrieving emails from Supabase" ;;
     emails <- table_select_order EMAILS "date.desc" ;;
     match emails with
     | [] =>
         logger WARNING "No emails found in database" ;;
         ret empty_database_response
     | _ :: _ => ret (emails_response emails)
     end)
    (λ e,
       logger ERROR ("Error in get_emails: " +:+ str_exn e) ;;
       raise (HTTPException 500 (PStr (str_exn e)))).

(** ** The insert loop and its specification *)

(** The rows that inserting [rs] appends when the first insert is answered
    at tick [n] and the next free identifier is [next]: a record the store
    refuses produces no row and does not stop the loop. *)
Fixpoint stored_rows (n : nat) (next : Z) (rs : list email_content) : list Row :=
  match rs with
  | [] => []
  | r :: rs' =>
      match env_insert n EMAILS r with
      | Ok t => {| row_id := next; row_date := t; row_data := r |}
                :: stored_rows (S n) (next + 1) rs'
      | Raise _ => stored_rows (S n) next rs'
      end
  end.

(** One iteration, as a function of the store's answer. *)
Lemma store_email_run c r w :
  store_email c r w
  = match env_insert (w_tick w) EMAILS r with
    | Ok t =>
        (Ok (c + 1),
         w_add_log INFO ("Stored email: " +:+ str_take 30 (subject r) +:+ "...")
           (w_add_row t r (w_record (EvInsert EMAILS r) w)))
    | Raise e =>
        (Ok c, w_add_log ERROR ("Failed to store email: " +:+ str_exn e)
                 (w_record (EvInsert EMAILS r) w))
    end.
Proof.
  unfold store_email, table_insert, try_except, bind, call. simpl.
  by destruct (env_insert _ _ _).
Qed.

(** What the loop leaves behind, in terms of [stored_rows]. *)
Definition after_inserts (w : World) (rs : list email_content) (w' : World) : Prop :=
  let rows := stored_rows (w_tick w) (w_next_id w) rs in
  w_rows w' = w_rows w ++ rows
  ∧ w_next_id w' = (w_next_id w + Z.of_nat (length rows))%Z
  ∧ w_trace w' = w_trace w ++ (EvInsert EMAILS <$> rs)
  ∧ w_tick w' = w_tick w + length rs.

Lemma after_inserts_stored l msg t r rs w w' :
  env_insert (w_tick w) EMAILS r = Ok t →
  after_inserts (w_add_log l msg (w_add_row t r (w_record (EvInsert EMAILS r) w)))
    rs w' →
  after_inserts w (r :: rs) w'.
Proof.
  unfold after_inserts. simpl. intros -> (-> & -> & -> & ->). simpl.
  rewrite <- !app_assoc. split_and!; [done|lia|done|lia].
Qed.

Lemma after_inserts_refused l msg e r rs w w' :
  env_insert (w_tick w) EMAILS r = Raise e →
  after_inserts (w_add_log l msg (w_record (EvInsert EMAILS r) w)) rs w' →
  after_inserts w (r :: rs) w'.
Proof.
  unfold after_inserts. simpl. intros -> (-> & -> & -> & ->).
  rewrite <- !app_assoc. split_and!; [done..|lia].
Qed.

(** The loop implements [stored_rows]: it never raises, it counts the rows
    it stored, it attempts every record once and in order. *)
Lemma store_loop_refines rs c w :
  ∃ w', for_fold rs c store_email w
        = (Ok (c + length (stored_rows (w_tick w) (w_next_id w) rs)), w')
    ∧ after_inserts w rs w'.
Proof.
  revert c w. induction rs as [|r rs IH]; intros c w.
  - exists w. unfold after_inserts. simpl.
    by rewrite !app_nil_r, !Nat.add_0_r, Z.add_0_r.
  - cbn [for_fold stored_rows]. unfold bind. rewrite store_email_run.
    destruct (env_insert (w_tick w) EMAILS r) as [t|e] eqn:Hins.
    + edestruct IH as (w' & -> & Hafter). exists w'. split.
      * simpl. do 2 f_equal. lia.
      * by eapply after_inserts_stored.
    + edestruct IH as (w' & -> & Hafter). exists w'. split; [done|].
      by eapply after_inserts_refused.
Qed.

Lemma stored_rows_length n next rs : length (stored_rows n next rs) ≤ length rs.
Proof.
  revert n next. induction rs as [|r rs IH]; intros n next; simpl; [lia|].
  destruct (env_insert _ _ _); simpl; [specialize (IH (S n) (next + 1)%Z)
                                      |specialize (IH (S n) next)]; lia.
Qed.

(** The rows stored hold records of the request, in their order. *)
Lemma stored_rows_sublist n next rs :
  (row_data <$> stored_rows n next rs) `sublist_of` rs.
Proof.
  revert n next. induction rs as [|r rs IH]; intros n next; simpl; [done|].
  destruct (env_insert _ _ _); csimpl; [apply sublist_skip|apply sublist_cons];
    apply IH.
Qed.

(** A record the store accepts is stored whatever happened to the records
    before it. *)
Lemma stored_rows_app n next rs1 rs2 :
  stored_rows n next (rs1 ++ rs2)
  = stored_rows n next rs1
    ++ stored_rows (n + length rs1)
         (next + Z.of_nat (length (stored_rows n next rs1))) rs2.
Proof.
  revert n next. induction rs1 as [|r rs1 IH]; intros n next; simpl.
  - by rewrite Nat.add_0_r, Z.add_0_r.
  - destruct (env_insert _ _ _); rewrite IH; cbn [length app];
      [do 2 f_equal|f_equal]; f_equal; lia.
Qed.
End endpoints.

(** ** Failures of the store are local *)

Section insert_loop.
Context `{Env}.

(** C31: a record the store accepts is stored whatever happened to
    the records before it: the loop never raises, the row of an accepted
    record is in the table afterwards with the date the store gave it, and
    the rows added hold records of the list, in its order. *)
Theorem insert_failure_is_local rs1 r rs2 c w t :
  env_insert (w_tick w + length rs1) EMAILS r = Ok t →
  ∃ n w' i, for_fold (rs1 ++ r :: rs2) c store_email w = (Ok n, w')
    ∧ {| row_id := i; row_date := t; row_data := r |} ∈ w_rows w'
    ∧ (row_data <$> drop (length (w_rows w)) (w_rows w'))
        `sublist_of` (rs1 ++ r :: rs2).
Proof.
  intros Hins.
  destruct (store_loop_refines (rs1 ++ r :: rs2) c w) as (w' & -> & Hrows & _).
  eexists _, w', _. split; [done|]. rewrite Hrows, drop_app_length. split.
  - rewrite stored_rows_app. cbn [stored_rows]. rewrite Hins.
    rewrite !elem_of_app. right. right. apply list_elem_of_here.
  - apply stored_rows_sublist.
Qed.
End insert_loop.

(** ** The order of the listing *)

#[export] Instance newer_or_equal_total : Total newer_or_equal.
Proof. intros r1 r2. unfold newer_or_equal. lia. Qed.

#[export] Instance newer_or_equal_trans : Transitive newer_or_equal.
Proof. intros r1 r2 r3. unfold newer_or_equal. lia. Qed.

(** ** [POST /extract] *)

Section extract_endpoint.
Context `{Env}.
Implicit Types (req : EmailRequest) (w : World) (rs : list email_content).

(** The world when the extractor is called (line 175 has logged). *)
Definition w_request req w : World :=
  w_add_log INFO ("Starting email extraction for: " +:+ email_address req) w.

(** The extractor as the endpoint calls it. *)
Definition extraction_run req w : outcome exn (list email_content) * World :=
  extract_emails_from_inbox (email_address req) (password req)
    (sender_addresses req) (w_request req w).

(** The response for the records [rs], [stored] of which were stored. *)
Definition response_for req rs (stored : nat) : pyval :=
  match rs with
  | [] => no_emails_response (sender_addresses req)
  | _ :: _ => stored_response (length rs) stored (sender_addresses req)
  end.

(** The handler, path by path. *)
Lemma extract_from_email_run req w :
  extract_from_email req w
  = match extraction_run req w with
    | (Raise e, w1) => reraise_as_http "extract_from_email" e w1
    | (Ok [], w1) =>
        (Ok (no_emails_response (sender_addresses req)),
         w_add_log WARNING
           "No emails found in the last 24 hours from specified senders" w1)
    | (Ok rs, w1) =>
        let w2 := w_add_log INFO "Storing emails in Supabase" w1 in
        match for_fold rs 0 store_email w2 with
        | (Ok n, w3) =>
            (Ok (stored_response (length rs) n (sender_addresses req)), w3)
        | (Raise e, w3) => reraise_as_http "extract_from_email" e w3
        end
    end.
Proof.
  unfold extract_from_email, extraction_run, w_request, try_except, bind.
  unfold logger at 1, modify at 1. cbn [enabled].
  destruct (extract_emails_from_inbox _ _ _ _) as [[[|r rs]|e] w1]; try done.
  unfold logger at 1, modify at 1. cbn [enabled].
  by destruct (for_fold (r :: rs) 0 store_email _) as [[n|e] w3].
Qed.

(** The handler never answers when the extractor raised. *)
Lemma reraise_as_http_raises {A} where_ e w :
  ∃ e' w', @reraise_as_http _ A where_ e w = (Raise e', w').
Proof.
  unfold reraise_as_http, bind. simpl. destruct (is_HTTPException e); eauto.
Qed.

(** A request whose extraction returned [rs] is answered, after every
    record was sent to the store. *)
Lemma extract_from_email_stores req w rs w1 :
  extraction_run req w = (Ok rs, w1) →
  let rows := stored_rows (w_tick w1) (w_next_id w) rs in
  ∃ w', extract_from_email req w = (Ok (response_for req rs (length rows)), w')
    ∧ w_rows w' = w_rows w ++ rows
    ∧ insert_requests (w_trace w') = insert_requests (w_trace w) ++ rs.
Proof.
  intros Hrun. rewrite extract_from_email_run, Hrun.
  pose proof (extract_keeps_rows (email_address req) (password req)
                (sender_addresses req) (w_request req w)) as (Hr & Hn & Hi).
  unfold extraction_run in Hrun. rewrite Hrun in Hr, Hn, Hi. simpl in *.
  destruct rs as [|r rs]; [eexists; simpl; by rewrite !app_nil_r|].
  destruct (store_loop_refines (r :: rs) 0 (w_add_log INFO "Storing emails in Supabase" w1))
    as (w3 & -> & Hrows & _ & Ht & _).
  exists w3. cbn [w_rows w_tick w_next_id w_trace w_add_log] in *.
  by rewrite Hrows, Ht, Hr, Hn, insert_requests_app, Hi, insert_requests_inserts.
Qed.

(** C2: a request that is answered has done exactly this: the
    extractor returned some records [rs]; every one of them was sent to the
    store once, in order, whether or not earlier inserts failed; the table
    grew by the rows [stored_rows] describes, the accepted records with fresh
    consecutive identifiers; and the response is the one for [rs] and the
    number of rows stored. *)
Theorem extract_from_email_refines req w resp w' :
  extract_from_email req w = (Ok resp, w') →
  ∃ rs w1, extraction_run req w = (Ok rs, w1)
    ∧ let rows := stored_rows (w_tick w1) (w_next_id w) rs in
      w_rows w' = w_rows w ++ rows
      ∧ insert_requests (w_trace w') = insert_requests (w_trace w) ++ rs
      ∧ resp = response_for req rs (length rows).
Proof.
  destruct (extraction_run req w) as [[rs|e] w1] eqn:Hrun.
  - destruct (extract_from_email_stores req w rs w1 Hrun) as (w2 & -> & ? & ?).
    intros [= <- <-]. by exists rs, w1.
  - rewrite extract_from_email_run, Hrun.
    by destruct (reraise_as_http_raises (A:=pyval) "extract_from_email" e w1)
      as (? & ? & ->).
Qed.

(** The two ways the handler ends: with the response for the records the
    extractor returned, or with the [HTTPException] of the extractor. *)
Lemma extract_from_email_cases req w :
  (∃ rs n w', extract_from_email req w = (Ok (response_for req rs n), w'))
  ∨ (∃ msg w', extract_from_email req w
       = (Raise (HTTPException 500 (fetch_failure_detail msg (email_address req))),
          w')).
Proof.
  destruct (extraction_run req w) as [[rs|e] w1] eqn:Hrun.
  - destruct (extract_from_email_stores req w rs w1 Hrun) as (w2 & -> & _).
    left. by eexists _, _, _.
  - rewrite extract_from_email_run, Hrun. unfold extraction_run in Hrun.
    destruct (extract_raise_shape _ _ _ _ _ _ Hrun) as (msg & -> & _).
    right. by eexists _, _.
Qed.

(** C32: in every answer of [POST /extract] that carries counts,
    [emails_found] is positive and [emails_stored] is at most
    [emails_found]; the only other answer is the no-emails one. *)
Theorem extract_from_email_counts req w resp w' :
  extract_from_email req w = (Ok resp, w') →
  resp = no_emails_response (sender_addresses req)
  ∨ ∃ found stored,
      resp = stored_response found stored (sender_addresses req)
      ∧ 0 < found ∧ stored ≤ found.
Proof.
  rewrite extract_from_email_run.
  destruct (extraction_run req w) as [[[|r rs]|e] w1];
    [intros [= <- _]; by left| |
     unfold reraise_as_http, bind; simpl; by destruct (is_HTTPException e)].
  cbn zeta. set (w2 := w_add_log _ _ w1).
  destruct (store_loop_refines (r :: rs) 0 w2) as (w3 & -> & _).
  intros [= <- _]. right. eexists _, _. split; [done|].
  pose proof (stored_rows_length (w_tick w2) (w_next_id w2) (r :: rs)).
  simpl in *. lia.
Qed.

(** C37: when the extractor returns no record, the answer is the
    no-emails dictionary: it has no [emails_found] key, its
    [senders_processed] is the list of the request, and nothing was sent to
    the store. *)
Theorem extract_from_email_nothing req w w1 :
  extraction_run req w = (Ok [], w1) →
  ∃ resp w', extract_from_email req w = (Ok resp, w')
    ∧ py_get "emails_found" resp = None
    ∧ py_get "senders_processed" resp = Some (py_strs (sender_addresses req))
    ∧ w_rows w' = w_rows w
    ∧ insert_requests (w_trace w') = insert_requests (w_trace w).
Proof.
  intros Hrun. rewrite extract_from_email_run, Hrun.
  pose proof (extract_keeps_rows (email_address req) (password req)
                (sender_addresses req) (w_request req w)) as (Hr & _ & Hi).
  unfold extraction_run in Hrun. rewrite Hrun in Hr, Hi.
  eexists _, _. by split_and!.
Qed.

(** C26: when [POST /extract] fails, what it raises is the
    [HTTPException] of the extractor, unchanged: status 500 and the
    structured detail with the mailbox address of the request; nothing was
    sent to the store. *)
Theorem extract_from_email_raises req w e w' :
  extract_from_email req w = (Raise e, w') →
  (∃ msg, e = HTTPException 500 (fetch_failure_detail msg (email_address req)))
  ∧ w_rows w' = w_rows w
  ∧ insert_requests (w_trace w') = insert_requests (w_trace w).
Proof.
  rewrite extract_from_email_run.
  pose proof (extract_keeps_rows (email_address req) (password req)
                (sender_addresses req) (w_request req w)) as (Hr & _ & Hi).
  destruct (extraction_run req w) as [[rs|e0] w1] eqn:Hrun.
  - destruct rs as [|r rs]; [done|]. cbn zeta.
    by destruct (store_loop_refines (r :: rs) 0
                   (w_add_log INFO "Storing emails in Supabase" w1)) as (w3 & -> & _).
  - unfold extraction_run in Hrun.
    destruct (extract_raise_shape _ _ _ _ _ _ Hrun) as (msg & -> & _).
    rewrite Hrun in Hr, Hi. intros [= <- <-]. eauto.
Qed.
End extract_endpoint.

(** ** [GET /emails] and the probe *)

Section listing.
Context `{Env}.
Implicit Types w : World.

(** The world after the query was sent (line 220). *)
Definition w_queried w : World :=
  w_record (EvSelect EMAILS "*" (Some "date.desc") None)
    (w_add_log INFO "Retrieving emails from Supabase" w).

(** The handler, path by path. *)
Lemma get_emails_run w :
  get_emails w
  = match env_select (w_tick w) EMAILS with
    | Some e =>
        (Raise (HTTPException 500 (PStr (str_exn e))),
         w_add_log ERROR ("Error in get_emails: " +:+ str_exn e) (w_queried w))
    | None =>
        match merge_sort newer_or_equal (w_rows w) with
        | [] => (Ok empty_database_response,
                 w_add_log WARNING "No emails found in database" (w_queried w))
        | emails => (Ok (emails_response emails), w_queried w)
        end
    end.
Proof.
  unfold get_emails, table_select_order, try_except, bind, call, gets. simpl.
  destruct (env_select _ _); [done|]. simpl.
  by destruct (merge_sort _ _).
Qed.

Lemma merge_sort_nil_iff (rows : list Row) :
  merge_sort newer_or_equal rows = [] ↔ rows = [].
Proof.
  split; [|by intros ->].
  intros Hs. apply Permutation_nil_r. rewrite <-Hs. symmetry.
  apply merge_sort_Permutation.
Qed.


(** On an empty table, [GET /emails] answers with the message
    dictionary, which has no [emails] key. *)
Theorem get_emails_empty w :
  env_select (w_tick w) EMAILS = None → w_rows w = [] →
  (get_emails w).1 = Ok empty_database_response
  ∧ py_get "emails" empty_database_response = None.
Proof. intros Hsel Hr. by rewrite get_emails_run, Hsel, Hr. Qed.

(** C38: when the query fails with [e], [GET /emails] raises an
    [HTTPException] with status 500 whose detail is the text [str(e)]. *)
Theorem get_emails_query_error w e :
  env_select (w_tick w) EMAILS = Some e →
  (get_emails w).1 = Raise (HTTPException 500 (PStr (str_exn e))).
Proof. intros Hsel. by rewrite get_emails_run, Hsel. Qed.

(** [GET /emails] reads only: on every path the table is
    unchanged and the one external call is the select with the order
    argument of line 220. *)
Theorem get_emails_reads_only w :
  grows w [EvSelect EMAILS "*" (Some "date.desc") None] (get_emails w).2.
Proof.
  rewrite get_emails_run. destruct (env_select _ _); [done|].
  by destruct (merge_sort _ _).
Qed.

Lemma startup_probe_returns w : (startup_probe w).1 = Ok tt.
Proof.
  unfold startup_probe, table_select_limit, try_except, bind, call. simpl.
  by destruct (env_select _ _).
Qed.

(** C39: the probe at import time never raises and never changes the
    table; when the select fails with [e] it logs the warning with [str(e)]
    and the schema, otherwise only its first line. *)
Theorem startup_probe_spec w :
  ∃ w', startup_probe w = (Ok tt, w')
    ∧ grows w [EvSelect EMAILS "*" None (Some 1%Z)] w'
    ∧ w_log w'
      = w_log w ++ (INFO, "Checking/Creating emails table in Supabase")
        :: match env_select (w_tick w) EMAILS with
           | None => []
           | Some e =>
               [(WARNING, "Emails table might not exist: " +:+ str_exn e);
                (INFO, "Please create the following table in Supabase:");
                (INFO, SCHEMA)]
           end.
Proof.
  unfold startup_probe, table_select_limit, try_except, bind, call. simpl.
  destruct (env_select _ _); simpl; eexists;
    (split; [done|split; [grows_done|simpl; by rewrite <- ?app_assoc]]).
Qed.
End listing.

(** ** The password of a request *)

Section request_password.
Context `{Env}.

(** The request [req] with another password. *)
Definition with_password (req : EmailRequest) (p : string) : EmailRequest :=
  {| email_address := email_address req; password := p;
     sender_addresses := sender_addresses req |}.

Lemma sim_store_email (R : relation World) `{!Blind R} stored_count email_data :
  sim R (store_email stored_count email_data)
    (store_email stored_count email_data).
Proof. unfold store_email. sim_auto. Qed.

Lemma sim_reraise_as_http (R : relation World) `{!Blind R} {A} where_ e :
  sim R (reraise_as_http (A:=A) where_ e) (reraise_as_http where_ e).
Proof. unfold reraise_as_http. sim_auto. Qed.

Lemma sim_extract_from_email req p :
  (∀ n, env_login n (email_address req) (password req) "INBOX"
        = env_login n (email_address req) p "INBOX") →
  sim same_view (extract_from_email req) (extract_from_email (with_password req p)).
Proof.
  intros Hl. pose proof (sim_store_email same_view).
  pose proof (sim_reraise_as_http same_view (A:=pyval)).
  pose proof (sim_extract_emails same_view _ _ _ (sender_addresses req)
                (sim_MailBox_login _ _ _ _ _ Hl)).
  unfold extract_from_email. simpl. sim_auto.
Qed.

(** C7: the password of a request reaches the login of the mailbox
    and nothing else.  Two requests that differ in the password only, to a
    mailbox that answers both logins alike, get the same response or the
    same exception, write the same log records, leave the same table and
    make the same external calls with the same arguments, the password of
    the login apart: no log record, no stored row, no chat request and no
    search depends on the password. *)
Theorem password_not_observed req p w :
  (∀ n, env_login n (email_address req) (password req) "INBOX"
        = env_login n (email_address req) p "INBOX") →
  let run1 := extract_from_email req w in
  let run2 := extract_from_email (with_password req p) w in
  run1.1 = run2.1 ∧ w_log run1.2 = w_log run2.2 ∧ w_rows run1.2 = w_rows run2.2
  ∧ mask_password <$> w_trace run1.2 = mask_password <$> w_trace run2.2.
Proof.
  intros Hl.
  destruct (sim_extract_from_email req p Hl w w)
    as (Ho & _ & Hlog & Hrows & _ & Htr); [done|]. by split_and!.
Qed.
End request_password.

(** ** The identifiers of the table *)

Section table_invariant.
Context `{Env}.

(** A row added under the next identifier is a new row. *)
Lemma store_wf_add_row t data w : store_wf w → store_wf (w_add_row t data w).
Proof.
  unfold store_wf. simpl. intros [Hlt Hnd]. split.
  - apply Forall_app. split; [|repeat constructor; simpl; lia].
    eapply Forall_impl; [done|]. intros r ?. simpl in *. lia.
  - rewrite fmap_app. apply NoDup_app. split_and!; [done| |apply NoDup_singleton].
    intros i Hi ->%list_elem_of_singleton.
    apply list_elem_of_fmap in Hi as (r & Heq & Hr).
    rewrite Forall_forall in Hlt. specialize (Hlt r Hr). simpl in *. lia.
Qed.

#[export] Instance store_wf_growing : Growing store_wf.
Proof. split; [apply _|apply store_wf_add_row]. Qed.

(** An insert keeps what survives a new row. *)
Lemma preserves_table_insert (P : World → Prop) `{!Growing P} table data :
  preserves P (table_insert table data).
Proof.
  apply preserves_bind; [apply preserves_call, _|].
  intros t. apply preserves_modify, growing_add_row.
Qed.

Lemma preserves_store_email (P : World → Prop) `{!Growing P} stored_count email_data :
  preserves P (store_email stored_count email_data).
Proof.
  pose proof (preserves_table_insert P). pose proof (growing_stable (P:=P)).
  unfold store_email. preserves_auto.
Qed.

Lemma preserves_extract_from_email (P : World → Prop) `{!Growing P} request :
  preserves P (extract_from_email request).
Proof.
  pose proof (preserves_store_email P). pose proof (growing_stable (P:=P)).
  unfold extract_from_email, reraise_as_http. preserves_auto.
Qed.

Lemma preserves_get_emails (P : World → Prop) `{!Stable P} : preserves P get_emails.
Proof. unfold get_emails. preserves_auto. Qed.

Lemma preserves_startup_probe (P : World → Prop) `{!Stable P} :
  preserves P startup_probe.
Proof. unfold startup_probe. preserves_auto. Qed.


(** The table is append-only.  The start-up probe and
    the two endpoints, whether they return or raise, leave every row of the
    table in its place with its identifier, its date and its data: there is
    no update and no delete, a row once stored is listed by every later
    [GET /emails]. *)
Theorem table_append_only request w :
  w_rows w `prefix_of` w_rows (startup_probe w).2
  ∧ w_rows w `prefix_of` w_rows (extract_from_email request w).2
  ∧ w_rows w `prefix_of` w_rows (get_emails w).2.
Proof.
  split_and!; apply (preserves_run (keeps_rows (w_rows w)));
    try (by unfold keeps_rows).
  - apply preserves_startup_probe, _.
  - apply preserves_extract_from_email, _.
  - apply preserves_get_emails, _.
Qed.
End table_invariant.

(** ** The theorems at concrete inputs *)

#[local] Existing Instance demo_env.

Definition demo_request : EmailRequest :=
  {| email_address := "me@example.com"; password := "app-password";
     sender_addresses := demo_senders |}.

(** A request for a sender the mailbox has nothing from. *)
Definition quiet_request : EmailRequest :=
  {| email_address := "me@example.com"; password := "app-password";
     sender_addresses := ["zoe@example.com"] |}.

(** A request with a password the mailbox refuses. *)
Definition denied_request : EmailRequest :=
  {| email_address := "me@example.com"; password := "guess";
     sender_addresses := demo_senders |}.

Definition demo_post : outcome exn pyval * World :=
  extract_from_email demo_request world0.

(** The response of a run that returned. *)
Definition response_of {W} (run : outcome exn pyval * W) : pyval :=
  match run.1 with Ok resp => resp | Raise _ => PNone end.

Lemma extract_from_email_refines_witness :
  ∃ rs w1, extraction_run demo_request world0 = (Ok rs, w1)
    ∧ let rows := stored_rows (w_tick w1) (w_next_id world0) rs in
      w_rows demo_post.2 = w_rows world0 ++ rows
      ∧ insert_requests (w_trace demo_post.2)
        = insert_requests (w_trace world0) ++ rs
      ∧ response_of demo_post = response_for demo_request rs (length rows).
Proof.
  apply (extract_from_email_refines demo_request world0 (response_of demo_post)
           demo_post.2).
  vm_compute. reflexivity.
Defined.

Lemma extract_from_email_counts_witness :
  response_of demo_post = no_emails_response demo_senders
  ∨ ∃ found stored,
      response_of demo_post = stored_response found stored demo_senders
      ∧ 0 < found ∧ stored ≤ found.
Proof.
  apply (extract_from_email_counts demo_request world0 (response_of demo_post)
           demo_post.2).
  vm_compute. reflexivity.
Defined.

Lemma extract_from_email_nothing_witness :
  ∃ resp w', extract_from_email quiet_request world0 = (Ok resp, w')
    ∧ py_get "emails_found" resp = None
    ∧ py_get "senders_processed" resp = Some (py_strs ["zoe@example.com"])
    ∧ w_rows w' = w_rows world0
    ∧ insert_requests (w_trace w') = insert_requests (w_trace world0).
Proof.
  apply (extract_from_email_nothing quiet_request world0
           (extraction_run quiet_request world0).2).
  vm_compute. reflexivity.
Defined.

Lemma extract_from_email_raises_witness :
  (∃ msg, denied_exn = HTTPException 500 (fetch_failure_detail msg "me@example.com"))
  ∧ w_rows (extract_from_email denied_request world0).2 = w_rows world0
  ∧ insert_requests (w_trace (extract_from_email denied_request world0).2)
    = insert_requests (w_trace world0).
Proof.
  apply (extract_from_email_raises denied_request world0 denied_exn
           (extract_from_email denied_request world0).2).
  vm_compute. reflexivity.
Defined.


Lemma get_emails_empty_witness :
  (get_emails world0).1 = Ok empty_database_response
  ∧ py_get "emails" empty_database_response = None.
Proof. apply (get_emails_empty world0); reflexivity. Defined.

Lemma get_emails_query_error_witness :
  (@get_emails offline_env world0).1
  = Raise (HTTPException 500 (PStr "Connection refused")).
Proof.
  apply (@get_emails_query_error offline_env world0 (Exception "Connection refused")).
  reflexivity.
Defined.


(** Two passwords the mailbox refuses. *)
Lemma password_not_observed_witness :
  let run1 := extract_from_email denied_request world0 in
  let run2 := extract_from_email (with_password denied_request "password") world0 in
  run1.1 = run2.1 ∧ w_log run1.2 = w_log run2.2 ∧ w_rows run1.2 = w_rows run2.2
  ∧ mask_password <$> w_trace run1.2 = mask_password <$> w_trace run2.2.
Proof. apply (password_not_observed denied_request "password" world0). reflexivity. Defined.

(** A record the store of the scenario refuses, followed by one it accepts. *)
Definition ec_newsletter : email_content :=
  {| subject := "Newsletter"; from_address := "bob@example.com";
     to_address := "me@example.com"; date := "2024-03-10T08:00:00+00:00";
     text := "<b>hi</b>"; extracted_at := "2024-03-10T12:00:06+00:00";
     summary := Some "Summary 7" |}.

Lemma insert_failure_is_local_witness :
  ∃ n w' i, for_fold ([ec_newsletter] ++ [ec_lunch]) 0 store_email world0 = (Ok n, w')
    ∧ {| row_id := i; row_date := wall (mk_dt 2024 3 10 10 0 0 None);
         row_data := ec_lunch |} ∈ w_rows w'
    ∧ (row_data <$> drop (length (w_rows world0)) (w_rows w'))
        `sublist_of` ([ec_newsletter] ++ [ec_lunch]).
Proof.
  apply (insert_failure_is_local [ec_newsletter] ec_lunch [] 0 world0).
  vm_compute. reflexivity.
Defined.
