(* ===== verification/Cost.v ===== *)
(** * How long a request can run

    [src/app/main.py] has three loops (over the senders, line 118, over the
    messages of a fetch, line 129, over the records to store, line 193) and
    no retry; every interaction with the mailbox, the chat API, the store or
    the clock advances the tick of the world by one.  This file bounds the
    ticks of a run: the handlers end, and after a number of interactions
    that the request and the size of the mailbox's answers determine.

    The bounds are proved with the rules of [Prelude.advances] for the
    measure [w_tick]: one rule per primitive here, the structural rules and
    the loop rule from the prelude, the tactic [advances_auto] for the
    straight-line parts. *)

From S2P Require Import Prelude PyStr PyVal DateTime.
From S2P Require Import Iso World Store Scenario Summarizer.
From S2P Require Import Extractor Endpoints.
From stdpp Require Import sorting.

Local Open Scope py_scope.

(** [ticks c k]: a run of [c] makes at most [k] interactions. *)
Abbreviation ticks := (advances w_tick).

(** ** The primitives *)

Section primitive_costs.
Context `{Env}.

Lemma ticks_call {A} ev (answer : nat → outcome exn A) : ticks (call ev answer) 1.
Proof. intros w. simpl. lia. Qed.

Lemma ticks_logger l msg : ticks (logger l msg) 0.
Proof. intros w. unfold logger, modify. simpl. destruct (enabled l); simpl; lia. Qed.

Lemma ticks_datetime_now_utc : ticks datetime_now_utc 1.
Proof. intros w. simpl. lia. Qed.

Lemma ticks_add_row t data : ticks (modify (w_add_row t data) : Py unit) 0.
Proof. intros w. simpl. lia. Qed.

Lemma ticks_if {A} (b : bool) (c1 c2 : Py A) k1 k2 :
  ticks c1 k1 → ticks c2 k2 → ticks (if b then c1 else c2) (k1 `max` k2).
Proof. intros H1 H2. destruct b; (eapply advances_mono; [done|lia]). Qed.
End primitive_costs.

Create HintDb cost discriminated.
#[export] Hint Resolve ticks_call ticks_logger ticks_datetime_now_utc
  ticks_add_row : cost.

(** [advances_auto]: the cost of a program built from the primitives, by
    adding up along its structure; a conditional costs the larger of its
    branches. *)
Ltac advances_auto :=
  repeat first
    [ solve [eauto 2 with cost]
    | apply advances_ret | apply advances_raise | apply advances_lift
    | apply advances_gets
    | eapply ticks_if
    | eapply advances_bind; [|intros ?]
    | eapply advances_try_except; [|intros ?]
    | eapply advances_finally ].

(** ** The handlers *)

Section costs.
Context `{Env}.
Implicit Types (w : World) (req : EmailRequest) (B : nat).

Lemma ticks_summarize ec : ticks (summarize_single_email ec) 1.
Proof.
  eapply advances_mono; [unfold summarize_single_email; advances_auto|].
  simpl. lia.
Qed.

Hint Resolve ticks_summarize : cost.

(** A message costs a reading of the clock and a chat request, when it is
    kept. *)
Lemma ticks_process_message ds acc m : ticks (process_message ds acc m) 2.
Proof.
  eapply advances_mono; [unfold process_message; advances_auto|].
  simpl. lia.
Qed.

(** A sender costs its fetch and its messages. *)
Lemma ticks_process_sender B ds acc sender :
  (∀ n c, length (env_fetch n c).1 ≤ B) →
  ticks (process_sender ds acc sender) (1 + 2 * B).
Proof.
  intros HB w. unfold process_sender, mailbox_fetch, call, logger, modify, bind.
  simpl. set (w1 := w_record _ _).
  specialize (HB (w_tick w) (sender_criteria ds sender)).
  pose proof (advances_for_fold w_tick (env_fetch (w_tick w) (sender_criteria ds sender)).1
                acc (process_message ds) 2 (ticks_process_message ds) w1) as Hl.
  destruct (for_fold _ _ _ w1) as [[rs|e] w2]; simpl in *;
    [destruct (env_fetch _ _).2|]; simpl; nia.
Qed.

(** The session: the clock, connect, login, the senders, logout. *)
Lemma ticks_extract B a p senders :
  (∀ n c, length (env_fetch n c).1 ≤ B) →
  ticks (extract_emails_from_inbox a p senders) (4 + length senders * (1 + 2 * B)).
Proof.
  intros HB. eapply advances_mono.
  - unfold extract_emails_from_inbox, MailBox_login, MailBox_exit.
    advances_auto. apply advances_for_fold. intros acc s.
    by apply ticks_process_sender.
  - set (k := length senders * (1 + 2 * B)). simpl. lia.
Qed.

(** An insert costs one interaction, accepted or refused. *)
Lemma ticks_store_email c r : ticks (store_email c r) 1.
Proof.
  eapply advances_mono; [unfold store_email, table_insert; advances_auto|].
  simpl. lia.
Qed.

(** ** The size of what the extractor returns *)

Lemma kept_length ds msgs : length (kept ds msgs) ≤ length msgs.
Proof.
  induction msgs as [|m msgs IH]; [done|]. rewrite kept_cons, length_app.
  unfold kept at 1. simpl. destruct (shape_message ds m) as [[s|]|]; simpl; lia.
Qed.

Lemma batches_length B ds bs :
  (∀ n c, length (env_fetch n c).1 ≤ B) → Forall (batch_ok ds) bs →
  length (mjoin (b_records <$> bs)) ≤ length bs * B.
Proof.
  intros HB. induction 1 as [|b bs [Hb [n Hn]] _ IH]; [done|].
  csimpl. rewrite length_app. apply Forall2_length in Hb.
  pose proof (kept_length ds (b_messages b)). specialize (HB n (sender_criteria ds (b_sender b))).
  rewrite Hn in HB. simpl in HB. lia.
Qed.

Lemma extract_length B a p senders w rs w' :
  (∀ n c, length (env_fetch n c).1 ≤ B) →
  extract_emails_from_inbox a p senders w = (Ok rs, w') →
  length rs ≤ length senders * B.
Proof.
  intros HB (ds & bs & _ & (<- & Hok & _ & ->) & _)%extract_returns.
  rewrite length_fmap. by eapply batches_length.
Qed.

(** ** The endpoints *)

(** The interactions a request for [n] senders can make when no answer of
    the mailbox holds more than [B] messages: the clock, the connection, the
    login and the logout; for each sender its search; for each message a
    reading of the clock, a chat request and an insert. *)
Definition request_budget (n B : nat) : nat := 4 + n * (1 + 3 * B).

(** C24: when no answer of the mailbox to a
    search holds more than [B] messages, a [POST /extract] for [n] senders
    ends, with a response or an exception, after at most
    [4 + n * (1 + 3 * B)] interactions with the clock, the mailbox, the
    chat API and the store: the clock, the connection, the login and the
    logout, and for each sender its search and for each message a reading
    of the clock, a chat request and an insert.  There is no retry. *)
Theorem extract_from_email_terminates B req w :
  (∀ n c, length (env_fetch n c).1 ≤ B) →
  let w' := (extract_from_email req w).2 in
  w_tick w ≤ w_tick w'
  ≤ w_tick w + request_budget (length (sender_addresses req)) B.
Proof.
  intros HB. unfold request_budget. rewrite extract_from_email_run.
  pose proof (ticks_extract B (email_address req) (password req)
                (sender_addresses req) HB (w_request req w)) as Hx.
  fold (extraction_run req w) in Hx.
  destruct (extraction_run req w) as [[rs|e] w1] eqn:Hrun; simpl in Hx.
  - apply (extract_length B) in Hrun; [|done]. destruct rs as [|r rs]; [simpl; nia|].
    cbv beta iota zeta.
    destruct (store_loop_refines (r :: rs) 0
                (w_add_log INFO "Storing emails in Supabase" w1))
      as (w3 & -> & _ & _ & _ & Ht). simpl in *. nia.
  - unfold reraise_as_http, bind. simpl. destruct (is_HTTPException e); simpl; nia.
Qed.

(** [GET /emails] and the probe make one interaction. *)
Lemma ticks_get_emails : ticks get_emails 1.
Proof.
  intros w. rewrite get_emails_run. destruct (env_select _ _); [simpl; lia|].
  destruct (merge_sort _ _); simpl; lia.
Qed.

Lemma ticks_startup_probe : ticks startup_probe 1.
Proof.
  eapply advances_mono;
    [unfold startup_probe, table_select_limit; advances_auto|simpl; lia].
Qed.
End costs.

(** ** The theorem at a concrete input *)

Lemma imap_search_length (box : mailbox) c : length (imap_search box c) ≤ length box.
Proof.
  induction box as [|[[s a] m] box IH]; [done|]. rewrite imap_search_cons, length_app.
  destruct (_ && _); simpl; lia.
Qed.

Lemma extract_from_email_terminates_witness :
  let w' := (@extract_from_email demo_env demo_request world0).2 in
  w_tick world0 ≤ w_tick w'
  ≤ w_tick world0 + request_budget (length (sender_addresses demo_request)) 6.
Proof.
  apply (@extract_from_email_terminates demo_env 6 demo_request world0).
  intros n c. apply (imap_search_length inbox c).
Defined.

(** The request of the scenario made 17 interactions: the clock, the
    connection, the login, four searches, three kept messages with a reading
    of the clock, a chat request and an insert each, and the logout. *)
Example demo_post_ticks : w_tick demo_post.2 = 17.
Proof. vm_compute. reflexivity. Qed.
