(* ===== verification/Pipeline.v ===== *)
(** * From the mailbox to the listing

    The components composed: what [POST /extract] (Endpoints) leaves in the
    table, in terms of the messages the mailbox holds (Extractor), the text
    the records carry (DateTime, Iso) and what the store makes of it (Store).

    - [rows_dated_by_message]: against the interface [StoreReadsIso], every
      row a request adds is kept under the date of a message that was
      fetched and passed the filter; the order of [GET /emails] is the order
      of these dates.
    - [fresh_messages_stored]: with a working session, a chat API in any
      state and the store [pg_insert], the request is answered and every
      fresh message of the requested senders has its row: nothing that was
      found is lost.

    - [stored_then_listed]: a listing after an answered request answers with
      the rows that were in the table and the rows the request stored, these
      and no others, newest first.
    - [rerun_duplicates]: the same request sent twice stores again every
      message that is still fresh at the second clock: the table has no key
      but the identifier the store assigns.

    The first two go through the round trip of [Iso]: the date is sent as
    text and the store reads it back. *)

From S2P Require Import Prelude PyStr PyVal DateTime.
From S2P Require Import Iso World Store Scenario Summarizer.
From S2P Require Import Extractor Endpoints.
From stdpp Require Import sorting.

Local Open Scope Z_scope.

(** ** The rows of accepted records *)

Section rows.
Context `{Env}.
Implicit Types (rs : list email_content) (row : Row) (n : nat).

(** Every row of [stored_rows] holds a record of the list, under the date
    the store answered with. *)
Lemma stored_rows_inserted n next rs :
  Forall (λ row, row_data row ∈ rs
                 ∧ ∃ k, env_insert k EMAILS (row_data row) = Ok (row_date row))
    (stored_rows n next rs).
Proof.
  revert n next. induction rs as [|r rs IH]; intros n next; simpl; [done|].
  destruct (env_insert n EMAILS r) as [t|e] eqn:Hins;
    [constructor; [split; [left|eauto]|]|];
    (eapply Forall_impl; [apply IH|]); intros row [? ?]; split; (by right || done).
Qed.

(** When the store is [pg_insert], every record of a kept message whose
    date is in range gets its row, under the instant of that date. *)
Lemma stored_rows_built `{!PgStore} n next (ss : list shaped) rs :
  Forall2 built ss rs → Forall (λ s, dt_valid (s_date s) = true) ss →
  Forall2 (λ s row, built s (row_data row) ∧ row_date row = instant (s_date s))
    ss (stored_rows n next rs).
Proof.
  intros Hb. revert n next.
  induction Hb as [|s r ss rs Hbuilt _ IH]; intros n next Hv; [constructor|].
  apply Forall_cons in Hv as [Hs Hv]. simpl.
  pose proof (built_fields s r Hbuilt) as (_ & _ & _ & Hdate & _).
  rewrite insert_is_pg, (pg_insert_isoformat r (s_date s)) by done.
  constructor; [done|by apply IH].
Qed.
End rows.

(** ** The dates of the records of a call *)

Section dates.
Context `{Env}.
Implicit Types (w : World) (r : email_content) (m : MailMessage).

(** A message that was fetched is dated in range. *)
Lemma fetched_in_range_date `{!DatesInRange} w senders m d :
  fetched w senders m → msg_date m = Ok d → in_range (wall d) = true.
Proof. intros (ds & n & sender & _ & _ & Hm) Hd. by eapply fetched_in_range. Qed.
End dates.

(** ** What a request leaves in the table *)

Section pipeline.
Context `{Env}.
Implicit Types (req : EmailRequest) (w : World) (row : Row).

(** The rows a run added to the table of [w]. *)
Definition new_rows (w w' : World) : list Row :=
  drop (length (w_rows w)) (w_rows w').

(** C11: against a store that keeps an accepted row
    under the instant its [date] text denotes, and a mailbox whose messages
    carry dates of the years 1 to 9999, every row that an answered
    [POST /extract] adds is kept under the date of a message that was
    fetched for one of the requested senders, read as UTC, and that date is
    not more than 24 hours before the clock reading of the request.  The
    order of [GET /emails] is therefore the order of the message dates as
    the filter saw them. *)
Theorem rows_dated_by_message `{!StoreReadsIso, !DatesInRange} req w resp w' :
  extract_from_email req w = (Ok resp, w') →
  Forall (λ row, ∃ m d, fetched w (sender_addresses req) m
                        ∧ msg_date m = Ok d ∧ row_date row = wall d
                        ∧ env_now (w_tick w) - US_PER_DAY ≤ row_date row)
    (new_rows w w').
Proof.
  destruct (extraction_run req w) as [[rs|e] w1] eqn:Hrun.
  - destruct (extract_from_email_stores req w rs w1 Hrun) as (w2 & -> & Hrows & _).
    intros [= _ <-]. unfold new_rows. rewrite Hrows, drop_app_length.
    eapply Forall_impl; [apply stored_rows_inserted|].
    intros row [Hin [k Hins]].
    destruct (extract_dated _ _ _ _ _ _ _ Hrun Hin) as (m & d & Hf & Hm & Hd & Hw).
    pose proof (fetched_in_range_date _ _ _ _ Hf Hm) as Hr.
    apply insert_reads_date in Hins.
    rewrite Hd, read_timestamptz_utc in Hins by done.
    injection Hins as <-. by exists m, d.
  - rewrite extract_from_email_run, Hrun.
    by destruct (reraise_as_http_raises (A:=pyval) "extract_from_email" e w1)
      as (? & ? & ->).
Qed.
End pipeline.

(** ** Nothing that was found is lost *)

Section liveness.
Context `{Env} (box : mailbox).
Implicit Types (req : EmailRequest) (w : World) (ds : datetime).

(** The kept messages of a dated mailbox carry dates that can be read
    back. *)
Lemma fresh_messages_valid ds senders :
  Forall dated_in_range box →
  Forall (λ s, dt_valid (s_date s) = true) (fresh_messages box ds senders).
Proof.
  rewrite !Forall_forall. intros Hbox s.
  intros (l & Hs & (sender & -> & _)%list_elem_of_fmap)%list_elem_of_join.
  apply elem_of_kept in Hs as (m & Hm & Hshape).
  apply from_sender_subseteq, list_elem_of_fmap in Hm as (e & -> & He).
  apply shape_message_Some in Hshape as (d & _ & Hd & -> & _).
  unfold dt_valid. simpl. by rewrite (Hbox e He d Hd).
Qed.

(** What an answered request on the reference mailbox leaves: a row for
    every fresh message, in order, and the response that counts them. *)
Lemma request_rows `{!PgStore} req w ds :
  cutoff_of w = Ok ds →
  Forall filed_after_sent box → Forall dated_in_range box →
  (∀ n c, env_fetch n c = (imap_search box c, None)) →
  (∀ n, env_connect n "imap.gmail.com" = None) →
  (∀ n, env_login n (email_address req) (password req) "INBOX" = None) →
  (∀ n, env_logout n = None) →
  ∃ rs w' rows, extract_from_email req w
                = (Ok (response_for req rs (length rows)), w')
    ∧ w_rows w' = w_rows w ++ rows ∧ length rows = length rs
    ∧ Forall2 (λ s row, built s (row_data row)
                        ∧ row_date row = instant (s_date s))
        (fresh_messages box ds (sender_addresses req)) rows.
Proof.
  intros Hds Hfiled Hdated Hfetch Hc Hl Hout.
  destruct (extract_total (email_address req) (password req)
              (sender_addresses req) (w_request req w) ds)
    as (bs & w1 & Hrun & Hs & Hok); [done|intros n c; by rewrite Hfetch|done..|].
  pose proof (batches_built box ds bs) as Hb. rewrite Hs in Hb.
  specialize (Hb (proj1 (cutoff_of_Ok w ds Hds)) Hfiled Hfetch Hok).
  destruct (extract_from_email_stores req w _ w1 Hrun) as (w' & Hresp & Hrows & _).
  pose proof (stored_rows_built (w_tick w1) (w_next_id w) _ _ Hb
                (fresh_messages_valid ds _ Hdated)) as Hst.
  eexists _, w', _. split_and!; [done..| |done].
  apply Forall2_length in Hb, Hst. by rewrite <- Hst, Hb.
Qed.

(** C10: on a mailbox that is searched by sender and
    day, whose messages are dated and not filed before they were sent, with
    a session that opens and closes and the store [pg_insert], whatever the
    chat API answers: [POST /extract] is answered, the rows it adds are,
    one for one and in order, the records of the fresh messages of the
    requested senders, each kept under the instant of its message date, and
    the response reports as many rows stored as records found. *)
Theorem fresh_messages_stored `{!PgStore} req w ds :
  cutoff_of w = Ok ds →
  Forall filed_after_sent box → Forall dated_in_range box →
  (∀ n c, env_fetch n c = (imap_search box c, None)) →
  (∀ n, env_connect n "imap.gmail.com" = None) →
  (∀ n, env_login n (email_address req) (password req) "INBOX" = None) →
  (∀ n, env_logout n = None) →
  ∃ resp w', extract_from_email req w = (Ok resp, w')
    ∧ Forall2 (λ s row, built s (row_data row)
                        ∧ row_date row = instant (s_date s))
        (fresh_messages box ds (sender_addresses req)) (new_rows w w')
    ∧ py_get "emails_stored" resp = py_get "emails_found" resp.
Proof.
  intros Hds Hfiled Hdated Hfetch Hc Hl Hout.
  destruct (request_rows req w ds) as (rs & w' & rows & Hrun & Hrows & Hlen & Hb);
    [done..|].
  eexists _, w'. split; [done|]. unfold new_rows.
  rewrite Hrows, drop_app_length. split; [done|].
  unfold response_for. rewrite Hlen. by destruct rs.
Qed.
End liveness.

(** ** What was stored is listed *)

Section listing.
Context `{Env}.
Implicit Types (req : EmailRequest) (w : World).

(** What [get_emails] answers with on a table. *)
Lemma get_emails_answer w resp :
  (get_emails w).1 = Ok resp →
  resp = empty_database_response ∧ w_rows w = []
  ∨ ∃ emails, resp = emails_response emails
      ∧ StronglySorted newer_or_equal emails ∧ emails ≡ₚ w_rows w.
Proof.
  rewrite get_emails_run. destruct (env_select _ _); [done|].
  destruct (merge_sort _ _) as [|r emails] eqn:Hs; intros [= <-].
  - left. split; [done|]. by apply merge_sort_nil_iff.
  - right. exists (r :: emails). rewrite <- Hs. split_and!; [done| |].
    + apply StronglySorted_merge_sort; apply _.
    + apply merge_sort_Permutation.
Qed.

End listing.

(** ** The same request twice

    Nothing in a row says which message it came from, and the handler asks
    the store nothing before it inserts: a message that is still fresh when
    the request is sent again is stored again. *)

(** What a row holds of its message: the date the store keeps, and the
    fields copied from the message.  The time of extraction and the summary
    are of the request, not of the message. *)
Definition message_of (row : Row) : Z * (string * string * string * string * string) :=
  (row_date row,
   (subject (row_data row), from_address (row_data row),
    to_address (row_data row), date (row_data row), text (row_data row))).

(** The same of a kept message. *)
Definition message_of_shaped (s : shaped)
  : Z * (string * string * string * string * string) :=
  (instant (s_date s),
   (s_subject s, s_from s, str_join ", " (s_to s), isoformat (s_date s),
    s_body s)).

Section rerun.
Context `{Env} (box : mailbox).
Implicit Types (req : EmailRequest) (w : World) (ds : datetime) (s : shaped).

(** A message that a cut-off keeps is kept by every earlier one. *)
Lemma shape_message_earlier ds1 ds2 m s :
  tzinfo ds1 = Some utc → tzinfo ds2 = Some utc → instant ds1 ≤ instant ds2 →
  shape_message ds2 m = Ok (Some s) → shape_message ds1 m = Ok (Some s).
Proof.
  intros Htz1 Htz2 Hle. rewrite !shape_message_Some.
  intros (d & txt & Hd & Hs & Hge & Hsub & Hfrom & Hto & Htxt & Hbody).
  exists d, txt. split_and!; try done.
  rewrite (dt_ge_aware _ ds2 utc utc) in Hge by done.
  rewrite (dt_ge_aware _ ds1 utc utc) by done.
  simplify_eq. f_equal. rewrite !bool_decide_eq_true in *. lia.
Qed.

Lemma kept_earlier ds1 ds2 msgs :
  tzinfo ds1 = Some utc → tzinfo ds2 = Some utc → instant ds1 ≤ instant ds2 →
  kept ds2 msgs `sublist_of` kept ds1 msgs.
Proof.
  intros Htz1 Htz2 Hle. induction msgs as [|m msgs IH]; [done|].
  rewrite (kept_cons ds1), (kept_cons ds2). apply sublist_app; [|done].
  unfold kept. simpl. destruct (shape_message ds2 m) as [[s|]|] eqn:Hs;
    [|apply sublist_nil_l..].
  by rewrite (shape_message_earlier ds1 ds2 m s).
Qed.

Lemma fresh_messages_earlier ds1 ds2 senders :
  tzinfo ds1 = Some utc → tzinfo ds2 = Some utc → instant ds1 ≤ instant ds2 →
  fresh_messages box ds2 senders `sublist_of` fresh_messages box ds1 senders.
Proof.
  intros Htz1 Htz2 Hle. unfold fresh_messages.
  induction senders as [|sender senders IH]; [done|]. csimpl.
  apply sublist_app; [by apply kept_earlier|done].
Qed.

(** The rows of a request hold the messages they were built from. *)
Lemma rows_messages (ss : list shaped) (rows : list Row) :
  Forall2 (λ s row, built s (row_data row) ∧ row_date row = instant (s_date s))
    ss rows →
  message_of <$> rows = message_of_shaped <$> ss.
Proof.
  induction 1 as [|s row ss rows [Hb Hd] _ IH]; [done|]. csimpl. rewrite IH.
  destruct (built_fields s _ Hb) as (Hsub & Hfrom & Hto & Hdate & Htext & _).
  unfold message_of, message_of_shaped.
  by rewrite Hd, Hsub, Hfrom, Hto, Hdate, Htext.
Qed.

(** C17: the same request sent twice to the
    reference mailbox and store, the clock of the second not before the
    clock of the first.  Both are answered, and the table is what it was,
    then the rows of the first, then the rows of the second.  The second
    stores every message that is still fresh, again: its rows hold, in
    order, messages that the rows of the first hold already, with the same
    stored date, subject, sender, recipients, date text and body, under
    identifiers of their own.  The service has no key by which a message
    that is stored already could be recognised. *)
Theorem rerun_duplicates `{!PgStore} req w ds1 ds2 :
  store_wf w →
  Forall filed_after_sent box → Forall dated_in_range box →
  (∀ n c, env_fetch n c = (imap_search box c, None)) →
  (∀ n, env_connect n "imap.gmail.com" = None) →
  (∀ n, env_login n (email_address req) (password req) "INBOX" = None) →
  (∀ n, env_logout n = None) →
  let run1 := extract_from_email req w in
  let run2 := extract_from_email req run1.2 in
  cutoff_of w = Ok ds1 → cutoff_of run1.2 = Ok ds2 → instant ds1 ≤ instant ds2 →
  let rows1 := new_rows w run1.2 in
  let rows2 := new_rows run1.2 run2.2 in
  w_rows run2.2 = w_rows w ++ rows1 ++ rows2
  ∧ message_of <$> rows2
    = message_of_shaped <$> fresh_messages box ds2 (sender_addresses req)
  ∧ message_of <$> rows2 `sublist_of` message_of <$> rows1
  ∧ ∀ r1 r2, r1 ∈ rows1 → r2 ∈ rows2 → row_id r1 ≠ row_id r2.
Proof.
  intros Hwf Hfiled Hdated Hfetch Hc Hl Hout run1 run2 Hds1 Hds2 Hle rows1 rows2.
  destruct (request_rows box req w ds1) as (rs1 & w1 & r1 & Hrun1 & Hw1 & _ & Hb1);
    [done..|].
  subst rows1 rows2 run2 run1. rewrite Hrun1 in *. simpl in *.
  destruct (request_rows box req w1 ds2) as (rs2 & w2 & r2 & Hrun2 & Hw2 & _ & Hb2);
    [done..|].
  rewrite Hrun2. simpl. unfold new_rows.
  rewrite Hw2, Hw1, <- app_assoc, !drop_app_length, app_assoc, drop_app_length.
  rewrite <- app_assoc, (rows_messages _ _ Hb1), (rows_messages _ _ Hb2).
  destruct (cutoff_of_Ok _ _ Hds1) as [Htz1 _], (cutoff_of_Ok _ _ Hds2) as [Htz2 _].
  split_and!; [done..| |].
  - by apply fmap_sublist, fresh_messages_earlier.
  - pose proof (preserves_run store_wf _ w1
      (preserves_extract_from_email store_wf req)) as Hwf2.
    rewrite Hrun2 in Hwf2. simpl in Hwf2.
    destruct Hwf2 as [_ Hnd].
    { pose proof (preserves_run store_wf _ w
        (preserves_extract_from_email store_wf req) Hwf) as Hwf1.
      by rewrite Hrun1 in Hwf1. }
    rewrite Hw2, Hw1, <- app_assoc, !fmap_app in Hnd.
    apply NoDup_app in Hnd as (_ & _ & Hnd). apply NoDup_app in Hnd as (_ & Hnd & _).
    intros x1 x2 Hx1 Hx2 Heq. apply (Hnd (row_id x1)); [by apply list_elem_of_fmap_2|].
    rewrite Heq. by apply list_elem_of_fmap_2.
Qed.
End rerun.

(** ** The theorems at concrete inputs *)

Lemma rows_dated_by_message_witness :
  Forall (λ row, ∃ m d, @fetched demo_env world0 demo_senders m
                        ∧ msg_date m = Ok d ∧ row_date row = wall d
                        ∧ @env_now demo_env 0 - US_PER_DAY ≤ row_date row)
    (new_rows world0 demo_post.2).
Proof.
  apply (@rows_dated_by_message demo_env demo_store_reads_iso
           demo_dates_in_range demo_request world0 (response_of demo_post)
           demo_post.2).
  vm_compute. reflexivity.
Defined.

Lemma inbox_utc_dated : Forall dated_in_range inbox_utc.
Proof. repeat constructor; by intros d [= <-]. Qed.

Lemma fresh_messages_stored_witness :
  ∃ resp w', @extract_from_email pg_env demo_request world0 = (Ok resp, w')
    ∧ Forall2 (λ s row, @built pg_env s (row_data row)
                        ∧ row_date row = instant (s_date s))
        (fresh_messages inbox_utc demo_cutoff demo_senders) (new_rows world0 w')
    ∧ py_get "emails_stored" resp = py_get "emails_found" resp.
Proof.
  apply (@fresh_messages_stored pg_env inbox_utc pg_env_store demo_request
           world0 demo_cutoff);
    first [reflexivity | exact inbox_utc_filed | exact inbox_utc_dated].
Defined.

(** The listing of the scenario after the request: the message written
    with offset +05:00 was sent at 09:00 UTC and is listed under 14:00 UTC,
    the fields of its [Date] header read as UTC. *)
Example listing_after_request :
  row_date <$> merge_sort newer_or_equal (w_rows demo_post.2)
  = [wall (mk_dt 2024 3 10 10 0 0 None); wall (mk_dt 2024 3 9 14 0 0 None)]
  ∧ obind (msg_date m_east) (λ d, Ok (instant d))
    = Ok (wall (mk_dt 2024 3 9 9 0 0 None)).
Proof. vm_compute. done. Qed.

(** The same request a second time: nothing identifies a message that was
    stored already, so each of its rows is there twice, under two
    identifiers. *)
Example second_request_duplicates :
  (λ r, (row_id r, subject (row_data r), date (row_data r)))
    <$> w_rows (@extract_from_email demo_env demo_request demo_post.2).2
  = [(1, "Lunch", "2024-03-10T10:00:00+00:00");
     (2, "From the east", "2024-03-09T14:00:00+00:00");
     (3, "Lunch", "2024-03-10T10:00:00+00:00");
     (4, "From the east", "2024-03-09T14:00:00+00:00")].
Proof. vm_compute. reflexivity. Qed.

(** The request of the scenario sent twice to the reference store: the
    second is sent fourteen interactions, fourteen seconds, after the
    first. *)
Definition first_post : outcome exn pyval * World :=
  @extract_from_email pg_env demo_request world0.

Definition second_post : outcome exn pyval * World :=
  @extract_from_email pg_env demo_request first_post.2.

Definition second_cutoff : datetime := mk_dt 2024 3 9 12 0 14 (Some utc).

Lemma rerun_duplicates_witness :
  let rows1 := new_rows world0 first_post.2 in
  let rows2 := new_rows first_post.2 second_post.2 in
  w_rows second_post.2 = w_rows world0 ++ rows1 ++ rows2
  ∧ message_of <$> rows2
    = message_of_shaped
        <$> fresh_messages inbox_utc second_cutoff (sender_addresses demo_request)
  ∧ message_of <$> rows2 `sublist_of` message_of <$> rows1
  ∧ ∀ r1 r2, r1 ∈ rows1 → r2 ∈ rows2 → row_id r1 ≠ row_id r2.
Proof.
  apply (@rerun_duplicates pg_env inbox_utc pg_env_store demo_request world0
           demo_cutoff second_cutoff);
    first [reflexivity | exact inbox_utc_filed | exact inbox_utc_dated
          | split; constructor | vm_compute; discriminate].
Defined.

