(* ===== verification/App.v ===== *)
(** * The module and its HTTP surface

    What [src/app/main.py] does when it is imported and how a request
    reaches a handler.

    - Configuration (lines 22, 37-43): [environ] is [os.environ], a finite
      map; [load_dotenv] adds the variables of the [.env] file that are not
      set; [getenv] reads one.  The constructors of the two clients are the
      fields of the class [Clients], with the checks they make on their
      arguments as its laws.
    - The application object (lines 25-34, 171, 215): [FastAPI] with its
      title, its middleware and its routes.
    - [main] is the module body in the order of the source: environment,
      application, middleware, store client, chat client, probe, routes.  It
      raises when a client cannot be constructed, and then the process has
      no application to serve.
    - Requests (lines 66-69, 171-172, 215-216): [EmailRequest_validate]
      builds the model from a JSON body, [respond] turns the outcome of a
      handler into a response, [serve] does both for the route that matches.

    The string validator of [pydantic] and the text of a validation error
    are fields of the class [Pydantic]: they differ between its versions and
    no theorem depends on them beyond the law that a string is a string. *)

From S2P Require Import Prelude PyStr PyVal DateTime.
From S2P Require Import Iso World Store Scenario Summarizer.
From S2P Require Import Extractor Endpoints.
From stdpp Require Import gmap.

Local Open Scope py_scope.

(** ** The environment (line 22) *)

(** [os.environ] *)
Abbreviation environ := (gmap string string).

(** [load_dotenv()]: the variables of the file are set unless the process
    already has them ([override=False]). *)
Definition load_dotenv (dotenv env : environ) : environ := env ∪ dotenv.

(** [os.getenv(key)] *)
Definition getenv (key : string) (env : environ) : option string := env !! key.

(** [os.getenv(key, default)] *)
Definition getenv_default (key dflt : string) (env : environ) : string :=
  default dflt (env !! key).

(** ** The clients (lines 37-43) *)

Definition NO_URL : exn := Exception "supabase_url is required".
Definition NO_KEY : exn := Exception "supabase_key is required".
Definition NO_API_KEY : exn :=
  Exception ("The api_key client option must be set either by passing api_key"
             +:+ " to the client or by setting the GROQ_API_KEY environment variable").

(** [supabase.create_client(url, key)] and [groq.Groq(api_key=k)], as the
    outcome of the constructor.  The first refuses an empty URL, then an
    empty key, and may refuse more (the shape of the URL); the second
    refuses a missing key only. *)
Class Clients : Type := {
  create_client : string → string → outcome exn unit;
  Groq : option string → outcome exn unit;
  create_client_no_url key : create_client "" key = Raise NO_URL;
  create_client_no_key url : url ≠ "" → create_client url "" = Raise NO_KEY;
  Groq_no_key : Groq None = Raise NO_API_KEY;
  Groq_key k : Groq (Some k) = Ok tt;
}.

(** ** The application object (lines 25-34, 171, 215) *)

(** The keyword arguments of [CORSMiddleware] (lines 29-33). *)
Record CORSMiddleware : Type := {
  allow_origins : list string;
  allow_credentials : bool;
  allow_methods : list string;
  allow_headers : list string;
}.

Inductive method : Type := GET | POST | PUT | DELETE | OPTIONS.

#[export] Instance method_eq_dec : EqDecision method.
Proof. solve_decision. Defined.

(** The two endpoint functions. *)
Inductive endpoint : Type := ExtractFromEmail | GetEmails.

#[export] Instance endpoint_eq_dec : EqDecision endpoint.
Proof. solve_decision. Defined.

Record route : Type := {
  r_method : method;
  r_path : string;
  r_endpoint : endpoint;
}.

Record FastAPI : Type := {
  title : string;
  user_middleware : list CORSMiddleware;
  routes : list route;
}.

(** [FastAPI(title=t)] *)
Definition FastAPI_new (t : string) : FastAPI :=
  {| title := t; user_middleware := []; routes := [] |}.

(** [app.add_middleware(CORSMiddleware, ...)]: the last added is the
    outermost. *)
Definition add_middleware (app : FastAPI) (m : CORSMiddleware) : FastAPI :=
  {| title := title app; user_middleware := m :: user_middleware app;
     routes := routes app |}.

(** [@app.post(path)] and [@app.get(path)] *)
Definition add_api_route (app : FastAPI) (m : method) (path : string)
    (e : endpoint) : FastAPI :=
  {| title := title app; user_middleware := user_middleware app;
     routes := routes app ++ [{| r_method := m; r_path := path; r_endpoint := e |}] |}.

(** Lines 28-34. *)
Definition cors : CORSMiddleware :=
  {| allow_origins := ["*"]; allow_credentials := true;
     allow_methods := ["*"]; allow_headers := ["*"] |}.

(** ** Requests and responses *)

(** A request, with its body as the JSON value it parses to. *)
Record Request : Type := {
  rq_method : method;
  rq_path : string;
  rq_json : pyval;
}.

Record Response : Type := {
  status_code : Z;
  body : pyval;
}.

(** What [pydantic] does with a value where a [str] is declared, and what it
    reports when a body is refused. *)
Class Pydantic : Type := {
  validate_str : pyval → option string;
  validation_errors : pyval → list pyval;
  validate_str_PStr s : validate_str (PStr s) = Some s;
}.

(** The first route of the table that matches. *)
Definition find_route (rs : list route) (m : method) (path : string)
  : option endpoint :=
  (λ ir, r_endpoint ir.2)
    <$> list_find (λ r, r_method r = m ∧ r_path r = path) rs.

Section app.
Context `{Env, Clients, Pydantic}.

(** ** The module body *)

(** Lines 17-64, then the decorators of lines 171 and 215, for a process
    started with the variables [os_environ] beside a [.env] file [dotenv]. *)
Definition main (os_environ dotenv : environ) : Py FastAPI :=
  let environ := load_dotenv dotenv os_environ in
  let app := FastAPI_new "Email Extractor and Summarizer" in
  let app := add_middleware app cors in
  lift (create_client (getenv_default "SUPABASE_URL" "" environ)
          (getenv_default "SUPABASE_KEY" "" environ)) ;;
  lift (Groq (getenv "GROQ_API_KEY" environ)) ;;
  startup_probe ;;
  let app := add_api_route app POST "/extract" ExtractFromEmail in
  let app := add_api_route app GET "/emails" GetEmails in
  ret app.

(** The application of a process that started. *)
Definition the_app : FastAPI :=
  {| title := "Email Extractor and Summarizer"; user_middleware := [cors];
     routes := [ {| r_method := POST; r_path := "/extract";
                    r_endpoint := ExtractFromEmail |};
                 {| r_method := GET; r_path := "/emails";
                    r_endpoint := GetEmails |} ] |}.

(** ** The body of [POST /extract] (lines 66-69, 172) *)

(** [List[str]] *)
Definition validate_list_str (v : pyval) : option (list string) :=
  match v with
  | PList l => mapM validate_str l
  | _ => None
  end.

(** The model [EmailRequest] built from a JSON body: the three fields are
    required, other keys are ignored. *)
Definition EmailRequest_validate (body : pyval) : option EmailRequest :=
  a ← py_get "email_address" body ≫= validate_str;
  p ← py_get "password" body ≫= validate_str;
  s ← py_get "sender_addresses" body ≫= validate_list_str;
  Some {| email_address := a; password := p; sender_addresses := s |}.

(** The body a client sends for [req], with other keys [extra] after the
    three of the model. *)
Definition EmailRequest_json (req : EmailRequest) (extra : list (string * pyval))
  : pyval :=
  PDict ([("email_address", PStr (email_address req));
          ("password", PStr (password req));
          ("sender_addresses", py_strs (sender_addresses req))] ++ extra).

(** ** From the outcome of an endpoint to a response *)

(** The answer to a body that is refused. *)
Definition unprocessable (body : pyval) : Response :=
  {| status_code := 422;
     body := PDict [("detail", PList (validation_errors body))] |}.

(** What the framework does with what an endpoint returns or raises: a
    returned value is the body of a 200, an [HTTPException] becomes a
    response with its status and its detail under the key [detail], anything
    else is the server error of the framework. *)
Definition respond (o : outcome exn pyval) : Response :=
  match o with
  | Ok v => {| status_code := 200; body := v |}
  | Raise (HTTPException c d) => {| status_code := c; body := PDict [("detail", d)] |}
  | Raise (Exception _) => {| status_code := 500; body := PStr "Internal Server Error" |}
  end.

(** Calling an endpoint function with the request. *)
Definition call_endpoint (e : endpoint) (rq : Request) : Py Response :=
  match e with
  | ExtractFromEmail =>
      match EmailRequest_validate (rq_json rq) with
      | None => ret (unprocessable (rq_json rq))
      | Some req => λ w, let '(o, w') := extract_from_email req w in (Ok (respond o), w')
      end
  | GetEmails => λ w, let '(o, w') := get_emails w in (Ok (respond o), w')
  end.

(** A request to the application: [None] when no route of lines 171 and 215
    matches and the framework answers by itself. *)
Definition serve (app : FastAPI) (rq : Request) : option (Py Response) :=
  e ← find_route (routes app) (rq_method rq) (rq_path rq);
  Some (call_endpoint e rq).
End app.

(** ** The environment and the module body *)

Section environ_lemmas.
Implicit Types (env dotenv : environ).

(** A variable of the process wins over the same variable of the file. *)
Lemma getenv_load_dotenv key dotenv env :
  getenv key (load_dotenv dotenv env)
  = match getenv key env with
    | Some v => Some v
    | None => getenv key dotenv
    end.
Proof.
  unfold getenv, load_dotenv. rewrite lookup_union.
  by destruct (env !! key), (dotenv !! key).
Qed.

(** A default of [""] is an empty text, set or not. *)
Lemma getenv_default_nonempty key env :
  getenv_default key "" env ≠ "" ↔ ∃ v, getenv key env = Some v ∧ v ≠ "".
Proof.
  unfold getenv_default, getenv. destruct (env !! key) as [v|]; simpl.
  - split; [by exists v|by intros (? & [= <-] & ?)].
  - split; [done|by intros (? & [=] & _)].
Qed.

End environ_lemmas.

Section main_theorems.
Context `{Env, Clients, Pydantic}.
Implicit Types (env dotenv : environ) (w : World).

(** The module body, path by path. *)
Lemma main_run env dotenv w :
  main env dotenv w
  = let environ := load_dotenv dotenv env in
    match create_client (getenv_default "SUPABASE_URL" "" environ)
            (getenv_default "SUPABASE_KEY" "" environ),
          Groq (getenv "GROQ_API_KEY" environ) with
    | Raise e, _ | Ok _, Raise e => (Raise e, w)
    | Ok _, Ok _ => (Ok the_app, (startup_probe w).2)
    end.
Proof.
  unfold main, bind, lift. cbv zeta.
  destruct (create_client _ _); [|done]. destruct (Groq _); [|done].
  pose proof (startup_probe_returns w) as Hp.
  destruct (startup_probe w) as [[[]|e] w']; by simplify_eq/=.
Qed.

(** What the constructors accept has a URL, a key and an API key. *)
Lemma clients_need_config url key gk :
  create_client url key = Ok tt → Groq gk = Ok tt →
  url ≠ "" ∧ key ≠ "" ∧ is_Some gk.
Proof.
  intros Hc Hg. split_and!.
  - intros ->. by rewrite create_client_no_url in Hc.
  - intros ->. destruct (decide (url = "")) as [->|Hu];
      [by rewrite create_client_no_url in Hc
      |by rewrite create_client_no_key in Hc].
  - destruct gk; [done|]. by rewrite Groq_no_key in Hg.
Qed.

(** C25: importing the module gives an application
    only when the environment of the process, completed by the [.env] file,
    sets [SUPABASE_URL] and [SUPABASE_KEY] to texts that are not empty and
    sets [GROQ_API_KEY]; the application is then the one with the title, the
    CORS middleware and the two routes of the source, and the only external
    call made is the probe.  Otherwise the import raises before any log
    record is written and before any external call: the world is as it
    was. *)
Theorem main_requires_config env dotenv w :
  let environ := load_dotenv dotenv env in
  match main env dotenv w with
  | (Ok app, w') =>
      app = the_app ∧ w' = (startup_probe w).2
      ∧ (∃ url, getenv "SUPABASE_URL" environ = Some url ∧ url ≠ "")
      ∧ (∃ key, getenv "SUPABASE_KEY" environ = Some key ∧ key ≠ "")
      ∧ is_Some (getenv "GROQ_API_KEY" environ)
  | (Raise e, w') => w' = w
  end.
Proof.
  rewrite main_run. cbv zeta.
  destruct (create_client _ _) as [[]|] eqn:Hc; [|done].
  destruct (Groq _) as [[]|] eqn:Hg; [|done].
  destruct (clients_need_config _ _ _ Hc Hg) as (Hu & Hk & Hgk).
  by rewrite <- !getenv_default_nonempty.
Qed.
End main_theorems.

(** ** Requests *)

Section request_theorems.
Context `{Env, Clients, Pydantic}.
Implicit Types (req : EmailRequest) (rq : Request) (w : World).

Lemma mapM_validate_str l : mapM validate_str (PStr <$> l) = Some l.
Proof.
  apply mapM_Some_2, Forall2_fmap_l, Forall_Forall2_diag, Forall_forall.
  intros s _. apply validate_str_PStr.
Qed.


(** The routes of the application. *)
Lemma serve_the_app rq p :
  serve the_app rq = Some p ↔
  (rq_method rq = POST ∧ rq_path rq = "/extract"
   ∧ p = call_endpoint ExtractFromEmail rq)
  ∨ (rq_method rq = GET ∧ rq_path rq = "/emails"
     ∧ p = call_endpoint GetEmails rq).
Proof.
  unfold serve, find_route, the_app. cbn [routes list_find].
  destruct (decide _) as [[<- <-]|Hn1]; cbn.
  { split; [intros [= <-]; by left|by intros [(_ & _ & ->)|(? & _)]]. }
  destruct (decide _) as [[<- <-]|Hn2]; cbn.
  { split; [intros [= <-]; by right|by intros [(? & _)|(_ & _ & ->)]]. }
  split; [done|].
  intros [(Hm & Hp & _)|(Hm & Hp & _)]; [destruct Hn1|destruct Hn2];
    by rewrite Hm, Hp.
Qed.

(** An endpoint always answers: what the handler raises becomes a
    response. *)
Lemma call_endpoint_run e rq w :
  call_endpoint e rq w
  = match e with
    | ExtractFromEmail =>
        match EmailRequest_validate (rq_json rq) with
        | None => (Ok (unprocessable (rq_json rq)), w)
        | Some req => (Ok (respond (extract_from_email req w).1),
                       (extract_from_email req w).2)
        end
    | GetEmails => (Ok (respond (get_emails w).1), (get_emails w).2)
    end.
Proof.
  destruct e; simpl.
  - destruct (EmailRequest_validate _) as [req|]; [|done].
    by destruct (extract_from_email req w).
  - by destruct (get_emails w).
Qed.
End request_theorems.

(** ** The theorems at concrete inputs *)

(** Constructors that make the checks of the class and no other. *)
Definition demo_create_client (url key : string) : outcome exn unit :=
  if decide (url = "") then Raise NO_URL
  else if decide (key = "") then Raise NO_KEY else Ok tt.

Lemma demo_create_client_no_key url :
  url ≠ "" → demo_create_client url "" = Raise NO_KEY.
Proof. intros Hu. unfold demo_create_client. by rewrite decide_False. Qed.

#[local] Instance demo_clients : Clients := {|
  create_client := demo_create_client;
  Groq k := match k with Some _ => Ok tt | None => Raise NO_API_KEY end;
  create_client_no_url _ := eq_refl;
  create_client_no_key := demo_create_client_no_key;
  Groq_no_key := eq_refl;
  Groq_key _ := eq_refl;
|}.

(** A validator that accepts strings only. *)
#[local] Instance strict_pydantic : Pydantic := {|
  validate_str v := match v with PStr s => Some s | _ => None end;
  validation_errors _ := [PStr "Field required"];
  validate_str_PStr _ := eq_refl;
|}.

#[local] Existing Instance demo_env.

Definition dotenv_file : environ :=
  {[ "SUPABASE_URL" := "https://project.supabase.co";
     "SUPABASE_KEY" := "file-key"; "GROQ_API_KEY" := "gsk" ]}.

(** Without variables and without a file the import stops at the store
    client; with the file it gives the application; a variable of the
    process wins over the file, also when it is empty. *)
Example main_without_config : main ∅ ∅ world0 = (Raise NO_URL, world0).
Proof. vm_compute. reflexivity. Qed.

Example main_with_dotenv : (main ∅ dotenv_file world0).1 = Ok the_app.
Proof. vm_compute. reflexivity. Qed.

Example main_empty_key_wins :
  main {[ "SUPABASE_KEY" := "" ]} dotenv_file world0 = (Raise NO_KEY, world0).
Proof. vm_compute. reflexivity. Qed.

(** A request with a password the mailbox refuses is answered with status
    500; the structured detail is under the key [detail], not at the top of
    the body. *)
Example denied_request_response :
  ∃ p r w, serve the_app {| rq_method := POST; rq_path := "/extract";
                            rq_json := EmailRequest_json denied_request [] |}
           = Some p
    ∧ p world0 = (Ok r, w) ∧ status_code r = 500%Z
    ∧ py_get "message" (body r) = None
    ∧ (py_get "detail" (body r) ≫= py_get "email") = Some (PStr "me@example.com").
Proof. eexists _, _, _. split; [done|]. vm_compute. done. Qed.

(** A body without password is refused before the handler runs. *)
Example missing_password_response :
  call_endpoint ExtractFromEmail
    {| rq_method := POST; rq_path := "/extract";
       rq_json := PDict [("email_address", PStr "me@example.com");
                         ("sender_addresses", PList [])] |} world0
  = (Ok (unprocessable (PDict [("email_address", PStr "me@example.com");
                               ("sender_addresses", PList [])])), world0).
Proof. reflexivity. Qed.
