(* ===== verification/Schema.v ===== *)
(** * The shape of every response

    A small type system for the JSON values of [PyVal.pyval] and the types
    of the bodies the two endpoints of [src/app/main.py] answer with, by
    status code: the dictionaries of lines 185-188, 202-207, 225 and
    227-230, the [detail] of the [HTTPException]s of lines 160-168, 213 and
    234 as the framework sends it, and the answer to a body that is refused.

    [has_type] is a checker; [responses_typed] says that whatever the
    mailbox, the chat API and the store do, the response of an endpoint has
    one of the types listed for its status code.  A client that decodes by
    these types never meets a body it cannot decode. *)

From S2P Require Import Prelude PyStr PyVal DateTime.
From S2P Require Import Iso World Store Scenario Summarizer.
From S2P Require Import Extractor Endpoints App.
From stdpp Require Import sorting.

Local Open Scope Z_scope.

(** ** Types of JSON values *)

#[local] Unset Elimination Schemes.
Inductive pytype : Type :=
| TAny
| TInt
| TStr
| TList (t : pytype)
| TDict (fields : list (string * pytype * bool)).
#[local] Set Elimination Schemes.

(** A field that has to be there, and one that may be missing. *)
Definition required (k : string) (t : pytype) : string * pytype * bool := (k, t, false).
Definition optional (k : string) (t : pytype) : string * pytype * bool := (k, t, true).

(** [has_type t v]: [v] is a value of type [t].  A dictionary has the
    fields of its type, in their order; an optional field may be missing;
    there is no other key. *)
Fixpoint has_type (t : pytype) (v : pyval) {struct v} : bool :=
  match t, v with
  | TAny, _ => true
  | TInt, PInt _ => true
  | TStr, PStr _ => true
  | TList t', PList l => forallb (has_type t') l
  | TDict fields, PDict items =>
      (fix fields_ok (items : list (string * pyval))
           (fields : list (string * pytype * bool)) {struct items} : bool :=
         match items with
         | [] => forallb snd fields
         | (k, v) :: items' =>
             (fix field_ok (fields : list (string * pytype * bool)) : bool :=
                match fields with
                | [] => false
                | (k', t', opt) :: fields' =>
                    if decide (k' = k) then has_type t' v && fields_ok items' fields'
                    else opt && field_ok fields'
                end) fields
         end) items fields
  | _, _ => false
  end.

(** ** The types of the bodies *)

(** Lines 185-188. *)
Definition T_no_emails : pytype :=
  TDict [required "message" TStr; required "senders_processed" (TList TStr)].

(** Lines 202-207. *)
Definition T_stored : pytype :=
  TDict [required "message" TStr; required "emails_found" TInt;
         required "emails_stored" TInt;
         required "senders_processed" (TList TStr)].

(** Line 225. *)
Definition T_empty : pytype := TDict [required "message" TStr].

(** A row of the table: the columns of lines 54-63 that the handler
    sent. *)
Definition T_row : pytype :=
  TDict [required "id" TInt; required "subject" TStr;
         required "from_address" TStr; required "to_address" TStr;
         required "date" TStr; required "text" TStr;
         required "extracted_at" TStr; optional "summary" TStr].

(** Lines 227-230. *)
Definition T_emails : pytype :=
  TDict [required "emails" (TList T_row); required "total_count" TInt].

(** The [HTTPException] of lines 160-168, as sent. *)
Definition T_fetch_error : pytype :=
  TDict [required "detail"
           (TDict [required "message" TStr; required "error" TStr;
                   required "email" TStr])].

(** The [HTTPException] of line 234, as sent. *)
Definition T_query_error : pytype := TDict [required "detail" TStr].

(** The answer to a body that is not an [EmailRequest]. *)
Definition T_unprocessable : pytype := TDict [required "detail" (TList TAny)].

(** The types of the body of a response of [e] with status [status]. *)
Definition response_types (e : endpoint) (status : Z) : list pytype :=
  match e with
  | ExtractFromEmail =>
      if decide (status = 200) then [T_no_emails; T_stored]
      else if decide (status = 422) then [T_unprocessable]
      else if decide (status = 500) then [T_fetch_error]
      else []
  | GetEmails =>
      if decide (status = 200) then [T_empty; T_emails]
      else if decide (status = 500) then [T_query_error]
      else []
  end.

Definition conforms (e : endpoint) (r : Response) : bool :=
  existsb (λ t, has_type t (body r)) (response_types e (status_code r)).

(** ** Every response is typed *)

Section typing.
Context `{Env, Clients, Pydantic}.
Implicit Types (w : World) (req : EmailRequest) (rq : Request).

Lemma has_type_strs l : has_type (TList TStr) (py_strs l) = true.
Proof. unfold py_strs. induction l as [|s l IH]; [done|apply IH]. Qed.

Lemma has_type_row (r : Row) : has_type T_row (PDict (row_items r)) = true.
Proof. unfold row_items, email_content_items. by destruct (summary _). Qed.

Lemma has_type_rows (rows : list Row) :
  has_type (TList T_row) (PList (PDict ∘ row_items <$> rows)) = true.
Proof.
  induction rows as [|r rows IH]; [done|].
  change (has_type T_row (PDict (row_items r))
          && has_type (TList T_row) (PList (PDict ∘ row_items <$> rows)) = true).
  by rewrite has_type_row, IH.
Qed.

Lemma conforms_unprocessable v : conforms ExtractFromEmail (unprocessable v) = true.
Proof.
  unfold conforms. simpl. rewrite orb_false_r, andb_true_r.
  apply forallb_forall. by intros [].
Qed.

Lemma conforms_response_for req rs n :
  conforms ExtractFromEmail (respond (Ok (response_for req rs n))) = true.
Proof.
  pose proof (has_type_strs (sender_addresses req)) as Hs.
  unfold conforms. destruct rs; simpl in *; rewrite Hs; by rewrite ?orb_true_r.
Qed.

Lemma conforms_get_emails w : conforms GetEmails (respond (get_emails w).1) = true.
Proof.
  rewrite get_emails_run. destruct (env_select _ _); [done|].
  destruct (merge_sort _ _) as [|r l] eqn:Hs; [done|].
  pose proof (has_type_rows (r :: l)) as Hr. unfold conforms. simpl in *.
  by rewrite Hr.
Qed.

(** C22: an endpoint always answers, and the body of its
    response has one of the types listed for its status code, whatever the
    mailbox, the chat API and the store answered: [POST /extract] answers
    200 with the no-emails or the counts dictionary, 422 when the body is
    not an [EmailRequest], 500 with the structured detail of the mailbox
    failure under the key [detail]; [GET /emails] answers 200 with the
    message dictionary or the rows and their number, 500 with the error text
    under the key [detail].  No other status and no other shape leaves the
    service. *)
Theorem responses_typed e rq w :
  ∃ r w', call_endpoint e rq w = (Ok r, w') ∧ conforms e r = true.
Proof.
  rewrite call_endpoint_run. destruct e.
  - destruct (EmailRequest_validate _) as [req|];
      [|eexists _, _; split; [done|apply conforms_unprocessable]].
    eexists _, _. split; [done|].
    destruct (extract_from_email_cases req w)
      as [(rs & n & w' & ->)|(msg & w' & ->)]; [apply conforms_response_for|done].
  - eexists _, _. split; [done|apply conforms_get_emails].
Qed.
End typing.
