(* ===== verification/Service.v ===== *)
(** * The service as a transition system

    The endpoint functions of [src/app/main.py] are declared [async]
    (lines 172 and 216) and never await: every call they make blocks, so the
    event loop runs one handler to its end before it starts the next.  A
    process is therefore a sequence of steps, the import of the module first
    and then one step per request that a route matches, each step a whole
    run of a handler on the world the previous one left.

    [running env dotenv w0 w]: a process started in world [w0] with the
    variables [env] and the file [dotenv] can be in world [w].  What every
    handler preserves holds in every world the service reaches, by induction
    on the steps taken. *)

From S2P Require Import Prelude PyStr PyVal DateTime.
From S2P Require Import Iso World Store Scenario Summarizer.
From S2P Require Import Extractor Endpoints App.
From stdpp Require Import gmap.

Section service.
Context `{Env, Clients, Pydantic}.
Implicit Types (w : World) (rq : Request) (r : Response) (P : World → Prop).

(** One request, served to its end. *)
Inductive step : World → World → Prop :=
| step_request rq p r w w' :
    serve the_app rq = Some p → p w = (Ok r, w') → step w w'.

(** The worlds of a process: after the import, then after each request. *)
Inductive running (env dotenv : environ) (w0 : World) : World → Prop :=
| running_started app w :
    main env dotenv w0 = (Ok app, w) → running env dotenv w0 w
| running_served w w' :
    running env dotenv w0 w → step w w' → running env dotenv w0 w'.

(** ** What a step preserves *)

Lemma call_endpoint_preserves P `{!Growing P} e rq w :
  P w → P (call_endpoint e rq w).2.
Proof.
  intros Hw. rewrite call_endpoint_run.
  destruct e; [destruct (EmailRequest_validate _) as [req|]; [|done]|];
    simpl; apply preserves_run;
    first [done | apply preserves_extract_from_email, _
          | apply preserves_get_emails, _].
Qed.

Lemma step_preserves P `{!Growing P} w w' : step w w' → P w → P w'.
Proof.
  intros [rq p r w1 w2 Hs Hrun] Hw.
  assert (∃ e, p = call_endpoint e rq) as [e ->]
    by (apply serve_the_app in Hs as [(_ & _ & ->)|(_ & _ & ->)]; eauto).
  pose proof (call_endpoint_preserves P e rq w1 Hw) as Hp.
  by rewrite Hrun in Hp.
Qed.

Lemma main_preserves P `{!Stable P} env dotenv w0 app w :
  main env dotenv w0 = (Ok app, w) → P w0 → P w.
Proof.
  rewrite main_run. cbv zeta. destruct (create_client _ _); [|done].
  destruct (Groq _); [|done]. intros [= _ <-] Hw.
  by apply preserves_run; [apply preserves_startup_probe|].
Qed.

(** What survives an insert holds in every world of the process. *)
Lemma running_preserves P `{!Growing P} env dotenv w0 w :
  running env dotenv w0 w → P w0 → P w.
Proof.
  induction 1 as [app w Hmain|w w' _ IH Hstep]; intros Hw.
  - by eapply (main_preserves P).
  - eapply (step_preserves P); eauto.
Qed.

End service.

(** ** The theorem at a concrete input *)

#[local] Existing Instance demo_env.
#[local] Existing Instance demo_clients.
#[local] Existing Instance strict_pydantic.

(** A process that starts with the file of the scenario, serves the request
    of the scenario and then a listing. *)
Definition started_world : World := (main ∅ dotenv_file world0).2.

Definition demo_rq : Request :=
  {| rq_method := POST; rq_path := "/extract";
     rq_json := EmailRequest_json demo_request [] |}.

Definition list_rq : Request :=
  {| rq_method := GET; rq_path := "/emails"; rq_json := PNone |}.

Definition after_post : World := (call_endpoint ExtractFromEmail demo_rq started_world).2.
Definition after_list : World := (call_endpoint GetEmails list_rq after_post).2.

Lemma demo_running : running ∅ dotenv_file world0 after_list.
Proof.
  eapply running_served; [eapply running_served; [eapply running_started|]|].
  - vm_compute. reflexivity.
  - eapply (step_request demo_rq); [done|]. vm_compute. reflexivity.
  - eapply (step_request list_rq); [done|]. vm_compute. reflexivity.
Qed.

