(* ===== verification/Tasks.v ===== *)
(** * The endpoints, one store operation at a time

    [extract_from_email] (lines 171-213 of [src/app/main.py]) touches the
    table at one place, the insert of line 195, once per record.  Between
    two inserts of a request the table belongs to whoever else writes to it:
    another worker process of the same service, or the same request sent
    twice.  To say what a request does then, the handler is cut at its store
    operations into the steps of a [task]:

    - [Extract request]: lines 174-191, the call of the extractor and the
      test of line 183; it ends the request (nothing found, or the extractor
      raised) or leaves the records to store;
    - [Store request extracted_emails todo stored_count]: one iteration of
      the loop of lines 193-200 for the first record of [todo], or the
      [return] of lines 202-207 when [todo] is empty;
    - [Listing]: [get_emails], lines 215-234, whose one store operation is
      the select of line 220;
    - [Done result]: the request has been answered or has failed.

    Every step runs inside the [try] of line 174, as in the source.
    [run_task] runs steps one after the other; [run_task_extract] and
    [run_task_listing] show that a task run to its end without anybody else
    is the handler itself: same response or exception, same world;
    [steps_to_go] is the number of steps a task needs, one less after
    every step ([advance_steps_to_go]), and the task is over after them
    ([run_task_finishes]).  The
    steps keep what the handlers keep ([preserves_task_step]), and the steps
    of [POST /extract] observe what their primitives observe
    ([sim_task_step]). *)

From S2P Require Import Prelude PyStr PyVal DateTime.
From S2P Require Import Iso World Store Scenario Summarizer.
From S2P Require Import Extractor Endpoints Cost.

Local Open Scope py_scope.

(** Where a request is. *)
Inductive task : Type :=
| Extract (request : EmailRequest)
| Store (request : EmailRequest) (extracted_emails todo : list email_content)
    (stored_count : nat)
| Listing
| Done (result : outcome exn pyval).

(** A task that is not the listing: the steps of [POST /extract] and the
    requests that are over. *)
Definition posting (t : task) : Prop :=
  match t with Listing => False | _ => True end.

#[export] Instance posting_dec t : Decision (posting t).
Proof. destruct t; apply _. Defined.

(** The steps a task has left once the extractor has returned. *)
Definition steps_left (t : task) : nat :=
  match t with
  | Extract _ => 1
  | Store _ _ todo _ => S (length todo)
  | Listing => 1
  | Done _ => 0
  end.

Section tasks.
Context `{Env}.
Implicit Types (t : task) (w : World) (req : EmailRequest).

(** One step of a request: up to its next store operation, that operation
    included. *)
Definition task_step (t : task) : Py task :=
  match t with
  | Extract request =>
      try_except
        (logger INFO ("Starting email extraction for: " +:+ email_address request) ;;
         extracted_emails <-
           extract_emails_from_inbox (email_address request) (password request)
             (sender_addresses request) ;;
         match extracted_emails with
         | [] =>
             logger WARNING "No emails found in the last 24 hours from specified senders" ;;
             ret (Done (Ok (no_emails_response (sender_addresses request))))
         | _ :: _ =>
             logger INFO "Storing emails in Supabase" ;;
             let stored_count := 0 in
             ret (Store request extracted_emails extracted_emails stored_count)
         end)
        (reraise_as_http "extract_from_email")
  | Store request extracted_emails (email_data :: todo) stored_count =>
      try_except
        (stored_count <- store_email stored_count email_data ;;
         ret (Store request extracted_emails todo stored_count))
        (reraise_as_http "extract_from_email")
  | Store request extracted_emails [] stored_count =>
      ret (Done (Ok (stored_response (length extracted_emails) stored_count
                       (sender_addresses request))))
  | Listing => body <- get_emails ;; ret (Done (Ok body))
  | Done result => ret (Done result)
  end.

(** An exception that leaves a step ends the request with it. *)
Definition next_task (o : outcome exn task) : task :=
  match o with Ok t => t | Raise e => Done (Raise e) end.

Definition advance t w : task * World :=
  let '(o, w') := task_step t w in (next_task o, w').

(** [fuel] steps of a task; a task that is over stays as it is. *)
Fixpoint run_task (fuel : nat) t w : task * World :=
  match fuel with
  | 0 => (t, w)
  | S fuel' => let '(t', w') := advance t w in run_task fuel' t' w'
  end.

(** The task a handler run amounts to. *)
Definition settled (run : outcome exn pyval * World) : task * World :=
  (Done run.1, run.2).

(** ** The steps, path by path *)

Lemma advance_done result w : advance (Done result) w = (Done result, w).
Proof. done. Qed.

Lemma run_task_done fuel result w : run_task fuel (Done result) w = (Done result, w).
Proof. induction fuel as [|fuel IH]; [done|]. simpl. apply IH. Qed.

Lemma run_task_add fuel1 fuel2 t w :
  run_task (fuel1 + fuel2) t w
  = let '(t', w') := run_task fuel1 t w in run_task fuel2 t' w'.
Proof.
  revert t w. induction fuel1 as [|fuel1 IH]; intros t w; [done|]. simpl.
  destruct (advance t w) as [t' w']. apply IH.
Qed.

(** A task that has reached its end stays there. *)
Lemma run_task_settled fuel1 fuel2 t w result w' :
  run_task fuel1 t w = (Done result, w') → fuel1 ≤ fuel2 →
  run_task fuel2 t w = (Done result, w').
Proof.
  intros Hrun Hle. replace fuel2 with (fuel1 + (fuel2 - fuel1)) by lia.
  by rewrite run_task_add, Hrun, run_task_done.
Qed.

(** The handler of line 209 does not depend on what the [try] would have
    returned. *)
Lemma reraise_as_http_run {A} where_ e w :
  reraise_as_http (A:=A) where_ e w
  = (Raise (if is_HTTPException e then e
            else HTTPException 500 (PStr (str_exn e))),
     w_add_log ERROR ("Error in " +:+ where_ +:+ ": " +:+ str_exn e) w).
Proof. unfold reraise_as_http, bind. simpl. by destruct (is_HTTPException e). Qed.

Lemma advance_extract req w :
  advance (Extract req) w
  = match extraction_run req w with
    | (Raise e, w1) => settled (reraise_as_http "extract_from_email" e w1)
    | (Ok [], w1) =>
        (Done (Ok (no_emails_response (sender_addresses req))),
         w_add_log WARNING
           "No emails found in the last 24 hours from specified senders" w1)
    | (Ok rs, w1) =>
        (Store req rs rs 0, w_add_log INFO "Storing emails in Supabase" w1)
    end.
Proof.
  unfold advance, task_step, extraction_run, w_request, try_except, bind.
  unfold logger at 1, modify at 1. cbn [enabled].
  destruct (extract_emails_from_inbox _ _ _ _) as [[[|r rs]|e] w1]; try done.
  by rewrite !reraise_as_http_run.
Qed.

Lemma advance_store req rs r todo c w :
  advance (Store req rs (r :: todo) c) w
  = let '(o, w') := store_email c r w in
    (match o with
     | Ok c' => Store req rs todo c'
     | Raise e => Done (Raise e)
     end, w').
Proof.
  unfold advance, task_step, try_except, bind. rewrite store_email_run.
  by destruct (env_insert _ _ _).
Qed.

Lemma advance_listing w : advance Listing w = settled (get_emails w).
Proof.
  unfold advance, task_step, bind, settled. by destruct (get_emails w) as [[]].
Qed.

(** The steps of the loop are the loop. *)
Lemma run_task_store req rs todo c w :
  run_task (steps_left (Store req rs todo c)) (Store req rs todo c) w
  = let '(o, w') := for_fold todo c store_email w in
    (Done (n <-? o ;; Ok (stored_response (length rs) n (sender_addresses req))),
     w').
Proof.
  revert c w. induction todo as [|r todo IH]; intros c w; [done|].
  cbn [steps_left length run_task for_fold]. rewrite advance_store.
  unfold bind. rewrite store_email_run.
  destruct (env_insert _ _ _); apply IH.
Qed.

(** ** A task run alone is the handler *)

(** The steps [POST /extract] takes from [w]: the extraction, one per
    record, the [return]. *)
Definition steps_of req w : nat := 1 + steps_left (advance (Extract req) w).1.

(** The steps of [POST /extract], run one after the other with nothing in
    between, are the handler. *)
Lemma run_task_settles req w fuel :
  steps_of req w ≤ fuel →
  run_task fuel (Extract req) w = settled (extract_from_email req w).
Proof.
  unfold steps_of. intros Hfuel.
  replace fuel with (1 + (fuel - 1)) in * by lia. cbn [run_task Nat.add] in *.
  rewrite extract_from_email_run. rewrite advance_extract in *.
  destruct (extraction_run req w) as [[[|r rs]|e] w1];
    [apply run_task_done| |apply run_task_done].
  cbn [fst] in Hfuel. cbv zeta.
  pose proof (run_task_store req (r :: rs) (r :: rs) 0
                (w_add_log INFO "Storing emails in Supabase" w1)) as Hloop.
  destruct (store_loop_refines (r :: rs) 0
              (w_add_log INFO "Storing emails in Supabase" w1)) as (w3 & Hfold & _).
  rewrite Hfold in *. eapply run_task_settled; [done|by apply le_S_n, Hfuel].
Qed.

(** [GET /emails] is one step. *)
Lemma run_task_listing w fuel :
  run_task (S fuel) Listing w = settled (get_emails w).
Proof. cbn [run_task]. rewrite advance_listing. apply run_task_done. Qed.

(** The steps a task needs, run alone from [w]. *)
Definition steps_to_go (t : task) (w : World) : nat :=
  match t with
  | Extract req => steps_of req w
  | _ => steps_left t
  end.

(** With that many steps, or more, the task is over. *)
Lemma run_task_finishes t w fuel :
  steps_to_go t w ≤ fuel → ∃ result w', run_task fuel t w = (Done result, w').
Proof.
  destruct t as [req|req rs todo c| |result]; simpl; intros Hfuel.
  - rewrite run_task_settles by done. by eexists _, _.
  - pose proof (run_task_store req rs todo c w) as Hrun.
    destruct (for_fold todo c store_email w) as [o w'].
    eexists _, _. eapply run_task_settled; [done|]. simpl. lia.
  - destruct fuel; [lia|]. rewrite run_task_listing. by eexists _, _.
  - rewrite run_task_done. by eexists _, _.
Qed.

(** A task that needs no step is over. *)
Lemma steps_to_go_0 t w : steps_to_go t w = 0 → ∃ result, t = Done result.
Proof. destruct t; unfold steps_to_go, steps_of; simpl; eauto; lia. Qed.

(** A step leaves one step less to go, at most. *)
Lemma advance_steps_to_go t w w' :
  steps_to_go (advance t w).1 w' ≤ steps_to_go t w - 1.
Proof.
  destruct t as [req|req rs [|r todo] c| |result]; unfold steps_to_go at 2.
  - unfold steps_of. rewrite advance_extract.
    destruct (extraction_run req w) as [[[|r rs]|e] w1]; simpl; lia.
  - simpl. lia.
  - rewrite advance_store. destruct (store_email c r w) as [[c'|e] w1]; simpl; lia.
  - rewrite advance_listing. simpl. lia.
  - simpl. lia.
Qed.

(** The number of steps is bounded with the answers of the mailbox. *)
Lemma steps_of_le B req w :
  (∀ n c, length (env_fetch n c).1 ≤ B) →
  steps_of req w ≤ 2 + length (sender_addresses req) * B.
Proof.
  intros HB. unfold steps_of. rewrite advance_extract.
  destruct (extraction_run req w) as [[[|r rs]|e] w1] eqn:Hrun; simpl; [lia| |lia].
  apply (extract_length B) in Hrun; [|done]. simpl in Hrun. lia.
Qed.

(** The steps a request for [n] senders needs at most when no answer of
    the mailbox holds more than [B] messages: the extraction, an insert per
    message, the [return]. *)
Definition task_budget (n B : nat) : nat := 2 + n * B.


(** ** What a step keeps, and what it observes *)

Lemma preserves_task_step (P : World → Prop) `{!Growing P} t :
  preserves P (task_step t).
Proof.
  pose proof (growing_stable (P:=P)). pose proof (preserves_extract_emails P).
  pose proof (preserves_store_email P). pose proof (preserves_get_emails P).
  destruct t as [req|req rs [|r todo] c| |result]; simpl;
    unfold reraise_as_http; preserves_auto.
Qed.

Lemma advance_preserves_table (P : World → Prop) `{!Growing P} t w :
  P w → P (advance t w).2.
Proof.
  intros Hw. pose proof (preserves_run P (task_step t) w (preserves_task_step P t) Hw).
  unfold advance. by destruct (task_step t w).
Qed.

(** The steps of [POST /extract] observe what their primitives observe. *)
Lemma sim_task_step (R : relation World) `{!Blind R} t :
  posting t → sim R (task_step t) (task_step t).
Proof.
  pose proof (sim_extract_emails R). pose proof (sim_store_email R).
  pose proof (sim_reraise_as_http R (A:=task)).
  destruct t as [req|req rs [|r todo] c| |result]; [| | |done|]; intros _; simpl;
    sim_auto.
Qed.

Lemma advance_sim (R : relation World) `{!Blind R} t w1 w2 :
  posting t → R w1 w2 →
  (advance t w1).1 = (advance t w2).1 ∧ R (advance t w1).2 (advance t w2).2.
Proof.
  intros Ht Hw. destruct (sim_task_step R t Ht w1 w2 Hw) as [Ho HR].
  unfold advance. destruct (task_step t w1), (task_step t w2). simpl in *.
  by subst.
Qed.

(** [POST /extract] never turns into a listing. *)
Lemma advance_posting t w : posting t → posting (advance t w).1.
Proof.
  destruct t as [req|req rs [|r todo] c| |result]; [| | |done|]; intros _.
  - rewrite advance_extract. destruct (extraction_run req w) as [[[|??]|?] ?]; done.
  - done.
  - rewrite advance_store. by destruct (store_email c r w) as [[]].
  - done.
Qed.
End tasks.

(** ** The theorem at a concrete input *)

#[local] Existing Instance demo_env.


(** The request of the scenario takes five steps: the extraction, three
    inserts and the [return]. *)
Example demo_steps : steps_of demo_request world0 = 5.
Proof. vm_compute. reflexivity. Qed.
