(* ===== verification/Workers.v ===== *)
(** * Requests that share the table

    Nothing in [src/app/main.py] is shared between two requests but the
    collaborators: the clients of lines 37-43 hold no state, and a handler
    keeps what it fetched in local variables.  The table [emails] is the one
    thing a request writes that another can see, and it is written one
    insert at a time (line 195), with no transaction around the loop.  When
    the service runs as several worker processes, or when its store has
    other writers, the inserts of two requests interleave.

    This file models that situation.  A [worker] is a request in progress:
    its [task] (Tasks), its own [Session] with the outside (its count of
    interactions, its calls, its log) and its own oracle [Env], the answers
    the collaborators give to this worker.  A [system] is a pool of workers
    and the one [Table] they share.  [sys_step i] lets worker [i] take its
    next step on the table as it is now; [exec sched] runs the schedule
    [sched], the list of the workers in the order they step.  Every
    interleaving of the workers at the granularity of their store operations
    is [exec sched] for some [sched].

    The extraction is one step because it neither reads nor writes the
    table ([Extractor.extract_refines]): whatever happens to the table while
    a worker talks to its mailbox and to the chat API changes nothing for
    it, and it changes nothing for the others.

    Theorems:
    - [workers_keep_table]: under every schedule the identifiers stay
      distinct, the rows that were there stay in their place, and the table
      is the initial table followed by [history], the rows in the order
      they were appended, each with the worker that appended it;
    - [request_isolated]: under every schedule that lets a [POST /extract]
      finish, its response or exception, its log and its calls are those of
      [extract_from_email] running alone, on any table whatever, and the
      rows it appended hold the dates and the records of the rows it appends
      alone: the other workers decide the identifiers and nothing else;
    - [listing_snapshot]: a [GET /emails] that runs among the workers
      answers with the rows of the table at the moment of its select, which
      are the initial rows and a prefix of what the workers appended;
    - [schedules_agree]: two schedules that let every [POST /extract]
      finish end with the same workers and with tables that hold the same
      rows up to their order and their identifiers, so every interleaving
      is equivalent to serving the requests one after the other;
    - [enough_turns_finish]: a schedule that gives every request the
      turns it needs alone lets every request finish;
    - [listings_agree]: so a [GET /emails] after all the requests lists
      the same dates in the same order whatever the interleaving was. *)

From S2P Require Import Prelude PyStr PyVal DateTime.
From S2P Require Import Iso World Store Scenario Summarizer.
From S2P Require Import Extractor Endpoints Cost Pipeline Tasks.
From stdpp Require Import sorting relations.

Local Open Scope py_scope.

(** ** What a worker has for itself, and what the workers share *)

(** The interactions of one worker with the outside. *)
Record Session : Type := {
  s_tick : nat;
  s_trace : list event;
  s_log : list (level * string);
}.

(** The table [emails]: its rows and the next identifier of the identity
    column (line 55). *)
Record Table : Type := {
  t_rows : list Row;
  t_next_id : Z;
}.

Definition session (w : World) : Session :=
  {| s_tick := w_tick w; s_trace := w_trace w; s_log := w_log w |}.

Definition table (w : World) : Table :=
  {| t_rows := w_rows w; t_next_id := w_next_id w |}.

(** The world a worker steps in: its session and the table as it is. *)
Definition join (s : Session) (tb : Table) : World :=
  {| w_tick := s_tick s; w_trace := s_trace s; w_log := s_log s;
     w_rows := t_rows tb; w_next_id := t_next_id tb |}.

(** A session that has not begun. *)
Definition session0 : Session := {| s_tick := 0; s_trace := []; s_log := [] |}.

(** A row without its identifier: what the worker sent and what the store
    made of its date. *)
Definition unnumbered (r : Row) : Z * email_content := (row_date r, row_data r).

(** [same_added n1 n2 w1 w2]: the same session, and the same rows after
    the first [n1] of [w1] and the first [n2] of [w2], identifiers apart. *)
Definition same_added (n1 n2 : nat) (w1 w2 : World) : Prop :=
  session w1 = session w2
  ∧ n1 ≤ length (w_rows w1) ∧ n2 ≤ length (w_rows w2)
  ∧ unnumbered <$> drop n1 (w_rows w1) = unnumbered <$> drop n2 (w_rows w2).

(** ** Workers and the system *)

Record worker : Type := {
  wk_env : Env;
  wk_session : Session;
  wk_task : task;
}.

Record system : Type := {
  sys_workers : list worker;
  sys_table : Table;
}.

(** One step of a worker on the table [tb]. *)
Definition worker_step (wk : worker) (tb : Table) : worker * Table :=
  let '(t', w') := @advance (wk_env wk) (wk_task wk) (join (wk_session wk) tb) in
  ({| wk_env := wk_env wk; wk_session := session w'; wk_task := t' |}, table w').

(** Worker [i] steps; a worker that is not there does nothing. *)
Definition sys_step (i : nat) (σ : system) : system :=
  match sys_workers σ !! i with
  | Some wk =>
      let '(wk', tb') := worker_step wk (sys_table σ) in
      {| sys_workers := <[i := wk']> (sys_workers σ); sys_table := tb' |}
  | None => σ
  end.

(** The workers step in the order of [sched]. *)
Fixpoint exec (sched : list nat) (σ : system) : system :=
  match sched with
  | [] => σ
  | i :: sched' => exec sched' (sys_step i σ)
  end.

(** The rows a step of worker [i] appends. *)
Definition step_rows (i : nat) (σ : system) : list Row :=
  drop (length (t_rows (sys_table σ))) (t_rows (sys_table (sys_step i σ))).

(** The rows appended under [sched], in order, each with its worker. *)
Fixpoint history (sched : list nat) (σ : system) : list (nat * Row) :=
  match sched with
  | [] => []
  | i :: sched' => (pair i <$> step_rows i σ) ++ history sched' (sys_step i σ)
  end.

(** The rows of worker [i] in a history. *)
Definition rows_of (i : nat) (h : list (nat * Row)) : list Row :=
  (filter (λ e, e.1 = i) h).*2.

(** The steps worker [i] takes in [sched]. *)
Definition turns (i : nat) (sched : list nat) : nat :=
  length (filter (λ j, j = i) sched).

(** One worker and nobody else. *)
Definition alone (wk : worker) (tb : Table) : system :=
  {| sys_workers := [wk]; sys_table := tb |}.

(** ** Sessions, tables and worlds *)

Lemma join_session_table w : join (session w) (table w) = w.
Proof. by destruct w. Qed.

Lemma session_join s tb : session (join s tb) = s.
Proof. by destruct s. Qed.

Lemma table_join s tb : table (join s tb) = tb.
Proof. by destruct tb. Qed.

(** A property of the table holds whoever looks at it. *)
Lemma stable_join (P : World → Prop) `{!Stable P} s1 s2 tb :
  P (join s1 tb) → P (join s2 tb).
Proof. by apply stable. Qed.

(** [session_eq H]: two worlds that a primitive made from worlds of the same
    session [H] have the same session. *)
Ltac session_eq H :=
  injection H; intros; unfold session; simpl; congruence.

Section blind.
Context `{Env} (n1 n2 : nat).

Lemma same_added_rows w1 w2 w1' w2' :
  same_added n1 n2 w1 w2 → session w1' = session w2' →
  w_rows w1' = w_rows w1 → w_rows w2' = w_rows w2 → same_added n1 n2 w1' w2'.
Proof. unfold same_added. intros (_ & ? & ? & ?) ? -> ->. done. Qed.

(** No primitive sees the identifiers, nor the rows of the others. *)
#[export] Instance same_added_blind : Blind (same_added n1 n2).
Proof.
  split; intros.
  - intros w1 w2 Hw. pose proof Hw as (Hs & _). unfold call.
    replace (w_tick w2) with (w_tick w1) by by injection Hs.
    split; [done|]. eapply same_added_rows; [done|session_eq Hs|done..].
  - apply sim_modify. intros w1 w2 Hw. destruct (enabled l); [|done].
    pose proof Hw as (Hs & _).
    eapply same_added_rows; [done|session_eq Hs|done..].
  - intros w1 w2 Hw. pose proof Hw as (Hs & _). unfold datetime_now_utc.
    replace (w_tick w2) with (w_tick w1) by by injection Hs.
    split; [done|]. eapply same_added_rows; [done|session_eq Hs|done..].
  - apply sim_modify. intros w1 w2 (Hs & Hn1 & Hn2 & Hrows).
    unfold same_added. simpl.
    rewrite !length_app, !drop_app_le, !fmap_app, Hrows by done.
    split_and!; [session_eq Hs|lia..|done].
Qed.
End blind.

(** ** One step of a worker *)

Section worker_steps.
Implicit Types (wk : worker) (tb : Table) (P : World → Prop).

(** A step keeps what the handlers keep, whoever looks at the table. *)
Lemma worker_step_preserves P `{!Growing P} wk tb s :
  P (join s tb) → P (join s (worker_step wk tb).2).
Proof.
  intros HP. unfold worker_step.
  pose proof (@advance_preserves_table (wk_env wk) P _ (wk_task wk)
                (join (wk_session wk) tb)) as Hstep.
  destruct (advance _ _) as [t' w']. simpl in *.
  apply (stable w'); [done..|]. apply Hstep. by apply (stable_join P s).
Qed.

(** A step appends. *)
Lemma worker_step_appends wk tb :
  t_rows (worker_step wk tb).2
  = t_rows tb ++ drop (length (t_rows tb)) (t_rows (worker_step wk tb).2).
Proof.
  apply prefix_drop.
  apply (worker_step_preserves (keeps_rows (t_rows tb)) wk tb session0).
  by unfold keeps_rows.
Qed.

(** A step of [POST /extract] does not see the table: on two tables it
    leaves the same worker and appends the same rows, identifiers apart. *)
Lemma worker_step_isolated wk tb1 tb2 :
  posting (wk_task wk) →
  (worker_step wk tb1).1 = (worker_step wk tb2).1
  ∧ unnumbered <$> drop (length (t_rows tb1)) (t_rows (worker_step wk tb1).2)
    = unnumbered <$> drop (length (t_rows tb2)) (t_rows (worker_step wk tb2).2).
Proof.
  intros Ht. unfold worker_step.
  destruct (@advance_sim (wk_env wk) (same_added (length (t_rows tb1))
              (length (t_rows tb2))) _ (wk_task wk) (join (wk_session wk) tb1)
              (join (wk_session wk) tb2) Ht) as (Htask & Hs & _ & _ & Hrows).
  { unfold same_added. simpl. by rewrite !drop_all. }
  destruct (advance _ (join _ tb1)) as [t1 w1], (advance _ (join _ tb2)) as [t2 w2].
  simpl in *. by rewrite Htask, Hs.
Qed.

Lemma worker_step_posting wk tb :
  posting (wk_task wk) → posting (wk_task (worker_step wk tb).1).
Proof.
  intros Ht. unfold worker_step.
  pose proof (@advance_posting (wk_env wk) (wk_task wk) (join (wk_session wk) tb) Ht).
  by destruct (advance _ _).
Qed.

(** A worker that is over does nothing. *)
Lemma worker_step_done wk tb result :
  wk_task wk = Done result → worker_step wk tb = (wk, tb).
Proof.
  destruct wk as [env s t]. simpl. intros ->. unfold worker_step. simpl.
  by rewrite session_join, table_join.
Qed.
End worker_steps.

(** ** Steps of the system *)

Section system_steps.
Implicit Types (σ : system) (wk : worker) (tb : Table) (i j : nat).

Lemma sys_step_lookup_ne i j σ :
  i ≠ j → sys_workers (sys_step i σ) !! j = sys_workers σ !! j.
Proof.
  intros Hij. unfold sys_step. destruct (sys_workers σ !! i) as [wk|]; [|done].
  destruct (worker_step _ _). simpl. by apply list_lookup_insert_ne.
Qed.

Lemma sys_step_lookup i σ wk :
  sys_workers σ !! i = Some wk →
  sys_workers (sys_step i σ) !! i = Some (worker_step wk (sys_table σ)).1
  ∧ sys_table (sys_step i σ) = (worker_step wk (sys_table σ)).2.
Proof.
  intros Hwk. unfold sys_step. rewrite Hwk.
  destruct (worker_step _ _). simpl. split; [|done].
  apply list_lookup_insert_eq. by eapply lookup_lt_Some.
Qed.

Lemma sys_step_alone wk tb :
  sys_step 0 (alone wk tb) = alone (worker_step wk tb).1 (worker_step wk tb).2.
Proof. unfold sys_step. simpl. by destruct (worker_step _ _). Qed.

Lemma sys_step_preserves (P : World → Prop) `{!Growing P} i σ :
  P (join session0 (sys_table σ)) → P (join session0 (sys_table (sys_step i σ))).
Proof.
  intros HP. destruct (sys_workers σ !! i) as [wk|] eqn:Hwk.
  - destruct (sys_step_lookup i σ wk Hwk) as [_ ->].
    by apply worker_step_preserves.
  - unfold sys_step. by rewrite Hwk.
Qed.

(** What every step keeps holds after every schedule. *)
Lemma exec_preserves (P : World → Prop) `{!Growing P} sched σ :
  P (join session0 (sys_table σ)) → P (join session0 (sys_table (exec sched σ))).
Proof.
  revert σ. induction sched as [|i sched IH]; intros σ HP; [done|].
  by apply IH, sys_step_preserves.
Qed.

Lemma sys_step_appends i σ :
  t_rows (sys_table (sys_step i σ)) = t_rows (sys_table σ) ++ step_rows i σ.
Proof.
  unfold step_rows. apply prefix_drop.
  apply (sys_step_preserves (keeps_rows (t_rows (sys_table σ))) i σ).
  by unfold keeps_rows.
Qed.

(** The table is what it was, then the history. *)
Lemma exec_history sched σ :
  t_rows (sys_table (exec sched σ))
  = t_rows (sys_table σ) ++ (history sched σ).*2.
Proof.
  revert σ. induction sched as [|i sched IH]; intros σ; simpl.
  - by rewrite app_nil_r.
  - rewrite IH, sys_step_appends, fmap_app, <- list_fmap_compose, app_assoc.
    by rewrite list_fmap_id.
Qed.

Lemma exec_app sched1 sched2 σ :
  exec (sched1 ++ sched2) σ = exec sched2 (exec sched1 σ).
Proof. revert σ. induction sched1 as [|i sched1 IH]; intros σ; [done|apply IH]. Qed.

Lemma history_app sched1 sched2 σ :
  history (sched1 ++ sched2) σ
  = history sched1 σ ++ history sched2 (exec sched1 σ).
Proof.
  revert σ. induction sched1 as [|i sched1 IH]; intros σ; [done|]. simpl.
  by rewrite IH, app_assoc.
Qed.

Lemma rows_of_app i (h1 h2 : list (nat * Row)) :
  rows_of i (h1 ++ h2) = rows_of i h1 ++ rows_of i h2.
Proof. unfold rows_of. by rewrite filter_app, fmap_app. Qed.

Lemma rows_of_pair i j (rows : list Row) :
  rows_of i (pair j <$> rows) = if decide (j = i) then rows else [].
Proof.
  unfold rows_of. induction rows as [|r rows IH]; [by destruct (decide _)|].
  csimpl. rewrite filter_cons. simpl.
  destruct (decide (j = i)); csimpl; by rewrite IH.
Qed.

Lemma turns_cons i j sched :
  turns i (j :: sched) = if decide (j = i) then S (turns i sched) else turns i sched.
Proof. unfold turns. rewrite filter_cons. by destruct (decide _). Qed.
End system_steps.

(** ** Reachable systems

    The schedules are the paths of the relation "some worker steps": a
    system is reachable when a schedule leads to it. *)

Definition sys_next (σ σ' : system) : Prop := ∃ i, σ' = sys_step i σ.

Lemma reachable_exec σ σ' : rtc sys_next σ σ' ↔ ∃ sched, σ' = exec sched σ.
Proof.
  split.
  - induction 1 as [σ|σ σ1 σ2 [i ->] _ [sched ->]]; [by exists []|].
    by exists (i :: sched).
  - intros [sched ->]. revert σ.
    induction sched as [|i sched IH]; intros σ; [done|].
    eapply rtc_l; [by exists i|apply IH].
Qed.

(** What every step keeps holds in every reachable system. *)
Lemma reachable_preserves (P : World → Prop) `{!Growing P} σ σ' :
  rtc sys_next σ σ' →
  P (join session0 (sys_table σ)) → P (join session0 (sys_table σ')).
Proof. intros [sched ->]%reachable_exec. by apply exec_preserves. Qed.

(** ** A request among the others *)

Section isolation.
Implicit Types (σ : system) (wk : worker) (tb : Table) (i : nat).

(** The schedule in which one worker takes [k] steps. *)
Definition solo (k : nat) : list nat := replicate k 0.

(** What a schedule does to a worker of [POST /extract], and the rows that
    worker appends, are what the worker does and appends alone in as many
    steps, on any table: the rest of the schedule shows in the identifiers
    alone. *)
Lemma exec_isolated sched σ i wk tb :
  sys_workers σ !! i = Some wk → posting (wk_task wk) →
  sys_workers (exec sched σ) !! i
  = sys_workers (exec (solo (turns i sched)) (alone wk tb)) !! 0
  ∧ unnumbered <$> rows_of i (history sched σ)
    = unnumbered <$> rows_of 0 (history (solo (turns i sched)) (alone wk tb)).
Proof.
  revert σ wk tb. induction sched as [|j sched IH]; intros σ wk tb Hwk Ht; [done|].
  rewrite turns_cons. cbn [exec history]. rewrite rows_of_app, rows_of_pair.
  destruct (decide (j = i)) as [->|Hji].
  - cbn [solo replicate exec history]. rewrite sys_step_alone.
    rewrite rows_of_app, rows_of_pair, !fmap_app. simpl.
    destruct (sys_step_lookup i σ wk Hwk) as [Hwk' Htb].
    destruct (worker_step_isolated wk (sys_table σ) tb Ht) as [Hsame Hrows].
    unfold step_rows at 1 2. rewrite sys_step_alone, Htb. simpl.
    rewrite Hsame in Hwk'.
    destruct (IH _ _ (worker_step wk tb).2 Hwk') as [-> ->];
      [by apply worker_step_posting|]. by rewrite Hrows.
  - apply IH; [|done]. by rewrite sys_step_lookup_ne.
Qed.

(** A worker alone runs its task. *)
Lemma exec_alone k wk tb :
  let run := @run_task (wk_env wk) k (wk_task wk) (join (wk_session wk) tb) in
  exec (solo k) (alone wk tb)
  = alone {| wk_env := wk_env wk; wk_session := session run.2;
             wk_task := run.1 |} (table run.2).
Proof.
  revert wk tb. induction k as [|k IH]; intros [env s t] tb; simpl.
  - by rewrite session_join, table_join.
  - rewrite sys_step_alone. unfold worker_step. simpl.
    destruct (advance t (join s tb)) as [t' w']. rewrite IH. simpl.
    by rewrite join_session_table.
Qed.

(** The rows a worker alone appends are the rows its task adds. *)
Lemma history_alone k wk tb :
  (history (solo k) (alone wk tb)).*2
  = drop (length (t_rows tb))
      (w_rows (@run_task (wk_env wk) k (wk_task wk) (join (wk_session wk) tb)).2).
Proof.
  pose proof (exec_history (solo k) (alone wk tb)) as Hh.
  rewrite exec_alone in Hh. simpl in Hh. by rewrite Hh, drop_app_length.
Qed.

Lemma rows_of_alone (h : list (nat * Row)) :
  Forall (λ e, e.1 = 0) h → rows_of 0 h = h.*2.
Proof.
  intros Hh. unfold rows_of. f_equal. induction Hh as [|e h He _ IH]; [done|].
  by rewrite filter_cons_True, IH.
Qed.

Lemma history_solo_owner k σ : Forall (λ e, e.1 = 0) (history (solo k) σ).
Proof.
  revert σ. induction k as [|k IH]; intros σ; [constructor|]. simpl.
  apply Forall_app. split; [|apply IH]. by apply Forall_fmap, Forall_true.
Qed.
End isolation.

(** ** The theorems *)

Section workers.
Implicit Types (σ : system) (wk : worker) (tb : Table) (i : nat).


(** C13: a [POST /extract] among other requests.
    Under every schedule that gives worker [i] the steps its request needs,
    whatever the other workers are and whenever they step, the worker ends
    with the response or the exception of [extract_from_email] run alone
    from its session, on any table [tb] whatever, after the same calls and
    with the same log; the rows it appended hold, in order, the dates and
    the records of the rows that run appends to [tb]; and the count it
    reports is the number of rows it appended itself.  The other workers
    decide the identifiers of its rows and nothing else. *)
Theorem request_isolated sched σ i wk req tb :
  sys_workers σ !! i = Some wk → wk_task wk = Extract req →
  let w := join (wk_session wk) tb in
  @steps_of (wk_env wk) req w ≤ turns i sched →
  let run := @extract_from_email (wk_env wk) req w in
  let mine := rows_of i (history sched σ) in
  sys_workers (exec sched σ) !! i
  = Some {| wk_env := wk_env wk; wk_session := session run.2;
            wk_task := Done run.1 |}
  ∧ unnumbered <$> mine = unnumbered <$> drop (length (t_rows tb)) (w_rows run.2)
  ∧ ∀ resp, run.1 = Ok resp → ∃ rs, resp = response_for req rs (length mine).
Proof.
  intros Hwk Ht w Hsteps run mine.
  destruct (exec_isolated sched σ i wk tb Hwk) as [Hi Hrows]; [by rewrite Ht|].
  fold mine in Hrows.
  rewrite rows_of_alone, history_alone in Hrows by apply history_solo_owner.
  rewrite exec_alone, Ht in Hi. rewrite Ht in Hrows.
  rewrite (@run_task_settles (wk_env wk)) in Hi, Hrows by done.
  split_and!; [done..|]. intros resp Hresp.
  destruct (@extraction_run (wk_env wk) req w) as [[rs|e] w1] eqn:Hrun.
  - destruct (@extract_from_email_stores (wk_env wk) req w rs w1 Hrun)
      as (w' & Hrun' & Hw' & _).
    subst run w. rewrite Hrun' in Hresp, Hrows. simpl in Hrows.
    rewrite Hw', drop_app_length in Hrows. exists rs.
    apply (f_equal length) in Hrows. rewrite !length_fmap in Hrows.
    rewrite Hrows. by injection Hresp as <-.
  - subst run. rewrite (@extract_from_email_run (wk_env wk)), Hrun in Hresp.
    by rewrite reraise_as_http_run in Hresp.
Qed.
End workers.

(** ** A listing among the others *)

Section listing.
Implicit Types (σ : system) (wk : worker) (tb : Table) (i : nat).

(** A worker that does not step stays as it is. *)
Lemma exec_idle sched σ i :
  i ∉ sched → sys_workers (exec sched σ) !! i = sys_workers σ !! i.
Proof.
  revert σ. induction sched as [|j sched IH]; intros σ Hi; [done|].
  apply not_elem_of_cons in Hi as [Hij Hi]. simpl.
  rewrite IH by done. by apply sys_step_lookup_ne.
Qed.

(** A worker that is over stays as it is. *)
Lemma exec_done sched σ i wk result :
  sys_workers σ !! i = Some wk → wk_task wk = Done result →
  sys_workers (exec sched σ) !! i = Some wk.
Proof.
  intros Hwk Ht.
  destruct (exec_isolated sched σ i wk (sys_table σ) Hwk) as [-> _];
    [by rewrite Ht|].
  rewrite exec_alone, Ht, (@run_task_done (wk_env wk)). destruct wk. simpl in *.
  by rewrite session_join, Ht.
Qed.

End listing.

(** ** Every schedule is as good as any other

    Two schedules that let every request finish leave the same workers and
    the same rows: the order of the rows in the table and their identifiers
    are all that the interleaving decides. *)

Definition is_done (t : task) : Prop :=
  match t with Done _ => True | _ => False end.

(** Every request of the system is over. *)
Definition finished (σ : system) : Prop :=
  Forall (λ wk, is_done (wk_task wk)) (sys_workers σ).

(** Every worker of the system serves [POST /extract], or is over. *)
Definition posts (σ : system) : Prop :=
  Forall (λ wk, posting (wk_task wk)) (sys_workers σ).

(** What a table holds, identifiers apart. *)
Definition contents (tb : Table) : list (Z * email_content) :=
  unnumbered <$> t_rows tb.

Section agreement.
Implicit Types (σ : system) (wk : worker) (tb : Table) (i : nat).

(** A worker that is over, alone, stays as it is and appends nothing. *)
Lemma solo_idle k wk tb result :
  wk_task wk = Done result →
  exec (solo k) (alone wk tb) = alone wk tb ∧ history (solo k) (alone wk tb) = [].
Proof.
  intros Ht. unfold solo. induction k as [|k [IHe IHh]]; [done|].
  cbn [replicate exec history]. unfold step_rows.
  rewrite sys_step_alone, (worker_step_done wk tb result Ht). simpl.
  by rewrite drop_all, IHe, IHh.
Qed.

(** A worker alone that is over after [k1] steps is the same after more
    steps, and has appended the same rows. *)
Lemma solo_settled_le k1 k2 wk tb :
  k1 ≤ k2 → finished (exec (solo k1) (alone wk tb)) →
  exec (solo k2) (alone wk tb) = exec (solo k1) (alone wk tb)
  ∧ history (solo k2) (alone wk tb) = history (solo k1) (alone wk tb).
Proof.
  intros Hle Hdone. replace k2 with (k1 + (k2 - k1)) by lia.
  unfold solo. rewrite replicate_add, exec_app, history_app. fold (solo k1).
  unfold finished in Hdone. rewrite exec_alone in *. simpl in Hdone.
  apply Forall_cons in Hdone as [Hdone _]. simpl in Hdone.
  destruct (run_task _ _ _).1 as [| | |result] eqn:Ht; try done.
  destruct (solo_idle (k2 - k1) {| wk_env := wk_env wk;
              wk_session := session (@run_task (wk_env wk) k1 (wk_task wk)
                                       (join (wk_session wk) tb)).2;
              wk_task := Done result |}
              (table (@run_task (wk_env wk) k1 (wk_task wk)
                        (join (wk_session wk) tb)).2) result eq_refl) as [He Hh].
  unfold solo in He, Hh. by rewrite He, Hh, app_nil_r.
Qed.

Lemma solo_settled k1 k2 wk tb :
  finished (exec (solo k1) (alone wk tb)) → finished (exec (solo k2) (alone wk tb)) →
  exec (solo k1) (alone wk tb) = exec (solo k2) (alone wk tb)
  ∧ history (solo k1) (alone wk tb) = history (solo k2) (alone wk tb).
Proof.
  intros H1 H2. destruct (Nat.le_ge_cases k1 k2) as [Hle|Hle].
  - by destruct (solo_settled_le k1 k2 wk tb Hle H1) as [-> ->].
  - by destruct (solo_settled_le k2 k1 wk tb Hle H2) as [-> ->].
Qed.

(** A system is over when its tasks are. *)
Lemma finished_tasks σ : Forall is_done (wk_task <$> sys_workers σ) → finished σ.
Proof. unfold finished. by rewrite Forall_fmap. Qed.

Lemma solo_finished sched σ i k wk tb :
  sys_workers (exec sched σ) !! i
  = sys_workers (exec (solo k) (alone wk tb)) !! 0 →
  finished (exec sched σ) → finished (exec (solo k) (alone wk tb)).
Proof.
  unfold finished. rewrite exec_alone. simpl. intros Hi Hfin.
  apply Forall_singleton. by apply (Forall_lookup_1 _ _ i _ Hfin).
Qed.

(** What a schedule that lets the requests finish does to a worker of
    [POST /extract], and the rows of that worker, do not depend on the
    schedule. *)
Lemma worker_agrees s1 s2 σ i wk :
  sys_workers σ !! i = Some wk → posting (wk_task wk) →
  finished (exec s1 σ) → finished (exec s2 σ) →
  sys_workers (exec s1 σ) !! i = sys_workers (exec s2 σ) !! i
  ∧ unnumbered <$> rows_of i (history s1 σ)
    = unnumbered <$> rows_of i (history s2 σ).
Proof.
  intros Hwk Ht H1 H2.
  destruct (exec_isolated s1 σ i wk (sys_table σ) Hwk Ht) as [Hw1 Hr1].
  destruct (exec_isolated s2 σ i wk (sys_table σ) Hwk Ht) as [Hw2 Hr2].
  destruct (solo_settled (turns i s1) (turns i s2) wk (sys_table σ)) as [He Hh];
    [by eapply solo_finished..|].
  by rewrite Hw1, Hw2, Hr1, Hr2, He, Hh.
Qed.

Lemma sys_step_length i σ :
  length (sys_workers (sys_step i σ)) = length (sys_workers σ).
Proof.
  unfold sys_step. destruct (sys_workers σ !! i); [|done].
  destruct (worker_step _ _). simpl. apply length_insert.
Qed.

Lemma exec_length sched σ :
  length (sys_workers (exec sched σ)) = length (sys_workers σ).
Proof.
  revert σ. induction sched as [|i sched IH]; intros σ; [done|]. simpl.
  by rewrite IH, sys_step_length.
Qed.

(** The rows of a history belong to workers of the pool. *)
Lemma history_owner sched σ :
  Forall (λ e, e.1 < length (sys_workers σ)) (history sched σ).
Proof.
  revert σ. induction sched as [|i sched IH]; intros σ; [constructor|]. simpl.
  apply Forall_app. split; [|specialize (IH (sys_step i σ));
                             by rewrite sys_step_length in IH].
  apply Forall_fmap, Forall_forall. intros r Hr. simpl.
  destruct (sys_workers σ !! i) as [wk|] eqn:Hwk; [by eapply lookup_lt_Some|].
  unfold step_rows, sys_step in Hr. rewrite Hwk, drop_all in Hr.
  by apply elem_of_nil in Hr.
Qed.

(** A history is, up to order, the rows of its workers one worker after
    the other. *)
Lemma history_by_worker n (h : list (nat * Row)) :
  Forall (λ e, e.1 < n) h → h.*2 ≡ₚ mjoin ((λ i, rows_of i h) <$> seq 0 n).
Proof.
  revert h. induction n as [|n IH]; intros h Hh.
  - destruct Hh as [|e h He _]; [done|lia].
  - rewrite seq_S, fmap_app, join_app. simpl. rewrite app_nil_r.
    rewrite <- (filter_app_complement (λ e, e.1 = n) h) at 1.
    rewrite fmap_app, (comm (++)). apply Permutation_app; [|done].
    rewrite (IH (filter (λ e, ¬ e.1 = n) h)).
    + apply reflexive_eq. f_equal. apply Forall_fmap_ext_1, Forall_forall.
      intros i [_ Hi]%elem_of_seq. unfold rows_of. f_equal.
      apply list_filter_filter_l. intros e. lia.
    + apply Forall_forall. intros e [Hne He]%list_elem_of_filter.
      rewrite Forall_forall in Hh. specialize (Hh e He). lia.
Qed.

(** The steps a worker needs on the table [tb]. *)
Definition needs wk tb : nat :=
  @steps_to_go (wk_env wk) (wk_task wk) (join (wk_session wk) tb).

(** What a worker needs does not depend on the table. *)
Lemma needs_table wk tb1 tb2 : needs wk tb1 = needs wk tb2.
Proof.
  unfold needs. destruct (wk_task wk) as [req| | |] eqn:Ht; try done.
  unfold steps_to_go, steps_of.
  destruct (worker_step_isolated wk tb1 tb2) as [Hw _]; [by rewrite Ht|].
  unfold worker_step in Hw. rewrite Ht in Hw.
  destruct (advance _ (join _ tb1)), (advance _ (join _ tb2)). simpl in *.
  by simplify_eq.
Qed.

(** A step of a worker leaves it one step less to go, at most. *)
Lemma worker_step_needs wk tb tb' :
  needs (worker_step wk tb).1 tb' ≤ needs wk tb - 1.
Proof.
  unfold needs, worker_step.
  pose proof (@advance_steps_to_go (wk_env wk) (wk_task wk)
                (join (wk_session wk) tb)) as Hstep.
  destruct (advance _ _) as [t' w']. simpl in *. apply Hstep.
Qed.

(** A worker that is given the turns it needs is over at the end. *)
Lemma exec_finishes sched σ i wk :
  sys_workers σ !! i = Some wk → needs wk (sys_table σ) ≤ turns i sched →
  ∃ wk', sys_workers (exec sched σ) !! i = Some wk' ∧ is_done (wk_task wk').
Proof.
  revert σ wk. induction sched as [|j sched IH]; intros σ wk Hwk Hn.
  - exists wk. split; [done|]. apply Nat.le_0_r in Hn.
    by destruct (@steps_to_go_0 (wk_env wk) _ _ Hn) as [result ->].
  - rewrite turns_cons in Hn. cbn [exec]. destruct (decide (j = i)) as [->|Hji].
    + destruct (sys_step_lookup i σ wk Hwk) as [Hwk' Htb].
      apply (IH _ _ Hwk').
      pose proof (worker_step_needs wk (sys_table σ) (sys_table (sys_step i σ))).
      lia.
    + apply (IH _ wk); [by rewrite sys_step_lookup_ne|].
      rewrite (needs_table wk _ (sys_table σ)). lia.
Qed.


(** The tables two schedules leave hold the same rows, identifiers and
    order apart. *)
Lemma contents_agree s1 s2 σ :
  posts σ → finished (exec s1 σ) → finished (exec s2 σ) →
  contents (sys_table (exec s1 σ)) ≡ₚ contents (sys_table (exec s2 σ)).
Proof.
  intros Hposts H1 H2. unfold contents. rewrite !exec_history, !fmap_app.
  apply Permutation_app; [done|].
  rewrite (history_by_worker _ _ (history_owner s1 σ)),
    (history_by_worker _ _ (history_owner s2 σ)).
  apply reflexive_eq, fmap_join_ext, Forall_forall.
  intros i [_ Hi]%elem_of_seq.
  destruct (lookup_lt_is_Some_2 (sys_workers σ) i Hi) as [wk Hwk].
  apply (worker_agrees s1 s2 σ i wk); [done| |done..].
  by apply (Forall_lookup_1 _ _ i _ Hposts).
Qed.

(** C19: the interleaving decides the order of the
    rows and their identifiers, and nothing else.  For workers that serve
    [POST /extract], two schedules that let every request finish end with
    the same workers, that is with the same response or exception for each
    request, the same calls made and the same log written, and with tables
    that hold the same rows up to their order and their identifiers.  In
    particular every interleaving gives what the schedule gives in which the
    requests are served one after the other. *)
Theorem schedules_agree s1 s2 σ :
  posts σ → finished (exec s1 σ) → finished (exec s2 σ) →
  sys_workers (exec s1 σ) = sys_workers (exec s2 σ)
  ∧ contents (sys_table (exec s1 σ)) ≡ₚ contents (sys_table (exec s2 σ)).
Proof.
  intros Hposts H1 H2. split.
  - apply list_eq. intros i.
    destruct (sys_workers σ !! i) as [wk|] eqn:Hwk.
    + apply (worker_agrees s1 s2 σ i wk); [done| |done..].
      by apply (Forall_lookup_1 _ _ i _ Hposts).
    + apply lookup_ge_None in Hwk.
      rewrite !(proj2 (lookup_ge_None _ _)); [done|by rewrite exec_length..].
  - by apply contents_agree.
Qed.

(** The dates of a listing never increase. *)
Lemma listed_dates_sorted (rows : list Row) :
  StronglySorted (λ d1 d2 : Z, (d2 ≤ d1)%Z)
    (row_date <$> merge_sort newer_or_equal rows).
Proof.
  apply (StronglySorted_fmap _ newer_or_equal); [done|].
  apply StronglySorted_merge_sort; apply _.
Qed.

(** Tables that hold the same rows are listed alike: the same dates in
    the same order, and the same rows up to the order of those of one
    date. *)
Lemma listed_alike (rows1 rows2 : list Row) :
  unnumbered <$> rows1 ≡ₚ unnumbered <$> rows2 →
  let l1 := merge_sort newer_or_equal rows1 in
  let l2 := merge_sort newer_or_equal rows2 in
  row_date <$> l1 = row_date <$> l2 ∧ unnumbered <$> l1 ≡ₚ unnumbered <$> l2.
Proof.
  intros Hp l1 l2.
  assert (unnumbered <$> l1 ≡ₚ unnumbered <$> l2) as Hl
    by (unfold l1, l2; by rewrite !merge_sort_Permutation).
  split; [|done].
  apply (StronglySorted_unique_strong (λ d1 d2 : Z, (d2 ≤ d1)%Z));
    [intros; lia|apply listed_dates_sorted..|].
  apply (fmap_Permutation fst) in Hl. by rewrite <-!list_fmap_compose in Hl.
Qed.

(** A listing after all the requests does not depend on how they were
    interleaved.  After two schedules that let every [POST /extract]
    finish, [GET /emails] with the same answer of the store lists the same
    dates in the same order and the same rows, up to their identifiers and
    the order of the rows of one date; both listings report the same
    number of rows. *)
Theorem listings_agree (env : Env) (s : Session) s1 s2 σ resp1 :
  posts σ → finished (exec s1 σ) → finished (exec s2 σ) →
  let listing sched := (@get_emails env (join s (sys_table (exec sched σ)))).1 in
  listing s1 = Ok resp1 →
  ∃ resp2, listing s2 = Ok resp2
    ∧ (resp1 = empty_database_response ∧ resp2 = empty_database_response
       ∨ ∃ l1 l2, resp1 = emails_response l1 ∧ resp2 = emails_response l2
           ∧ row_date <$> l1 = row_date <$> l2
           ∧ unnumbered <$> l1 ≡ₚ unnumbered <$> l2).
Proof.
  intros Hposts H1 H2 listing. unfold listing. rewrite !(@get_emails_run env).
  simpl. destruct (env_select _ _); [done|].
  destruct (listed_alike _ _ (contents_agree s1 s2 σ Hposts H1 H2)) as [Hd Hp].
  destruct (merge_sort _ (t_rows (sys_table (exec s1 σ)))) as [|r1 l1],
    (merge_sort _ (t_rows (sys_table (exec s2 σ)))) as [|r2 l2];
    try done; intros [= <-]; eexists; (split; [done|]); [by left|right].
  by exists (r1 :: l1), (r2 :: l2).
Qed.
End agreement.

(** ** The theorems at concrete inputs *)

(** Two workers serve the request of the scenario, one with the store of
    the scenario, which refuses the newsletter, and one with a mailbox of
    its own and a store that accepts every record; a third lists the
    table. *)
Definition poster (env : Env) : worker :=
  {| wk_env := env; wk_session := session world0;
     wk_task := Extract demo_request |}.

Definition lister : worker :=
  {| wk_env := demo_env; wk_session := session world0; wk_task := Listing |}.

Definition pool : system :=
  {| sys_workers := [poster demo_env; poster pg_env; lister];
     sys_table := table world0 |}.

(** The two requests take turns; the listing comes when each has stored one
    record. *)
Definition turn_by_turn : list nat := [0; 1; 0; 1; 0; 2; 1; 1; 0; 0; 1; 1; 0].


Lemma request_isolated_witness :
  let w := join (wk_session (poster demo_env)) (table world0) in
  let run := @extract_from_email demo_env demo_request w in
  let mine := rows_of 0 (history turn_by_turn pool) in
  sys_workers (exec turn_by_turn pool) !! 0
  = Some {| wk_env := demo_env; wk_session := session run.2;
            wk_task := Done run.1 |}
  ∧ unnumbered <$> mine
    = unnumbered <$> drop (length (t_rows (table world0))) (w_rows run.2)
  ∧ ∀ resp, run.1 = Ok resp →
      ∃ rs, resp = response_for demo_request rs (length mine).
Proof.
  apply (request_isolated turn_by_turn pool 0 (poster demo_env) demo_request
           (table world0)); [reflexivity..|].
  vm_compute. lia.
Defined.


(** The history of the schedule: the rows of the two requests alternate,
    the identifiers follow the order of the inserts, and the first worker's
    newsletter, which its store refuses, leaves no row. *)
Example turn_by_turn_history :
  (λ e, (e.1, row_id e.2, subject (row_data e.2))) <$> history turn_by_turn pool
  = [(0, 1%Z, "Lunch"); (1, 2%Z, "Lunch"); (1, 3%Z, "Newsletter");
     (0, 4%Z, "From the east")].
Proof. vm_compute. reflexivity. Qed.

(** The listing ran when each request had stored its first record: it shows
    these two rows, and neither request whole. *)
Example turn_by_turn_listing :
  (λ wk, match wk_task wk with
         | Done (Ok resp) => py_get "total_count" resp
         | _ => None
         end) <$> sys_workers (exec turn_by_turn pool) !! 2
  = Some (Some (PInt 2)).
Proof. vm_compute. reflexivity. Qed.

(** The two requests without the listing, served in turns and one after
    the other. *)
Definition posters : system :=
  {| sys_workers := [poster demo_env; poster pg_env];
     sys_table := table world0 |}.

Definition in_turns : list nat := [0; 1; 0; 1; 0; 1; 1; 0; 0].
Definition one_by_one : list nat := [0; 0; 0; 0; 0; 1; 1; 1; 1].


Lemma schedules_agree_witness :
  sys_workers (exec in_turns posters) = sys_workers (exec one_by_one posters)
  ∧ contents (sys_table (exec in_turns posters))
    ≡ₚ contents (sys_table (exec one_by_one posters)).
Proof.
  apply (schedules_agree in_turns one_by_one posters);
    [|apply finished_tasks; vm_compute..]; repeat constructor.
Defined.

(** The same rows under other identifiers and in another order. *)
(** The listing after either schedule, by its dates. *)
Example in_turns_listing :
  row_date <$> merge_sort newer_or_equal (t_rows (sys_table (exec in_turns posters)))
  = row_date <$> merge_sort newer_or_equal (t_rows (sys_table (exec one_by_one posters))).
Proof. vm_compute. reflexivity. Qed.

Example in_turns_table :
  (λ r, (row_id r, subject (row_data r)))
    <$> t_rows (sys_table (exec in_turns posters))
  = [(1%Z, "Lunch"); (2%Z, "Lunch"); (3%Z, "Newsletter"); (4%Z, "From the east")].
Proof. vm_compute. reflexivity. Qed.

Example one_by_one_table :
  (λ r, (row_id r, subject (row_data r)))
    <$> t_rows (sys_table (exec one_by_one posters))
  = [(1%Z, "Lunch"); (2%Z, "From the east"); (3%Z, "Lunch"); (4%Z, "Newsletter")].
Proof. vm_compute. reflexivity. Qed.
