(* ===== verification/Sessions.v ===== *)
(** * The sessions of a process

    [extract_emails_from_inbox] opens its session with
    [with MailBox('imap.gmail.com').login(...) as mailbox:] (line 115 of
    [src/app/main.py]).  The constructor [MailBox(host)] connects, [login]
    authenticates, and the [with] statement is entered with the value
    [login] returns: its [__exit__], which sends the logout, runs on every
    path out of the block, and on no path that ends before the block is
    entered.  A login that the mailbox refuses raises after the connection
    was made and before the block: the session is left without its logout.

    This file follows the sessions over the life of a process.

    - [sessions t n]: the commands [t] sent to the mailbox are a sequence of
      sessions, each started by a connection and each of one of three
      shapes: the connection failed, the login was refused, or the session
      ran through its fetches to its logout; [n] of them stopped at the
      login.  Every session is a path of the automaton of [Extractor]
      ([sessions_protocol]), and [n] is the number of logins that no logout
      followed ([sessions_left_open]).
    - [count_sessions]: a reader that goes through the commands once and
      returns [n], or nothing when they are not a sequence of sessions;
      [count_sessions_spec] is its equivalence with [sessions], which makes
      [sessions t n] decidable.
    - [imap_is t]: an invariant of the handlers' code that runs after the
      extractor; the store operations, the log and the start-up probe send
      nothing to the mailbox.
    - [handle_all rqs]: the requests [rqs] served one after the other, as
      [Service.running] serves them ([running_handle_all]);
      [refusals rqs w] counts those whose login is refused.
    - [sessions_accumulate]: in a process that has served [rqs], the
      sessions left at their login are as many as the refused logins: no
      later request and nothing else the process does sends their logout. *)

From S2P Require Import Prelude PyStr PyVal DateTime.
From S2P Require Import Iso World Store Scenario Summarizer.
From S2P Require Import Extractor Endpoints App Service.
From stdpp Require Import gmap.

Local Open Scope py_scope.

(** ** The sessions of a trace *)

(** [sessions t n]: the commands [t] are a sequence of sessions, each
    started by a connection, [n] of which stopped at their login. *)
Inductive sessions : list event → nat → Prop :=
  | sessions_none : sessions [] 0
  | sessions_unreachable t n host :
      sessions t n → sessions (t ++ [EvConnect host]) n
  | sessions_refused t n host username password folder :
      sessions t n →
      sessions (t ++ [EvConnect host; EvLogin username password folder]) (S n)
  | sessions_closed t n host username password folder cs :
      sessions t n →
      sessions (t ++ [EvConnect host; EvLogin username password folder]
                  ++ (EvFetch <$> cs) ++ [EvLogout]) n.

Definition is_login (ev : event) : bool :=
  match ev with EvLogin _ _ _ => true | _ => false end.

Definition is_logout (ev : event) : bool :=
  match ev with EvLogout => true | _ => false end.

(** The logins that no logout followed. *)
Definition left_open (t : list event) : nat :=
  length (filter (λ ev, is_login ev = true) t)
  - length (filter (λ ev, is_logout ev = true) t).

Section sessions_lemmas.
Implicit Types (t : list event) (n : nat).

Lemma filter_fetches (f : event → bool) (cs : list criteria) :
  (∀ c, f (EvFetch c) = false) →
  filter (λ ev, f ev = true) (EvFetch <$> cs) = [].
Proof.
  intros Hf. induction cs as [|c cs IH]; [done|]. csimpl.
  rewrite filter_cons_False; [done|]. by rewrite Hf.
Qed.

(** Every logout closes a login, and [n] logins are left. *)
Lemma sessions_logins t n :
  sessions t n →
  length (filter (λ ev, is_login ev = true) t)
  = length (filter (λ ev, is_logout ev = true) t) + n.
Proof.
  induction 1 as [|t n host _ IH|t n host u p f _ IH|t n host u p f cs _ IH];
    rewrite ?filter_app, ?length_app, ?filter_fetches by done;
    simpl; lia.
Qed.

Lemma sessions_left_open t n : sessions t n → left_open t = n.
Proof. intros Hs%sessions_logins. unfold left_open. lia. Qed.

(** Every session is a path of the session automaton that starts without
    a connection. *)
Lemma sessions_protocol t n :
  sessions t n →
  ∃ ss, t = mjoin ss ∧ Forall (λ s, ∃ st, session_path NotConnected s st) ss.
Proof.
  induction 1 as [|t n host _ (ss & -> & Hss)|t n host u p f _ (ss & -> & Hss)
                  |t n host u p f cs _ (ss & -> & Hss)];
    [by exists []|..];
    (eexists (ss ++ [_]); split; [rewrite join_app; simpl; by rewrite app_nil_r|]);
    apply Forall_app; (split; [done|]); apply Forall_singleton;
    [exists NotAuthenticated|exists Selected|exists LoggedOut];
    repeat (eapply path_step; [constructor|]); try constructor.
  eapply session_path_app; [apply session_path_fetches|].
  eauto using session_path, session_step.
Qed.
End sessions_lemmas.

(** ** Reading the sessions off a trace *)

(** Where a reader of the commands is: between two sessions, after a
    connection, after a login, among the fetches. *)
Inductive reader : Type := Idle | Connected | LoggedIn | Fetching.

#[export] Instance reader_eq_dec : EqDecision reader.
Proof. solve_decision. Defined.

(** One command read; the number counts the sessions found to have
    stopped at their login. *)
Definition read_next (r : reader * nat) (ev : event) : option (reader * nat) :=
  match r.1, ev with
  | (Idle | Connected), EvConnect _ => Some (Connected, r.2)
  | LoggedIn, EvConnect _ => Some (Connected, S r.2)
  | Connected, EvLogin _ _ _ => Some (LoggedIn, r.2)
  | (LoggedIn | Fetching), EvFetch _ => Some (Fetching, r.2)
  | (LoggedIn | Fetching), EvLogout => Some (Idle, r.2)
  | _, _ => None
  end.

Fixpoint read (r : reader * nat) (t : list event) : option (reader * nat) :=
  match t with
  | [] => Some r
  | ev :: t' => read_next r ev ≫= λ r', read r' t'
  end.

(** The sessions left at their login when the commands end here. *)
Definition read_end (r : reader * nat) : option nat :=
  match r.1 with
  | Idle | Connected => Some r.2
  | LoggedIn => Some (S r.2)
  | Fetching => None
  end.

Definition count_sessions (t : list event) : option nat :=
  read (Idle, 0) t ≫= read_end.

Section reading.
Implicit Types (t : list event) (n k : nat) (r : reader * nat).

Lemma read_app r t1 t2 : read r (t1 ++ t2) = read r t1 ≫= λ r', read r' t2.
Proof.
  revert r. induction t1 as [|ev t1 IH]; intros r; [done|]. simpl.
  destruct (read_next r ev) as [r'|]; [apply IH|done].
Qed.

Lemma read_fetches k (cs : list criteria) st :
  st = LoggedIn ∨ st = Fetching →
  read (st, k) (EvFetch <$> cs) = Some (if cs is [] then st else Fetching, k).
Proof.
  revert st. induction cs as [|c cs IH]; intros st Hst; [done|]. csimpl.
  destruct Hst as [-> | ->]; simpl; rewrite IH by auto; by destruct cs.
Qed.

(** What has been read, by the place of the reader. *)
Definition read_so_far (r : reader * nat) t : Prop :=
  match r.1 with
  | Idle => sessions t r.2
  | Connected => ∃ t0 host, t = t0 ++ [EvConnect host] ∧ sessions t0 r.2
  | LoggedIn => ∃ t0 host u p f,
      t = t0 ++ [EvConnect host; EvLogin u p f] ∧ sessions t0 r.2
  | Fetching => ∃ t0 host u p f cs,
      t = t0 ++ [EvConnect host; EvLogin u p f] ++ (EvFetch <$> cs)
      ∧ sessions t0 r.2
  end.

Lemma read_sound t r : read (Idle, 0) t = Some r → read_so_far r t.
Proof.
  revert r. induction t as [|ev t IH] using rev_ind; intros r.
  { intros [= <-]. constructor. }
  rewrite read_app. destruct (read (Idle, 0) t) as [[st k]|]; [|done].
  specialize (IH _ eq_refl). unfold read_so_far in *. simpl in *.
  destruct st, ev; intros [= <-]; simpl in *.
  - by eexists _, _.
  - destruct IH as (t0 & h & -> & Hs). eexists _, _. split; [done|].
    by apply sessions_unreachable.
  - destruct IH as (t0 & h & -> & Hs). eexists t0, _, _, _, _.
    by rewrite <-app_assoc.
  - destruct IH as (t0 & h & u & p & f & -> & Hs). eexists _, _. split; [done|].
    by apply sessions_refused.
  - destruct IH as (t0 & h & u & p & f & -> & Hs).
    eexists t0, _, _, _, _, [_]. by rewrite <-!app_assoc.
  - destruct IH as (t0 & h & u & p & f & -> & Hs). rewrite <-app_assoc.
    by apply (sessions_closed _ _ _ _ _ _ []).
  - destruct IH as (t0 & h & u & p & f & cs & -> & Hs).
    eexists t0, _, _, _, _, (cs ++ [_]). by rewrite fmap_app, <-!app_assoc.
  - destruct IH as (t0 & h & u & p & f & cs & -> & Hs).
    rewrite <-!app_assoc. by apply sessions_closed.
Qed.

Lemma read_complete t n :
  sessions t n → ∃ r, read (Idle, 0) t = Some r ∧ read_end r = Some n
                      ∧ r.1 ≠ Fetching.
Proof.
  induction 1 as [|t n host _ IH|t n host u p f _ IH|t n host u p f cs _ IH];
    [by exists (Idle, 0)|..];
    destruct IH as ([st k] & Hr & He & Hst); rewrite read_app, Hr;
    unfold read_end in *; simpl; destruct st; simplify_eq/=;
    try (by eexists (_, _));
    rewrite read_app, read_fetches by auto; destruct cs; by eexists (_, _).
Qed.

Theorem count_sessions_spec t n : count_sessions t = Some n ↔ sessions t n.
Proof.
  unfold count_sessions. split.
  - destruct (read (Idle, 0) t) as [[st k]|] eqn:Hr; [|done].
    apply read_sound in Hr. unfold read_so_far, read_end in *. simpl in *.
    destruct st; intros [= <-]; [done|..].
    + destruct Hr as (t0 & h & -> & Hs). by apply sessions_unreachable.
    + destruct Hr as (t0 & h & u & p & f & -> & Hs). by apply sessions_refused.
  - intros (r & -> & He & _)%read_complete. done.
Qed.

#[export] Instance sessions_dec t n : Decision (sessions t n).
Proof.
  refine (cast_if (decide (count_sessions t = Some n)));
    abstract (by rewrite <-count_sessions_spec).
Defined.
End reading.

(** ** Handlers that send no command to the mailbox *)

(** The commands sent to the mailbox so far are [t]. *)
Definition imap_is (t : list event) (w : World) : Prop :=
  imap_calls (w_trace w) = t.

Section quiet.
Context `{Env} (t : list event).

Lemma imap_is_call {A} ev (answer : nat → outcome exn A) :
  is_imap ev = false → preserves (imap_is t) (call ev answer).
Proof.
  intros Hev w Hw. apply wp_call. unfold imap_is in *.
  destruct (answer _); simpl;
    by rewrite imap_calls_app, imap_calls_cons, Hev, app_nil_r.
Qed.

Lemma imap_is_logger l msg : preserves (imap_is t) (logger l msg).
Proof. intros w Hw. apply wp_logger. by destruct (enabled l). Qed.

Lemma imap_is_table_insert table data :
  preserves (imap_is t) (table_insert table data).
Proof.
  apply preserves_bind; [by apply imap_is_call|]. intros ts.
  by apply preserves_modify.
Qed.

#[local] Hint Resolve imap_is_logger imap_is_table_insert : py.
#[local] Hint Extern 1 (preserves _ (call _ _)) =>
  apply imap_is_call; reflexivity : py.

Lemma imap_is_store_email stored_count email_data :
  preserves (imap_is t) (store_email stored_count email_data).
Proof. unfold store_email. preserves_auto. Qed.

Lemma imap_is_store_loop rs stored_count :
  preserves (imap_is t) (for_fold rs stored_count store_email).
Proof. apply preserves_for_fold. intros. apply imap_is_store_email. Qed.

Lemma imap_is_reraise_as_http {A} where_ e :
  preserves (imap_is t) (reraise_as_http (A:=A) where_ e).
Proof. unfold reraise_as_http. preserves_auto. Qed.

Lemma imap_is_get_emails : preserves (imap_is t) get_emails.
Proof. unfold get_emails, table_select_order. preserves_auto. Qed.

Lemma imap_is_startup_probe : preserves (imap_is t) startup_probe.
Proof. unfold startup_probe, table_select_limit. preserves_auto. Qed.
End quiet.

(** A run that keeps the commands, whatever they are, adds none. *)
Lemma imap_calls_run `{Env} {A} (c : Py A) w :
  (∀ t, preserves (imap_is t) c) →
  imap_calls (w_trace (c w).2) = imap_calls (w_trace w).
Proof. intros Hc. by apply (preserves_run (imap_is _) c w (Hc _)). Qed.

(** ** The sessions of a request *)

Section request.
Context `{Env}.
Implicit Types (w : World) (t : list event) (n : nat).

(** The connection was made and the mailbox refused the login. *)
Definition login_refused (a p : string) (w : World) : bool :=
  match cutoff_of w, env_connect (w_tick (w_started a w)) "imap.gmail.com" with
  | Ok _, None => bool_decide (is_Some (env_login (w_tick (w_connected a w)) a p "INBOX"))
  | _, _ => false
  end.

(** One call of the extractor adds at most one session, left at its login
    exactly when the login was refused. *)
Lemma extract_sessions a p senders w n :
  sessions (imap_calls (w_trace w)) n →
  sessions (imap_calls (w_trace (extract_emails_from_inbox a p senders w).2))
    (n + (if login_refused a p w then 1 else 0)).
Proof.
  intros Hs. pose proof (extract_paths a p senders w) as Hp. cbv zeta in Hp.
  unfold login_refused. destruct (cutoff_of w) as [ds|].
  2: { destruct Hp as (-> & _). by rewrite app_nil_r, Nat.add_0_r. }
  destruct (env_connect _ _).
  { destruct Hp as (-> & _). rewrite imap_calls_app, Nat.add_0_r.
    by apply sessions_unreachable. }
  destruct (env_login _ _ _ _); simpl.
  { destruct Hp as (-> & _). rewrite imap_calls_app, Nat.add_1_r.
    by apply sessions_refused. }
  destruct Hp as (bs & _ & -> & _).
  rewrite imap_calls_app, imap_calls_session, Nat.add_0_r.
  rewrite (list_fmap_compose (λ b, sender_criteria ds (b_sender b)) EvFetch).
  by apply sessions_closed.
Qed.

(** After the extractor the handler talks to the store only. *)
Lemma extract_from_email_imap req w :
  imap_calls (w_trace (extract_from_email req w).2)
  = imap_calls (w_trace (extraction_run req w).2).
Proof.
  rewrite extract_from_email_run.
  destruct (extraction_run req w) as [[[|r rs]|e] w1]; cbv beta iota zeta;
    [done| |apply imap_calls_run; intros; apply imap_is_reraise_as_http].
  set (w2 := w_add_log INFO "Storing emails in Supabase" w1).
  pose proof (imap_calls_run (for_fold (r :: rs) 0 store_email) w2
                (λ t, imap_is_store_loop t _ _)) as Hloop.
  destruct (for_fold _ _ _ w2) as [[k|e] w3]; [done|]. cbn [snd] in Hloop.
  etrans; [|exact Hloop]. apply imap_calls_run. intros.
  apply imap_is_reraise_as_http.
Qed.

Lemma extract_from_email_sessions req w n :
  sessions (imap_calls (w_trace w)) n →
  sessions (imap_calls (w_trace (extract_from_email req w).2))
    (n + (if login_refused (email_address req) (password req) (w_request req w)
          then 1 else 0)).
Proof.
  intros Hs. rewrite extract_from_email_imap. by apply extract_sessions.
Qed.
End request.

(** ** The sessions of a process *)

Section process.
Context `{Env, Clients, Pydantic}.
Implicit Types (w : World) (rq : Request) (rqs : list Request) (n : nat).

(** The world after the request [rq] was served; a request that no route
    matches is answered by the framework. *)
Definition handle rq w : World :=
  match serve the_app rq with
  | Some p => (p w).2
  | None => w
  end.

(** The requests [rqs], one after the other. *)
Definition handle_all rqs w : World := foldl (λ w rq, handle rq w) w rqs.

(** The request is a valid [POST /extract] and its login is refused. *)
Definition refused rq w : bool :=
  match find_route (routes the_app) (rq_method rq) (rq_path rq),
        EmailRequest_validate (rq_json rq) with
  | Some ExtractFromEmail, Some req =>
      login_refused (email_address req) (password req) (w_request req w)
  | _, _ => false
  end.

(** The requests of [rqs] whose login is refused, when they are served from
    [w]. *)
Fixpoint refusals rqs w : nat :=
  match rqs with
  | [] => 0
  | rq :: rqs' => (if refused rq w then 1 else 0) + refusals rqs' (handle rq w)
  end.

Lemma handle_all_snoc rqs rq w :
  handle_all (rqs ++ [rq]) w = handle rq (handle_all rqs w).
Proof. unfold handle_all. by rewrite foldl_app. Qed.

Lemma handle_sessions rq w n :
  sessions (imap_calls (w_trace w)) n →
  sessions (imap_calls (w_trace (handle rq w))) (n + (if refused rq w then 1 else 0)).
Proof.
  intros Hs. unfold handle, refused, serve.
  destruct (find_route _ _ _) as [[]|]; cbn [mbind option_bind];
    rewrite ?call_endpoint_run.
  - destruct (EmailRequest_validate _) as [req|]; cbn [snd].
    + by apply extract_from_email_sessions.
    + by rewrite Nat.add_0_r.
  - rewrite Nat.add_0_r. cbn [snd].
    by rewrite (imap_calls_run get_emails) by (intros; apply imap_is_get_emails).
  - by rewrite Nat.add_0_r.
Qed.

Lemma handle_all_sessions rqs w n :
  sessions (imap_calls (w_trace w)) n →
  sessions (imap_calls (w_trace (handle_all rqs w))) (n + refusals rqs w).
Proof.
  revert w n. induction rqs as [|rq rqs IH]; intros w n Hs; simpl.
  - by rewrite Nat.add_0_r.
  - rewrite Nat.add_assoc. by apply IH, handle_sessions.
Qed.

(** The import sends nothing to the mailbox. *)
Lemma main_imap env dotenv w0 app w :
  main env dotenv w0 = (Ok app, w) →
  imap_calls (w_trace w) = imap_calls (w_trace w0).
Proof.
  rewrite main_run. cbv zeta. destruct (create_client _ _); [|done].
  destruct (Groq _); [|done]. intros [= _ <-].
  apply imap_calls_run. intros. apply imap_is_startup_probe.
Qed.

(** The worlds of a process are the worlds after the import and some
    requests. *)
Lemma running_handle_all env dotenv w0 w :
  running env dotenv w0 w ↔
  ∃ app w1 rqs, main env dotenv w0 = (Ok app, w1) ∧ w = handle_all rqs w1.
Proof.
  split.
  - induction 1 as [app w Hmain|w w' _ (app & w1 & rqs & Hmain & Hw) Hstep].
    + by exists app, w, [].
    + destruct Hstep as [rq p r w2 w3 Hs Hrun]. subst w2.
      exists app, w1, (rqs ++ [rq]). split; [done|].
      rewrite handle_all_snoc. unfold handle. by rewrite Hs, Hrun.
  - intros (app & w1 & rqs & Hmain & ->).
    induction rqs as [|rq rqs IH] using rev_ind; [by eapply running_started|].
    rewrite handle_all_snoc. unfold handle.
    destruct (serve the_app rq) as [p|] eqn:Hs; [|done].
    assert (∃ r, p (handle_all rqs w1) = (Ok r, (p (handle_all rqs w1)).2))
      as [r Hr].
    { apply serve_the_app in Hs as [(_ & _ & ->)|(_ & _ & ->)];
        rewrite call_endpoint_run; repeat case_match; eauto. }
    eapply running_served; [done|]. by eapply step_request.
Qed.

(** C21: the sessions a process leaves open.  In a
    process that was imported and has served the requests [rqs], whatever
    the collaborators answered, the commands sent to the mailbox are a
    sequence of sessions, each started by its own connection, and those that
    stopped at their login are as many as the requests whose login the
    mailbox refused: the logins without a logout are [refusals rqs].  A
    refused login leaves its connection without a logout, and no later
    request, answered or failed, sends it. *)
Theorem sessions_accumulate env dotenv w0 app w1 rqs n :
  main env dotenv w0 = (Ok app, w1) →
  sessions (imap_calls (w_trace w0)) n →
  let w := handle_all rqs w1 in
  sessions (imap_calls (w_trace w)) (n + refusals rqs w1)
  ∧ left_open (imap_calls (w_trace w)) = n + refusals rqs w1.
Proof.
  intros Hmain Hs w. apply main_imap in Hmain.
  assert (sessions (imap_calls (w_trace w)) (n + refusals rqs w1)) as Hw
    by (apply handle_all_sessions; by rewrite Hmain).
  split; [done|]. by apply sessions_left_open.
Qed.
(** In every world a process reaches, the sessions left open can only have
    grown in number. *)
Corollary running_sessions env dotenv w0 w n :
  running env dotenv w0 w → sessions (imap_calls (w_trace w0)) n →
  ∃ k, sessions (imap_calls (w_trace w)) (n + k).
Proof.
  intros (app & w1 & rqs & Hmain & ->)%running_handle_all Hs.
  exists (refusals rqs w1). apply handle_all_sessions.
  by rewrite (main_imap _ _ _ _ _ Hmain).
Qed.
End process.

(** ** The theorem at a concrete input *)

#[local] Existing Instance demo_env.
#[local] Existing Instance demo_clients.
#[local] Existing Instance strict_pydantic.

(** The request of the scenario with a password the mailbox refuses. *)
Definition denied_rq : Request :=
  {| rq_method := POST; rq_path := "/extract";
     rq_json := EmailRequest_json denied_request [] |}.

(** Two refused logins around an accepted one and a listing. *)
Definition some_requests : list Request := [denied_rq; demo_rq; list_rq; denied_rq].

Lemma sessions_accumulate_witness :
  sessions (imap_calls (w_trace (handle_all some_requests started_world))) 2
  ∧ left_open (imap_calls (w_trace (handle_all some_requests started_world))) = 2.
Proof.
  replace 2 with (0 + refusals some_requests started_world) by by vm_compute.
  apply (sessions_accumulate ∅ dotenv_file world0 the_app started_world
           some_requests 0); [by vm_compute|constructor].
Defined.

(** The commands of that process: the first and the last session have no
    logout. *)
Example some_requests_sessions :
  imap_calls (w_trace (handle_all some_requests started_world))
  = [EvConnect "imap.gmail.com"; EvLogin "me@example.com" "guess" "INBOX"]
    ++ [EvConnect "imap.gmail.com";
        EvLogin "me@example.com" "app-password" "INBOX"]
    ++ (EvFetch ∘ sender_criteria (mk_dt 2024 3 9 12 0 0 (Some utc))
          <$> demo_senders)
    ++ [EvLogout]
    ++ [EvConnect "imap.gmail.com"; EvLogin "me@example.com" "guess" "INBOX"].
Proof. vm_compute. reflexivity. Qed.

(** The reader on the commands of that process, and on commands that are
    no sequence of sessions: a fetch after the logout. *)
Example some_requests_counted :
  count_sessions (imap_calls (w_trace (handle_all some_requests started_world)))
  = Some 2.
Proof. vm_compute. reflexivity. Qed.

Example fetch_after_logout n :
  ¬ sessions [EvConnect "imap.gmail.com"; EvLogin "me@example.com" "guess" "INBOX";
              EvLogout; EvFetch (AND "ann@example.com" 738953)] n.
Proof. by rewrite <-count_sessions_spec. Qed.
